(** * Doctor appointment backend: the booking service

    A shallow embedding of [src/services/bookingService.js] over the tables
    of [src/database/schema.sql].

    - Tables are lists of rows; an SQL [UPDATE ... WHERE c] is a [map] that
      rewrites the rows satisfying [c], a [SELECT ... WHERE c] is a [filter],
      an [INSERT] appends a row.
    - Timestamps are integers (milliseconds since the epoch); a nullable
      column is an [option].  The time zone of the process that serves a
      call is part of the environment of the call: [createBooking] builds
      the instant of a slot from local midnight of its date.
    - A service call runs against a store session: the committed database,
      the working copy of the open transaction (if any) and the number of
      queries sent so far.  The store may answer any query with an error;
      which one is given by a fault schedule.
    - Calls in flight at the same time are interleaved statement by
      statement under the row locks of the store; a call that runs alone
      there does what the same call does against a session
      ([alone_agrees]).
    - Around the service: the handlers of [bookingController.js], the
      deleting and listing handlers of [slotController.js] and
      [doctorController.js], the time loop of [createBulkSlots],
      [middleware/errorHandler.js] and the tick of
      [jobs/bookingExpiry.js].  A handler sends one response or hands an
      error to [next]. *)

From Stdlib Require Import ZArith List String Bool Lia.
From Stdlib Require Import DecimalString Relations Ascii.
From Stdlib Require DecimalPos.
Import ListNotations.
Local Open Scope Z_scope.

(** ** Rows (schema.sql) *)

Inductive status : Type := PENDING | CONFIRMED | FAILED | CANCELLED.

Definition status_eqb (a b : status) : bool :=
  match a, b with
  | PENDING, PENDING | CONFIRMED, CONFIRMED
  | FAILED, FAILED | CANCELLED, CANCELLED => true
  | _, _ => false
  end.

Record doctor_row : Type := {
  d_id : Z;
  d_name : string;
  d_specialization : string
}.

Record slot_row : Type := {
  s_id : Z;
  doctor_id : Z;
  slot_date : Z;          (* DATE: days since the epoch *)
  slot_time : Z;          (* TIME: milliseconds since midnight *)
  duration_minutes : Z;
  is_available : bool;
  s_updated_at : Z
}.

Record booking_row : Type := {
  b_id : Z;
  slot_id : Z;
  patient_name : string;
  patient_email : string;
  patient_phone : option string;
  b_status : status;
  booking_time : Z;
  confirmed_at : option Z;
  failed_at : option Z;
  failure_reason : option string;
  version : Z;
  b_created_at : Z;
  b_updated_at : Z
}.

(** The three tables and the sequence behind [bookings.id SERIAL]
    ([bookings_id_seq] holds the last value handed out). *)
Record database : Type := {
  doctors : list doctor_row;
  appointment_slots : list slot_row;
  bookings : list booking_row;
  bookings_id_seq : Z
}.

Definition with_slots (db : database) (l : list slot_row) : database :=
  {| doctors := doctors db; appointment_slots := l;
     bookings := bookings db; bookings_id_seq := bookings_id_seq db |}.

Definition with_bookings (db : database) (l : list booking_row) : database :=
  {| doctors := doctors db; appointment_slots := appointment_slots db;
     bookings := l; bookings_id_seq := bookings_id_seq db |}.

Definition with_seq (db : database) (n : Z) : database :=
  {| doctors := doctors db; appointment_slots := appointment_slots db;
     bookings := bookings db; bookings_id_seq := n |}.

(** Row updates.  Both tables carry a [BEFORE UPDATE] trigger that stamps
    [updated_at] with [CURRENT_TIMESTAMP]. *)
Definition set_available (v : bool) (now : Z) (s : slot_row) : slot_row :=
  {| s_id := s_id s; doctor_id := doctor_id s; slot_date := slot_date s;
     slot_time := slot_time s; duration_minutes := duration_minutes s;
     is_available := v; s_updated_at := now |}.

Definition set_confirmed (now : Z) (b : booking_row) : booking_row :=
  {| b_id := b_id b; slot_id := slot_id b; patient_name := patient_name b;
     patient_email := patient_email b; patient_phone := patient_phone b;
     b_status := CONFIRMED; booking_time := booking_time b;
     confirmed_at := Some now; failed_at := failed_at b;
     failure_reason := failure_reason b; version := version b;
     b_created_at := b_created_at b; b_updated_at := now |}.

Definition set_cancelled (now : Z) (b : booking_row) : booking_row :=
  {| b_id := b_id b; slot_id := slot_id b; patient_name := patient_name b;
     patient_email := patient_email b; patient_phone := patient_phone b;
     b_status := CANCELLED; booking_time := booking_time b;
     confirmed_at := confirmed_at b; failed_at := failed_at b;
     failure_reason := failure_reason b; version := version b;
     b_created_at := b_created_at b; b_updated_at := now |}.

Definition set_failed (now : Z) (reason : string) (b : booking_row) : booking_row :=
  {| b_id := b_id b; slot_id := slot_id b; patient_name := patient_name b;
     patient_email := patient_email b; patient_phone := patient_phone b;
     b_status := FAILED; booking_time := booking_time b;
     confirmed_at := confirmed_at b; failed_at := Some now;
     failure_reason := Some reason; version := version b;
     b_created_at := b_created_at b; b_updated_at := now |}.

(** ** The SQL statements of the service, as functions on a database *)

Module Sql.

(** [SELECT id, is_available, doctor_id, slot_date, slot_time
     FROM appointment_slots WHERE id = $1 FOR UPDATE] *)
Definition select_slot (db : database) (slotId : Z) : list slot_row :=
  filter (fun s => s_id s =? slotId) (appointment_slots db).

(** [INSERT INTO bookings (slot_id, patient_name, patient_email,
     patient_phone, status) VALUES ($1, $2, $3, $4, 'PENDING') RETURNING *]:
    the id comes from the sequence, the other columns from their defaults;
    the statement returns the one row it inserted ([bookingResult.rows[0]]). *)
Definition new_booking (id slotId : Z) (patientName patientEmail : string)
    (patientPhone : option string) (now : Z) : booking_row :=
  {| b_id := id; slot_id := slotId; patient_name := patientName;
     patient_email := patientEmail; patient_phone := patientPhone;
     b_status := PENDING; booking_time := now; confirmed_at := None;
     failed_at := None; failure_reason := None; version := 1;
     b_created_at := now; b_updated_at := now |}.

Definition insert_booking (db : database) (slotId : Z)
    (patientName patientEmail : string) (patientPhone : option string)
    (now : Z) : booking_row * database :=
  let id := bookings_id_seq db + 1 in
  let b := new_booking id slotId patientName patientEmail patientPhone now in
  (b,
   {| doctors := doctors db; appointment_slots := appointment_slots db;
      bookings := bookings db ++ [b]; bookings_id_seq := id |}).

(** [UPDATE appointment_slots SET is_available = v WHERE id = $1] *)
Definition update_slot (v : bool) (db : database) (slotId now : Z) : database :=
  with_slots db
    (map (fun s => if s_id s =? slotId then set_available v now s else s)
         (appointment_slots db)).

(** [UPDATE bookings SET status = 'CONFIRMED',
     confirmed_at = CURRENT_TIMESTAMP WHERE id = $1] *)
Definition confirm_booking (db : database) (bookingId now : Z) : database :=
  with_bookings db
    (map (fun b => if b_id b =? bookingId then set_confirmed now b else b)
         (bookings db)).

(** [SELECT * FROM bookings WHERE id = $1 FOR UPDATE] *)
Definition select_booking (db : database) (bookingId : Z) : list booking_row :=
  filter (fun b => b_id b =? bookingId) (bookings db).

(** [UPDATE bookings SET status = 'CANCELLED',
     updated_at = CURRENT_TIMESTAMP WHERE id = $1] *)
Definition cancel_booking (db : database) (bookingId now : Z) : database :=
  with_bookings db
    (map (fun b => if b_id b =? bookingId then set_cancelled now b else b)
         (bookings db)).

(** The [WHERE] clause of the expiry statement:
    [status = 'PENDING' AND booking_time < NOW() - INTERVAL 'n minutes']. *)
Definition is_expired (timeoutMinutes now : Z) (b : booking_row) : bool :=
  status_eqb (b_status b) PENDING
  && (booking_time b <? now - timeoutMinutes * 60000).

(** The interpolated failure reason. *)
Definition timeout_reason (timeoutMinutes : Z) : string :=
  ("Booking timeout - not confirmed within "
   ++ NilZero.string_of_int (Z.to_int timeoutMinutes) ++ " minutes")%string.

(** [UPDATE bookings SET status = 'FAILED', failed_at = CURRENT_TIMESTAMP,
     failure_reason = '...' WHERE status = 'PENDING' AND booking_time < ...
     RETURNING slot_id] *)
Definition expire_bookings (db : database) (timeoutMinutes now : Z)
    : list Z * database :=
  (map slot_id (filter (is_expired timeoutMinutes now) (bookings db)),
   with_bookings db
     (map (fun b => if is_expired timeoutMinutes now b
                    then set_failed now (timeout_reason timeoutMinutes) b
                    else b)
          (bookings db))).

(** [UPDATE appointment_slots SET is_available = TRUE WHERE id = ANY($1)] *)
Definition release_slots (db : database) (slotIds : list Z) (now : Z) : database :=
  with_slots db
    (map (fun s => if existsb (Z.eqb (s_id s)) slotIds
                   then set_available true now s else s)
         (appointment_slots db)).

End Sql.

Arguments Sql.timeout_reason : simpl never.

(** ** The store session and the effects of a service call *)

(** A JavaScript [Error]: its message and, for errors raised by the
    PostgreSQL driver, the SQLSTATE in [code]. *)
Record js_error : Type := { message : string; code : option string }.

Definition Error (msg : string) : js_error := {| message := msg; code := None |}.

Inductive completion (A : Type) : Type :=
| Return (a : A)
| Throw (e : js_error).
Arguments Return {A} a.
Arguments Throw {A} e.

(** What a call cannot control: the errors the store raises (by index of the
    query within the call), the transaction timestamp of the store
    ([CURRENT_TIMESTAMP], [NOW()]), the clock of the process
    ([new Date()]) and the time zone of the process.  The zone is given as
    ECMAScript gives it, by the operation [UTC(t)]: the time value (ms
    since the epoch) of the local time [t]. *)
Record env : Type := {
  fault : nat -> option js_error;
  CURRENT_TIMESTAMP : Z;
  Date_now : Z;
  UTC : Z -> Z
}.

Record session : Type := {
  committed : database;
  txn : option database;
  sent : nat
}.

Definition M (A : Type) : Type := env -> session -> completion A * session.

Definition ret {A} (a : A) : M A := fun _ s => (Return a, s).

Definition bind {A B} (m : M A) (k : A -> M B) : M B :=
  fun e s =>
    match m e s with
    | (Return a, s') => k a e s'
    | (Throw err, s') => (Throw err, s')
    end.

Definition throw {A} (err : js_error) : M A := fun _ s => (Throw err, s).

Definition try_catch {A} (body : M A) (handler : js_error -> M A) : M A :=
  fun e s =>
    match body e s with
    | (Return a, s') => (Return a, s')
    | (Throw err, s') => handler err e s'
    end.

Notation "x <- m ;; k" := (bind m (fun x => k))
  (at level 61, m at next level, right associativity).
Notation "m ;;; k" := (bind m (fun _ => k))
  (at level 61, right associativity).

Definition sending (s : session) : session :=
  {| committed := committed s; txn := txn s; sent := S (sent s) |}.

(** A statement on the client connection: it works on the copy of the open
    transaction, or directly on the committed data outside one. *)
Definition client_query {A} (stmt : database -> Z -> A * database) : M A :=
  fun e s =>
    match fault e (sent s) with
    | Some err => (Throw err, sending s)
    | None =>
        match txn s with
        | Some w =>
            let (a, w') := stmt w (CURRENT_TIMESTAMP e) in
            (Return a,
             {| committed := committed s; txn := Some w'; sent := S (sent s) |})
        | None =>
            let (a, d') := stmt (committed s) (CURRENT_TIMESTAMP e) in
            (Return a, {| committed := d'; txn := None; sent := S (sent s) |})
        end
    end.

(** A read through the pool ([pool.query]): another connection, which sees
    committed data only. *)
Definition pool_query {A} (q : database -> A) : M A :=
  fun e s =>
    match fault e (sent s) with
    | Some err => (Throw err, sending s)
    | None => (Return (q (committed s)), sending s)
    end.

Definition BEGIN : M unit :=
  fun e s =>
    match fault e (sent s) with
    | Some err => (Throw err, sending s)
    | None =>
        (Return tt,
         {| committed := committed s; txn := Some (committed s);
            sent := S (sent s) |})
    end.

Definition COMMIT : M unit :=
  fun e s =>
    match fault e (sent s) with
    | Some err => (Throw err, sending s)
    | None =>
        match txn s with
        | Some w => (Return tt, {| committed := w; txn := None; sent := S (sent s) |})
        | None => (Return tt, sending s)
        end
    end.

(** [ROLLBACK] drops the working copy.  The sequence is not transactional:
    a value drawn inside the transaction stays drawn.  The rollback sent
    from a [catch] block is taken to reach the store. *)
Definition ROLLBACK : M unit :=
  fun _ s =>
    match txn s with
    | Some w =>
        (Return tt,
         {| committed := with_seq (committed s) (bookings_id_seq w);
            txn := None; sent := S (sent s) |})
    | None => (Return tt, sending s)
    end.

Definition new_Date : M Z := fun e s => (Return (Date_now e), s).

(** The time zone in which the process builds and parses its [Date]s. *)
Definition local_time_zone : M (Z -> Z) := fun e s => (Return (UTC e), s).

(** Running a call from a committed database: the call's completion and
    the committed database it leaves. *)
Definition run {A} (m : M A) (e : env) (db : database) : completion A * database :=
  let (r, s) := m e {| committed := db; txn := None; sent := 0 |} in
  (r, committed s).

(** ** bookingService.js *)

(** A row of the join read by [getBookingById]. *)
Record booking_details : Type := {
  booking : booking_row;
  j_slot_date : Z;
  j_slot_time : Z;
  j_duration_minutes : Z;
  doctor_name : string;
  specialization : string
}.

(** [SELECT b.*, s.slot_date, s.slot_time, s.duration_minutes,
     d.name as doctor_name, d.specialization
     FROM bookings b JOIN appointment_slots s ON b.slot_id = s.id
     JOIN doctors d ON s.doctor_id = d.id WHERE b.id = $1] *)
Definition booking_join (db : database) (bookingId : Z) : list booking_details :=
  flat_map (fun b =>
    flat_map (fun s =>
      map (fun d =>
             {| booking := b; j_slot_date := slot_date s;
                j_slot_time := slot_time s;
                j_duration_minutes := duration_minutes s;
                doctor_name := d_name d;
                specialization := d_specialization d |})
          (filter (fun d => doctor_id s =? d_id d) (doctors db)))
      (filter (fun s => slot_id b =? s_id s) (appointment_slots db)))
    (filter (fun b => b_id b =? bookingId) (bookings db)).

(** [result.rows[0]]: the first row, [undefined] (here [None]) without one. *)
Definition getBookingById (bookingId : Z) : M (option booking_details) :=
  pool_query (fun db => hd_error (booking_join db bookingId)).

Definition msPerDay : Z := 86400000.

(** A zone at a fixed offset from UTC: local time is UTC plus [offset] ms,
    [offset] positive east of Greenwich. *)
Definition fixed_zone (offset : Z) : Z -> Z := fun t => t - offset.

Definition utc : Z -> Z := fixed_zone 0.

(** Line 35 of [createBooking],
    [new Date(`${slot.slot_date.toISOString().split('T')[0]}T${slot.slot_time}`)],
    in a process of time zone [zone]:
    - the driver hands a [DATE] over as the [Date] of local midnight of
      that day, [zone (slot_date * msPerDay)];
    - [toISOString()] writes that instant in UTC, and [split('T')[0]]
      keeps its day, the quotient by [msPerDay];
    - the text "<day>T<slot_time>" carries no offset, so [new Date] reads
      it as a local time. *)
Definition slotDateTime (zone : Z -> Z) (slot : slot_row) : Z :=
  let midnight := zone (slot_date slot * msPerDay) in
  let iso_day := midnight / msPerDay in
  zone (iso_day * msPerDay + slot_time slot).

Arguments slotDateTime : simpl never.

(** The three calls of the service.  Each takes a client from the pool and
    releases it in its [finally] block, which touches no data; the body of
    the [try] and the [catch] handler are the two arguments of
    [try_catch]. *)
Definition createBooking (slotId : Z) (patientName patientEmail : string)
    (patientPhone : option string) : M (option booking_details) :=
  try_catch
    (BEGIN ;;;
     slotCheck <- client_query (fun db _ => (Sql.select_slot db slotId, db)) ;;
     match slotCheck with
     | [] => throw (Error "Slot not found")
     | slot :: _ =>
         if negb (is_available slot)
         then throw (Error "Slot is no longer available")
         else
           zone <- local_time_zone ;;
           now <- new_Date ;;
           if slotDateTime zone slot <? now
           then throw (Error "Cannot book past appointments")
           else
             booking <-
               client_query (fun db ts =>
                 Sql.insert_booking db slotId patientName patientEmail
                                    patientPhone ts) ;;
             client_query (fun db ts =>
               (tt, Sql.update_slot false db slotId ts)) ;;;
             client_query (fun db ts =>
               (tt, Sql.confirm_booking db (b_id booking) ts)) ;;;
             COMMIT ;;;
             finalBooking <- getBookingById (b_id booking) ;;
             ret finalBooking
     end)
    (fun error =>
       ROLLBACK ;;;
       if match code error with
          | Some c => String.eqb c "40001"
          | None => false
          end
       then throw (Error "Booking conflict - please try again")
       else throw error).

Record cancel_result : Type := { success : bool; c_message : string }.

Definition cancelBooking (bookingId : Z) : M cancel_result :=
  try_catch
    (BEGIN ;;;
     booking <- client_query (fun db _ => (Sql.select_booking db bookingId, db)) ;;
     match booking with
     | [] => throw (Error "Booking not found")
     | row :: _ =>
         if status_eqb (b_status row) CANCELLED
         then throw (Error "Booking already cancelled")
         else
           client_query (fun db ts =>
             (tt, Sql.cancel_booking db bookingId ts)) ;;;
           client_query (fun db ts =>
             (tt, Sql.update_slot true db (slot_id row) ts)) ;;;
           COMMIT ;;;
           ret {| success := true;
                  c_message := "Booking cancelled successfully" |}
     end)
    (fun error => ROLLBACK ;;; throw error).

Record expiry_result : Type := { expired : nat; e_message : string }.

Definition expired_message (n : nat) : string :=
  ("Expired " ++ NilZero.string_of_uint (Nat.to_uint n)
   ++ " pending bookings")%string.

Arguments expired_message : simpl never.

Definition expirePendingBookings (timeoutMinutes : Z) : M expiry_result :=
  try_catch
    (BEGIN ;;;
     expiredBookings <-
       client_query (fun db ts => Sql.expire_bookings db timeoutMinutes ts) ;;
     (if (0 <? List.length expiredBookings)%nat
      then client_query (fun db ts =>
             (tt, Sql.release_slots db expiredBookings ts))
      else ret tt) ;;;
     COMMIT ;;;
     ret {| expired := List.length expiredBookings;
            e_message := expired_message (List.length expiredBookings) |})
    (fun error => ROLLBACK ;;; throw error).

(** The store serves every query. *)
Definition no_fault : nat -> option js_error := fun _ => None.

(** A process in time zone [zone] whose store serves every query. *)
Definition calm_in (zone : Z -> Z) (ts now : Z) : env :=
  {| fault := no_fault; CURRENT_TIMESTAMP := ts; Date_now := now;
     UTC := zone |}.

(** The same for a process in UTC.  Of the calls below only [createBooking]
    reads the zone. *)
Definition calm (ts now : Z) : env :=
  {| fault := no_fault; CURRENT_TIMESTAMP := ts; Date_now := now;
     UTC := utc |}.

(** ** Concurrent calls of createBooking

    Several [createBooking] calls in flight against one store.  A call
    advances one statement at a time; which call advances next is up to the
    scheduler.  The store is PostgreSQL as the call uses it:
    - [SELECT ... FOR UPDATE] takes the row lock of the slot, or waits for
      it while another transaction holds it;
    - the writes of a transaction are installed at its [COMMIT], which also
      releases its locks, as does [ROLLBACK];
    - under [ISOLATION LEVEL SERIALIZABLE] a transaction that waited for a
      row which the lock holder then updated and committed is refused with
      SQLSTATE 40001 when it is woken; if the holder rolled back, or had
      not changed the row, it goes on with the row as it is;
    - the sequence of [bookings.id] is shared and never rolled back. *)

Definition serialization_failure : js_error :=
  {| message := "could not serialize access due to concurrent update";
     code := Some "40001"%string |}.

(** One call: its arguments, the timestamp of its transaction, the
    reading of the process clock at its past-slot check and the time zone
    of the process that serves it. *)
Record request : Type := {
  r_slotId : Z;
  r_patientName : string;
  r_patientEmail : string;
  r_patientPhone : option string;
  r_timestamp : Z;
  r_now : Z;
  r_zone : Z -> Z
}.

(** Where a call stands: the statement it sends next. *)
Inductive stage : Type :=
| AtBegin
| AtSelect
| AwaitLock (seen : nat)
| AtInsert
| AtUpdateSlot (pending : booking_row)
| AtConfirm (pending : booking_row)
| AtCommit (confirmed : booking_row)
| AtReadBack (confirmed : booking_row)
| AtRollback (error : js_error)
| Settled (outcome : completion (option booking_details)).

(** A call in flight; [slot_seen] is its local [slot], the row its
    [SELECT] returned. *)
Record call_state : Type := {
  request_of : request;
  stage_of : stage;
  slot_seen : option slot_row
}.

Record world : Type := {
  store : database;
  row_lock : Z -> option nat;      (* slot id -> the call holding its row *)
  row_version : Z -> nat;          (* slot id -> committed updates of its row *)
  calls : nat -> option call_state
}.

Definition at_stage (c : call_state) (st : stage) : call_state :=
  {| request_of := request_of c; stage_of := st; slot_seen := slot_seen c |}.

(** Lines 24-38 of [createBooking]: the three checks on the rows returned,
    ending at the insert or in the [catch] block. *)
Definition checked (c : call_state) (rows : list slot_row) : call_state :=
  match rows with
  | [] => at_stage c (AtRollback (Error "Slot not found"))
  | slot :: _ =>
      {| request_of := request_of c;
         stage_of :=
           if negb (is_available slot)
           then AtRollback (Error "Slot is no longer available")
           else if slotDateTime (r_zone (request_of c)) slot
                   <? r_now (request_of c)
           then AtRollback (Error "Cannot book past appointments")
           else AtInsert;
         slot_seen := Some slot |}
  end.

Definition set_call (w : world) (i : nat) (c : call_state) : nat -> option call_state :=
  fun j => if Nat.eqb j i then Some c else calls w j.

Definition set_lock (w : world) (slotId : Z) (holder : option nat) : Z -> option nat :=
  fun k => if k =? slotId then holder else row_lock w k.

(** The writes of a transaction of [createBooking], installed at its
    [COMMIT]: the reservation, as confirmed, and the slot update. *)
Definition install (db : database) (confirmed : booking_row) (slotId ts : Z) : database :=
  Sql.update_slot false
    (with_bookings db (bookings db ++ [confirmed])) slotId ts.

(** One statement of call [i]; [None] when the call is absent, settled, or
    waiting for a lock that is still held. *)
Definition step (w : world) (i : nat) : option world :=
  match calls w i with
  | None => None
  | Some c =>
      let req := request_of c in
      let slotId := r_slotId req in
      let move c' :=
        {| store := store w; row_lock := row_lock w;
           row_version := row_version w; calls := set_call w i c' |} in
      let lock_and_check :=
        {| store := store w; row_lock := set_lock w slotId (Some i);
           row_version := row_version w;
           calls := set_call w i (checked c (Sql.select_slot (store w) slotId)) |} in
      match stage_of c with
      | AtBegin => Some (move (at_stage c AtSelect))
      | AtSelect =>
          match Sql.select_slot (store w) slotId with
          | [] => Some (move (checked c []))
          | _ :: _ =>
              match row_lock w slotId with
              | None => Some lock_and_check
              | Some _ => Some (move (at_stage c (AwaitLock (row_version w slotId))))
              end
          end
      | AwaitLock seen =>
          match row_lock w slotId with
          | Some _ => None
          | None =>
              if Nat.eqb (row_version w slotId) seen
              then Some lock_and_check
              else Some (move (at_stage c (AtRollback serialization_failure)))
          end
      | AtInsert =>
          let id := bookings_id_seq (store w) + 1 in
          Some {| store := with_seq (store w) id; row_lock := row_lock w;
                  row_version := row_version w;
                  calls := set_call w i
                    (at_stage c
                       (AtUpdateSlot
                          (Sql.new_booking id slotId (r_patientName req)
                             (r_patientEmail req) (r_patientPhone req)
                             (r_timestamp req)))) |}
      | AtUpdateSlot b => Some (move (at_stage c (AtConfirm b)))
      | AtConfirm b =>
          Some (move (at_stage c (AtCommit (set_confirmed (r_timestamp req) b))))
      | AtCommit b =>
          Some {| store := install (store w) b slotId (r_timestamp req);
                  row_lock := set_lock w slotId None;
                  row_version :=
                    (fun k => if k =? slotId then S (row_version w k)
                              else row_version w k);
                  calls := set_call w i (at_stage c (AtReadBack b)) |}
      | AtReadBack b =>
          Some (move (at_stage c
                  (Settled (Return (hd_error (booking_join (store w) (b_id b)))))))
      | AtRollback error =>
          Some {| store := store w;
                  row_lock :=
                    match row_lock w slotId with
                    | Some h => if Nat.eqb h i then set_lock w slotId None
                                else row_lock w
                    | None => row_lock w
                    end;
                  row_version := row_version w;
                  calls := set_call w i
                    (at_stage c
                       (Settled
                          (Throw
                             (if match code error with
                                 | Some sqlstate => String.eqb sqlstate "40001"
                                 | None => false
                                 end
                              then Error "Booking conflict - please try again"
                              else error)))) |}
      | Settled _ => None
      end
  end.

(** A schedule names the call to advance at each turn; a turn given to a
    call that cannot advance is lost. *)
Fixpoint run_schedule (schedule : list nat) (w : world) : world :=
  match schedule with
  | [] => w
  | i :: rest =>
      run_schedule rest (match step w i with Some w' => w' | None => w end)
  end.

(** The calls of [requests], none started yet, against database [db]. *)
Definition start (db : database) (requests : list request) : world :=
  {| store := db;
     row_lock := fun _ => None;
     row_version := fun _ => 0%nat;
     calls := fun i =>
       option_map (fun r => {| request_of := r; stage_of := AtBegin;
                               slot_seen := None |})
                  (nth_error requests i) |}.

(** * Vocabulary of the theorems *)

(** ** Sample data used by the closed examples *)

Module Sample.

Definition dr_johnson : doctor_row :=
  {| d_id := 1; d_name := "Dr. Sarah Johnson";
     d_specialization := "Cardiologist" |}.

(** Slot 1: day 20000 at 10:00, which a process in UTC reads as instant
    1728036000000. *)
Definition slot1 : slot_row :=
  {| s_id := 1; doctor_id := 1; slot_date := 20000; slot_time := 36000000;
     duration_minutes := 30; is_available := true; s_updated_at := 0 |}.

Definition fresh : database :=
  {| doctors := [dr_johnson]; appointment_slots := [slot1];
     bookings := []; bookings_id_seq := 0 |}.


(** Slot 1 held by reservation 1, which was inserted at instant 0 and left
    PENDING. *)
Definition stale : database :=
  {| doctors := [dr_johnson];
     appointment_slots := [set_available false 0 slot1];
     bookings := [Sql.new_booking 1 1 "Alice" "alice@example.org" None 0];
     bookings_id_seq := 1 |}.

Definition minute : Z := 60000.

(** The store raises [err] on query number [n] of the call and serves the
    others. *)
Definition fail_at (n : nat) (err : js_error) : nat -> option js_error :=
  fun k => if Nat.eqb k n then Some err else None.

Definition connection_lost : js_error :=
  {| message := "Connection terminated unexpectedly"; code := None |}.

End Sample.

(** ** What the calls leave behind *)

(** The working copy after the three writes of [createBooking], in the
    order the call issues them: the insert, the slot update, the
    confirmation. *)
Definition created (db : database) (slotId : Z) (name email : string)
    (phone : option string) (ts : Z) : database :=
  Sql.confirm_booking
    (Sql.update_slot false
       (snd (Sql.insert_booking db slotId name email phone ts)) slotId ts)
    (bookings_id_seq db + 1) ts.

(** Two databases hold the same rows (the sequence may differ). *)
Definition same_rows (a b : database) : Prop :=
  doctors a = doctors b
  /\ appointment_slots a = appointment_slots b
  /\ bookings a = bookings b.

(** The sequence is ahead of every id in the table, as it is when ids are
    only ever drawn from it. *)
Definition ids_below_seq (db : database) : Prop :=
  forall b, In b (bookings db) -> b_id b <= bookings_id_seq db.

Definition cancelled_ok : cancel_result :=
  {| success := true; c_message := "Booking cancelled successfully" |}.

(** The working copy after the two writes of [cancelBooking]. *)
Definition cancelled (db : database) (bookingId slotId ts : Z) : database :=
  Sql.update_slot true (Sql.cancel_booking db bookingId ts) slotId ts.

(** The working copy after the statements of one sweep. *)
Definition swept (db : database) (timeoutMinutes ts : Z) : database :=
  let (slotIds, failed) := Sql.expire_bookings db timeoutMinutes ts in
  if (0 <? List.length slotIds)%nat
  then Sql.release_slots failed slotIds ts
  else failed.

Definition expiry_report (n : nat) : expiry_result :=
  {| expired := n; e_message := expired_message n |}.

(** ** Sequences of calls *)

Inductive operation : Type :=
| Create (slotId : Z) (patientName patientEmail : string)
         (patientPhone : option string)
| Cancel (bookingId : Z)
| Sweep (timeoutMinutes : Z).

(** The committed database a call leaves, whatever it returns or throws. *)
Definition perform (op : operation) (e : env) (db : database) : database :=
  match op with
  | Create slotId name email phone =>
      snd (run (createBooking slotId name email phone) e db)
  | Cancel bookingId => snd (run (cancelBooking bookingId) e db)
  | Sweep timeoutMinutes => snd (run (expirePendingBookings timeoutMinutes) e db)
  end.

Fixpoint perform_all (ops : list (operation * env)) (db : database) : database :=
  match ops with
  | [] => db
  | (op, e) :: ops' => perform_all ops' (perform op e db)
  end.

(** ** The lifecycle of a reservation *)

(** The four edges of the lifecycle as listed:
    PENDING -> CONFIRMED, PENDING -> FAILED, CONFIRMED -> CANCELLED,
    PENDING -> CANCELLED. *)
Definition listed_edge (a b : status) : bool :=
  match a, b with
  | PENDING, CONFIRMED | PENDING, FAILED
  | CONFIRMED, CANCELLED | PENDING, CANCELLED => true
  | _, _ => false
  end.

(** The edges [cancelBooking], [createBooking] and [expirePendingBookings]
    take: the listed ones and FAILED -> CANCELLED, since [cancelBooking]
    turns away CANCELLED reservations only. *)
Definition edge (a b : status) : bool :=
  listed_edge a b
  || match a, b with FAILED, CANCELLED => true | _, _ => false end.

Definition one_move (a b : status) : Prop := a = b \/ edge a b = true.

Definition path : status -> status -> Prop :=
  clos_refl_trans status (fun a b => edge a b = true).

(** [l'] is [l] rewritten row by row, each row keeping its id and its slot
    and changing its status as [P] allows, followed by new rows. *)
Definition moves (P : status -> status -> Prop) (l l' : list booking_row) : Prop :=
  exists f added,
    l' = map f l ++ added
    /\ forall b, In b l ->
         b_id (f b) = b_id b /\ slot_id (f b) = slot_id b
         /\ P (b_status b) (b_status (f b)).

(** ** Slots and the reservations that hold them *)

(** The statuses that hold a slot. *)
Definition active (s : status) : bool :=
  match s with
  | PENDING | CONFIRMED => true
  | FAILED | CANCELLED => false
  end.

Definition holds (slotId : Z) (b : booking_row) : bool :=
  (slot_id b =? slotId) && active (b_status b).

(** The reservations in PENDING or CONFIRMED that refer to a slot. *)
Definition active_on (db : database) (slotId : Z) : list booking_row :=
  filter (holds slotId) (bookings db).

(** A slot is unavailable exactly when one active reservation refers to it. *)
Definition slot_invariant (db : database) : Prop :=
  forall s, In s (appointment_slots db) ->
            (is_available s = false
             <-> List.length (active_on db (s_id s)) = 1%nat).

Definition no_double_booking (db : database) : Prop :=
  forall slotId, (List.length (active_on db slotId) <= 1)%nat.

(** Databases as the three calls alone produce them from an empty bookings
    table: ids are distinct and behind the sequence, every reservation is
    CONFIRMED or CANCELLED, every reservation refers to a slot, and a slot
    has one active reservation when unavailable and none when available. *)
Record consistent (db : database) : Prop := {
  c_seq : ids_below_seq db;
  c_ids : NoDup (map b_id (bookings db));
  c_settled : forall b, In b (bookings db) ->
                        b_status b = CONFIRMED \/ b_status b = CANCELLED;
  c_slot : forall b, In b (bookings db) ->
                     exists s, In s (appointment_slots db)
                               /\ s_id s = slot_id b;
  c_count : forall s, In s (appointment_slots db) ->
                      List.length (active_on db (s_id s))
                      = if is_available s then 0%nat else 1%nat
}.

(** ** A race for one slot *)

(** Three callers race for slot 1 of the sample database. *)
Module Rush.

Definition caller (name email : string) (ts : Z) : request :=
  {| r_slotId := 1; r_patientName := name; r_patientEmail := email;
     r_patientPhone := None; r_timestamp := ts; r_now := ts;
     r_zone := utc |}.

Definition alice : request := caller "Alice" "alice@example.org" 1000.



Definition outcome_of (w : world) (i : nat) : option stage :=
  option_map stage_of (calls w i).


End Rush.

(** ** Further vocabulary *)

(** The foreign keys of the schema: every reservation refers to a slot and
    every slot to a doctor. *)
Definition references_hold (db : database) : Prop :=
  (forall b, In b (bookings db) ->
             exists s, In s (appointment_slots db) /\ s_id s = slot_id b)
  /\ (forall s, In s (appointment_slots db) ->
                exists doc, In doc (doctors db) /\ d_id doc = doctor_id s).

(** * The HTTP layer and the expiry job *)

(** ** Requests answered and errors passed on (Express) *)

(** A response: the status set by [res.status] (200 when the handler sets
    none) and the keys of the JSON body; a key the handler leaves out, or
    sets to [undefined], is [None]. *)
Record response (A : Type) : Type := {
  res_status : Z;
  res_success : bool;
  res_data : option A;
  res_count : option nat;
  res_message : option string;
  res_error : option string;
  res_details : option string;
  res_stack : option string
}.
Arguments res_status {A} r.
Arguments res_success {A} r.
Arguments res_data {A} r.
Arguments res_count {A} r.
Arguments res_message {A} r.
Arguments res_error {A} r.
Arguments res_details {A} r.
Arguments res_stack {A} r.

(** [res.status(n).json({ success: true, data, count, message })] *)
Definition accepted {A} (n : Z) (data : option A) (count : option nat)
    (msg : option string) : response A :=
  {| res_status := n; res_success := true; res_data := data;
     res_count := count; res_message := msg; res_error := None;
     res_details := None; res_stack := None |}.

(** [res.status(n).json({ success: false, error })] *)
Definition refused {A} (n : Z) (error : string) : response A :=
  {| res_status := n; res_success := false; res_data := None;
     res_count := None; res_message := None; res_error := Some error;
     res_details := None; res_stack := None |}.

(** What a route handler does with a request: it sends a response or hands
    an error to [next]. *)
Inductive handled (A : Type) : Type :=
| Responded (r : response A)
| Next (error : js_error).
Arguments Responded {A} r.
Arguments Next {A} error.

(** [s.includes(sub)] *)
Fixpoint includes (s sub : string) : bool :=
  String.prefix sub s
  || match s with
     | EmptyString => false
     | String _ s' => includes s' sub
     end.

(** ** The listing queries *)

(** A query-string parameter as the handlers test it ([if (p)]): a missing
    parameter and the empty string add no condition. *)
Definition given (p : option string) : option string :=
  match p with
  | Some s => if String.eqb s "" then None else Some s
  | None => None
  end.

(** [ORDER BY]: insertion into an ordered list, row by row. *)
Fixpoint insert_ordered {A} (le : A -> A -> bool) (x : A) (l : list A) : list A :=
  match l with
  | [] => [x]
  | y :: l' => if le x y then x :: l else y :: insert_ordered le x l'
  end.

Definition order_by {A} (le : A -> A -> bool) (l : list A) : list A :=
  fold_right (insert_ordered le) [] l.

(** Each row is in order with the one after it. *)
Fixpoint in_order {A} (le : A -> A -> bool) (l : list A) : Prop :=
  match l with
  | [] => True
  | x :: l' =>
      match l' with
      | [] => True
      | y :: _ => le x y = true
      end /\ in_order le l'
  end.

(** The join of [getAllBookings] and [getBookingById] over the bookings
    that satisfy [keep]. *)
Definition join_bookings (keep : booking_row -> bool) (db : database)
    : list booking_details :=
  flat_map (fun b =>
    flat_map (fun s =>
      map (fun d =>
             {| booking := b; j_slot_date := slot_date s;
                j_slot_time := slot_time s;
                j_duration_minutes := duration_minutes s;
                doctor_name := d_name d;
                specialization := d_specialization d |})
          (filter (fun d => doctor_id s =? d_id d) (doctors db)))
      (filter (fun s => slot_id b =? s_id s) (appointment_slots db)))
    (filter keep (bookings db)).

(** The text of a status in the [status] column. *)
Definition status_name (st : status) : string :=
  match st with
  | PENDING => "PENDING"
  | CONFIRMED => "CONFIRMED"
  | FAILED => "FAILED"
  | CANCELLED => "CANCELLED"
  end.

(** The conditions [getAllBookings] appends: [b.status = $n] with the
    upper-cased parameter, [b.patient_email = $n]. *)
Definition wanted_booking (toUpperCase : string -> string)
    (q_status q_patient_email : option string) (b : booking_row) : bool :=
  match given q_status with
  | Some st => String.eqb (status_name (b_status b)) (toUpperCase st)
  | None => true
  end
  && match given q_patient_email with
     | Some email => String.eqb (patient_email b) email
     | None => true
     end.

(** [... WHERE 1=1 AND ... ORDER BY b.created_at DESC] *)
Definition select_bookings (toUpperCase : string -> string)
    (q_status q_patient_email : option string) (db : database)
    : list booking_details :=
  order_by (fun x y => b_created_at (booking y) <=? b_created_at (booking x))
    (join_bookings (wanted_booking toUpperCase q_status q_patient_email) db).

(** A row of the join read by [getAvailableSlots]. *)
Record slot_details : Type := {
  slot : slot_row;
  sd_doctor_name : string;
  sd_specialization : string
}.

(** [CURRENT_DATE], in days since the epoch (session time zone UTC). *)
Definition CURRENT_DATE (ts : Z) : Z := ts / 86400000.

Definition wanted_slot (doctor date : option Z) (today : Z) (s : slot_row)
    : bool :=
  is_available s && (today <=? slot_date s)
  && match doctor with Some i => doctor_id s =? i | None => true end
  && match date with Some day => slot_date s =? day | None => true end.

Definition wanted_doctor (LOWER : string -> string)
    (specialization : option string) (s : slot_row) (d : doctor_row) : bool :=
  (doctor_id s =? d_id d)
  && match given specialization with
     | Some sp => String.eqb (LOWER (d_specialization d)) (LOWER sp)
     | None => true
     end.

(** [SELECT s.*, d.name as doctor_name, d.specialization
     FROM appointment_slots s JOIN doctors d ON s.doctor_id = d.id
     WHERE s.is_available = TRUE AND s.slot_date >= CURRENT_DATE ...
     ORDER BY s.slot_date, s.slot_time] *)
Definition select_available_slots (LOWER : string -> string)
    (doctor date : option Z) (specialization : option string) (today : Z)
    (db : database) : list slot_details :=
  order_by
    (fun x y =>
       (slot_date (slot x) <? slot_date (slot y))
       || ((slot_date (slot x) =? slot_date (slot y))
           && (slot_time (slot x) <=? slot_time (slot y))))
    (flat_map (fun s =>
       map (fun d => {| slot := s; sd_doctor_name := d_name d;
                        sd_specialization := d_specialization d |})
           (filter (wanted_doctor LOWER specialization s) (doctors db)))
       (filter (wanted_slot doctor date today) (appointment_slots db))).

(** ** bookingController.js *)

Record booking_stats : Type := {
  n_confirmed : nat;
  n_pending : nat;
  n_failed : nat;
  n_cancelled : nat;
  n_total : nat
}.

(** [COUNT( * ) FILTER (WHERE status = st)] over [bookings]. *)
Definition count_status (st : status) (db : database) : nat :=
  List.length (filter (fun b => status_eqb (b_status b) st) (bookings db)).

(** The one row of the statistics query. *)
Definition select_stats (db : database) : booking_stats :=
  {| n_confirmed := count_status CONFIRMED db;
     n_pending := count_status PENDING db;
     n_failed := count_status FAILED db;
     n_cancelled := count_status CANCELLED db;
     n_total := List.length (bookings db) |}.

Module BookingController.

Definition createBooking (slotId : Z) (patient_name patient_email : string)
    (patient_phone : option string) : M (handled booking_details) :=
  try_catch
    (booking <- createBooking slotId patient_name patient_email patient_phone ;;
     ret (Responded (accepted 201 booking None
                       (Some "Booking created successfully"%string))))
    (fun error =>
       if includes (message error) "not found"
          || includes (message error) "no longer available"
          || includes (message error) "past appointments"
       then ret (Responded (refused 400 (message error)))
       else ret (Next error)).

Definition getBookingById (id : Z) : M (handled booking_details) :=
  try_catch
    (booking <- getBookingById id ;;
     match booking with
     | None => ret (Responded (refused 404 "Booking not found"))
     | Some details => ret (Responded (accepted 200 (Some details) None None))
     end)
    (fun error => ret (Next error)).

Definition cancelBooking (id : Z) : M (handled unit) :=
  try_catch
    (result <- cancelBooking id ;;
     ret (Responded (accepted 200 None None (Some (c_message result)))))
    (fun error =>
       if includes (message error) "not found"
          || includes (message error) "already cancelled"
       then ret (Responded (refused 400 (message error)))
       else ret (Next error)).

Definition getBookingStats : M (handled booking_stats) :=
  try_catch
    (stats <- pool_query select_stats ;;
     ret (Responded (accepted 200 (Some stats) None None)))
    (fun error => ret (Next error)).

(** [q_status] and [q_patient_email] are the query parameters [status]
    and [patient_email]; [toUpperCase]
    is [String.prototype.toUpperCase]. *)
Definition getAllBookings (toUpperCase : string -> string)
    (q_status q_patient_email : option string)
    : M (handled (list booking_details)) :=
  try_catch
    (result <-
       pool_query (select_bookings toUpperCase q_status q_patient_email) ;;
     ret (Responded (accepted 200 (Some result) (Some (List.length result))
                       None)))
    (fun error => ret (Next error)).

End BookingController.

(** ** middleware/errorHandler.js *)

(** The error object as the handler reads it: besides [message] and [code],
    its [name], [statusCode], [details] and [stack] ([None] when the
    property is missing). *)
Record thrown : Type := {
  thrown_error : js_error;
  x_name : string;
  x_statusCode : option Z;
  x_details : option string;
  x_stack : option string
}.

(** [a || b] on a string or [undefined]: the empty string is falsy. *)
Definition or_else (a : option string) (b : string) : string :=
  match a with
  | Some s => if String.eqb s "" then b else s
  | None => b
  end.

Definition has_code (err : thrown) (c : string) : bool :=
  match code (thrown_error err) with
  | Some c' => String.eqb c' c
  | None => false
  end.

(** [NODE_ENV] is [process.env.NODE_ENV]. *)
Definition errorHandler {A} (NODE_ENV : option string) (err : thrown)
    : response A :=
  if String.eqb (x_name err) "ValidationError" then
    {| res_status := 400; res_success := false; res_data := None;
       res_count := None; res_message := None;
       res_error := Some "Validation Error"%string;
       res_details :=
         Some (or_else (x_details err) (message (thrown_error err)));
       res_stack := None |}
  else if has_code err "23505" then
    {| res_status := 409; res_success := false; res_data := None;
       res_count := None;
       res_message := Some "This record already exists"%string;
       res_error := Some "Duplicate Entry"%string;
       res_details := None; res_stack := None |}
  else if has_code err "23503" then
    {| res_status := 400; res_success := false; res_data := None;
       res_count := None;
       res_message := Some "Referenced record does not exist"%string;
       res_error := Some "Invalid Reference"%string;
       res_details := None; res_stack := None |}
  else
    let statusCode :=
      match x_statusCode err with
      | Some n => if n =? 0 then 500 else n
      | None => 500
      end in
    let message :=
      or_else (Some (message (thrown_error err))) "Internal Server Error" in
    {| res_status := statusCode; res_success := false; res_data := None;
       res_count := None; res_message := None; res_error := Some message;
       res_details := None;
       res_stack :=
         match NODE_ENV with
         | Some v => if String.eqb v "development" then x_stack err else None
         | None => None
         end |}.

(** The answer a request gets: the handler's own response, or the one the
    error handler writes for the error handed to [next]; [describe] gives
    the remaining properties of the error object. *)
Definition answer {A} (NODE_ENV : option string) (describe : js_error -> thrown)
    (h : handled A) : response A :=
  match h with
  | Responded r => r
  | Next error => errorHandler NODE_ENV (describe error)
  end.

(** An error of the service or of the driver: an [Error] that is not a
    validation error and carries no [statusCode]. *)
Definition plain_error (describe : js_error -> thrown) : Prop :=
  forall error,
    thrown_error (describe error) = error
    /\ x_name (describe error) <> "ValidationError"%string
    /\ x_statusCode (describe error) = None.

(** ** jobs/bookingExpiry.js *)

Module BookingExpiry.

(** [parseInt(process.env.BOOKING_TIMEOUT_MINUTES) || 2]; [parsed] is the
    result of [parseInt], [None] for [NaN]. *)
Definition timeoutMinutes (parsed : option Z) : Z :=
  match parsed with
  | Some n => if n =? 0 then 2 else n
  | None => 2
  end.

Inductive console_line : Type :=
| console_log (at_time : Z) (text : string)
| console_error (label : string) (error : js_error).

(** The callback the job runs every minute; it returns what it wrote to
    the console. *)
Definition tick (timeoutMinutes : Z) : M (list console_line) :=
  try_catch
    (result <- expirePendingBookings timeoutMinutes ;;
     if (0 <? expired result)%nat
     then now <- new_Date ;; ret [console_log now (e_message result)]
     else ret [])
    (fun error => ret [console_error "Error in booking expiry job:" error]).

End BookingExpiry.

(** An [Error] object with nothing but its message and code. *)
Definition bare_Error (error : js_error) : thrown :=
  {| thrown_error := error; x_name := "Error"; x_statusCode := None;
     x_details := None; x_stack := None |}.

(** ** slotController.js and doctorController.js: deleting rows

    Both foreign keys of the schema are declared [ON DELETE CASCADE]:
    deleting a slot deletes the bookings that refer to it, deleting a
    doctor deletes the doctor's slots and, through them, their bookings. *)

(** A statement sent through the pool outside any transaction: it is
    committed on its own. *)
Definition pool_execute {A} (stmt : database -> A * database) : M A :=
  fun e s =>
    match fault e (sent s) with
    | Some err => (Throw err, sending s)
    | None =>
        let (a, d') := stmt (committed s) in
        (Return a, {| committed := d'; txn := txn s; sent := S (sent s) |})
    end.

(** [SELECT COUNT( * ) FROM bookings
     WHERE slot_id = $1 AND status IN ('PENDING', 'CONFIRMED')] *)
Definition count_active (db : database) (id : Z) : nat :=
  List.length
    (filter (fun b => (slot_id b =? id)
                      && (status_eqb (b_status b) PENDING
                          || status_eqb (b_status b) CONFIRMED))
            (bookings db)).

(** [DELETE FROM appointment_slots WHERE id = $1 RETURNING *] *)
Definition delete_slot (id : Z) (db : database) : list slot_row * database :=
  let deleted := filter (fun s => s_id s =? id) (appointment_slots db) in
  (deleted,
   {| doctors := doctors db;
      appointment_slots :=
        filter (fun s => negb (s_id s =? id)) (appointment_slots db);
      bookings :=
        filter (fun b => negb (existsb (fun s => slot_id b =? s_id s) deleted))
               (bookings db);
      bookings_id_seq := bookings_id_seq db |}).

(** [DELETE FROM doctors WHERE id = $1 RETURNING *] *)
Definition delete_doctor (id : Z) (db : database) : list doctor_row * database :=
  let deleted := filter (fun d => d_id d =? id) (doctors db) in
  let orphaned (s : slot_row) :=
    existsb (fun d => doctor_id s =? d_id d) deleted in
  let slots_deleted := filter orphaned (appointment_slots db) in
  (deleted,
   {| doctors := filter (fun d => negb (d_id d =? id)) (doctors db);
      appointment_slots :=
        filter (fun s => negb (orphaned s)) (appointment_slots db);
      bookings :=
        filter (fun b =>
                  negb (existsb (fun s => slot_id b =? s_id s) slots_deleted))
               (bookings db);
      bookings_id_seq := bookings_id_seq db |}).

Module SlotController.

Definition deleteSlot (id : Z) : M (handled unit) :=
  try_catch
    (bookingCheck <- pool_query (fun db => count_active db id) ;;
     if (0 <? bookingCheck)%nat
     then ret (Responded (refused 400 "Cannot delete slot with active bookings"))
     else
       result <- pool_execute (delete_slot id) ;;
       match result with
       | [] => ret (Responded (refused 404 "Slot not found"))
       | _ :: _ =>
           ret (Responded (accepted 200 None None
                             (Some "Slot deleted successfully"%string)))
       end)
    (fun error => ret (Next error)).

(** [doctor_id] and [date] are the query parameters when present and not
    empty, [specialization] is the parameter as sent; [LOWER] is the
    function of the store. *)
Definition getAvailableSlots (LOWER : string -> string)
    (doctor date : option Z) (specialization : option string)
    : M (handled (list slot_details)) :=
  try_catch
    (result <-
       (fun e =>
          pool_query (select_available_slots LOWER doctor date specialization
                        (CURRENT_DATE (CURRENT_TIMESTAMP e))) e) ;;
     ret (Responded (accepted 200 (Some result) (Some (List.length result))
                       None)))
    (fun error => ret (Next error)).

End SlotController.

Module DoctorController.

Definition deleteDoctor (id : Z) : M (handled unit) :=
  try_catch
    (result <- pool_execute (delete_doctor id) ;;
     match result with
     | [] => ret (Responded (refused 404 "Doctor not found"))
     | _ :: _ =>
         ret (Responded (accepted 200 None None
                           (Some "Doctor deleted successfully"%string)))
     end)
    (fun error => ret (Next error)).

End DoctorController.

(** ** slotController.js: the times of createBulkSlots

    The loop that lists the slot times between [start_time] and
    [end_time].  Times are strings, compared as strings; numbers are
    integers (the loop computes on them exactly below 2^53).  [Number] is
    modelled on strings of decimal digits only: when the loop meets any
    other text the model stops with [Unmodelled]. *)

(** [s.split(':')] *)
Fixpoint split_colon (s : string) : list string :=
  match s with
  | EmptyString => [EmptyString]
  | String c s' =>
      if Ascii.eqb c ":" then EmptyString :: split_colon s'
      else match split_colon s' with
           | part :: parts => String c part :: parts
           | [] => [String c EmptyString]
           end
  end.

(** [Number(s)] for a string of decimal digits (the empty string gives 0);
    [None] on any other string. *)
Definition Number_of (s : string) : option Z :=
  option_map (fun d => Z.of_N (N.of_uint d)) (NilEmpty.uint_of_string s).

(** [String(n)] for an integer. *)
Definition String_of (n : Z) : string := NilZero.string_of_int (Z.to_int n).

(** [s.padStart(2, '0')] *)
Definition padStart2 (s : string) : string :=
  match String.length s with
  | O => "00"
  | S O => String "0" s
  | _ => s
  end.

(** One turn of the loop body: the time [duration_minutes] after
    [currentTime], written as [HH:MM]. *)
Definition next_time (currentTime : string) (duration_minutes : Z)
    : option string :=
  match split_colon currentTime with
  | h :: m :: _ =>
      match Number_of h, Number_of m with
      | Some hours, Some minutes =>
          let totalMinutes := hours * 60 + minutes + duration_minutes in
          let newHours := totalMinutes / 60 in
          let newMinutes := Z.rem totalMinutes 60 in
          Some (padStart2 (String_of newHours) ++ ":"
                ++ padStart2 (String_of newMinutes))%string
      | _, _ => None
      end
  | _ => None
  end.

(** What the loop has done after at most [fuel] iterations: it has ended
    with these times, or its condition still holds, or it met a time
    outside the model. *)
Inductive bulk_times : Type :=
| Finished (times : list string)
| StillRunning
| Unmodelled.

(** [while (currentTime < end_time) { slots.push(...); currentTime = ... }] *)
Fixpoint slot_times (fuel : nat) (currentTime end_time : string)
    (duration_minutes : Z) : bulk_times :=
  if String.ltb currentTime end_time then
    match fuel with
    | O => StillRunning
    | S fuel' =>
        match next_time currentTime duration_minutes with
        | Some t =>
            match slot_times fuel' t end_time duration_minutes with
            | Finished times => Finished (currentTime :: times)
            | other => other
            end
        | None => Unmodelled
        end
    end
  else Finished [].

(** The time of day [t] minutes after midnight as the loop writes it. *)
Definition clock (t : Z) : string :=
  (padStart2 (String_of (t / 60)) ++ ":"
   ++ padStart2 (String_of (Z.rem t 60)))%string.

(** The number of times from [t0] on, [d] minutes apart, before [tE]. *)
Definition slot_count (t0 tE d : Z) : nat := Z.to_nat ((tE - t0 + d - 1) / d).

(** ** A slot that is taken *)

(** The row that [createBooking] reads for the slot is unavailable. *)
Definition taken (db : database) (slotId : Z) : Prop :=
  exists slot rest,
    Sql.select_slot db slotId = slot :: rest /\ is_available slot = false.

(** * Theorems *)

(** ** Basic facts *)

Lemma with_seq_same (db : database) : with_seq db (bookings_id_seq db) = db.
Proof. destruct db; reflexivity. Qed.

Lemma status_eqb_eq (a b : status) : status_eqb a b = true <-> a = b.
Proof. destruct a, b; simpl; split; congruence. Qed.

Lemma status_eqb_neq (a b : status) : status_eqb a b = false <-> a <> b.
Proof. destruct a, b; simpl; split; congruence. Qed.

(** Unfolds one service call down to the statements it runs. *)
Ltac run_call :=
  unfold run, createBooking, cancelBooking, expirePendingBookings,
    getBookingById, try_catch, bind, BEGIN, COMMIT, ROLLBACK, client_query,
    pool_query, new_Date, local_time_zone, throw, ret, sending, calm,
    calm_in, no_fault;
  cbn [fault CURRENT_TIMESTAMP Date_now UTC committed txn sent fst snd].

(** ** createBooking: the order of the checks *)

Lemma same_rows_refl (db : database) : same_rows db db.
Proof. repeat split. Qed.

Lemma same_rows_with_seq (db : database) (n : Z) : same_rows (with_seq db n) db.
Proof. repeat split. Qed.

#[local] Hint Resolve same_rows_refl same_rows_with_seq : core.

(** Without faults, [createBooking] is a ladder of three checks followed by
    the three writes. *)
Lemma createBooking_calm_in (zone : Z -> Z) (db : database) (slotId : Z)
    (name email : string) (phone : option string) (ts now : Z) :
  run (createBooking slotId name email phone) (calm_in zone ts now) db =
  match Sql.select_slot db slotId with
  | [] => (Throw (Error "Slot not found"), db)
  | slot :: _ =>
      if negb (is_available slot)
      then (Throw (Error "Slot is no longer available"), db)
      else if slotDateTime zone slot <? now
      then (Throw (Error "Cannot book past appointments"), db)
      else
        let final := created db slotId name email phone ts in
        (Return (hd_error (booking_join final (bookings_id_seq db + 1))),
         final)
  end.
Proof.
  run_call.
  destruct (Sql.select_slot db slotId) as [|slot rest];
    cbn; rewrite ?with_seq_same; try reflexivity.
  destruct (is_available slot); cbn; rewrite ?with_seq_same; try reflexivity.
  destruct (slotDateTime zone slot <? now); cbn; rewrite ?with_seq_same;
    reflexivity.
Qed.

Lemma createBooking_calm (db : database) (slotId : Z) (name email : string)
    (phone : option string) (ts now : Z) :
  run (createBooking slotId name email phone) (calm ts now) db =
  match Sql.select_slot db slotId with
  | [] => (Throw (Error "Slot not found"), db)
  | slot :: _ =>
      if negb (is_available slot)
      then (Throw (Error "Slot is no longer available"), db)
      else if slotDateTime utc slot <? now
      then (Throw (Error "Cannot book past appointments"), db)
      else
        let final := created db slotId name email phone ts in
        (Return (hd_error (booking_join final (bookings_id_seq db + 1))),
         final)
  end.
Proof. exact (createBooking_calm_in utc db slotId name email phone ts now). Qed.






(** ** createBooking: one transaction *)

(** Case analysis on the answers of the store and on the checks of a call,
    in the order the call meets them. *)
Ltac walk :=
  repeat (try progress cbn -[Z.ltb Z.mul Z.add Z.sub String.eqb];
          lazymatch goal with
          | |- context [match fault ?e ?n with _ => _ end] =>
              destruct (fault e n) eqn:?
          | |- context [match Sql.select_slot ?db ?i with _ => _ end] =>
              destruct (Sql.select_slot db i) eqn:?
          | |- context [match Sql.select_booking ?db ?i with _ => _ end] =>
              destruct (Sql.select_booking db i) eqn:?
          | |- context [if negb (is_available ?s) then _ else _] =>
              destruct (is_available s) eqn:?
          | |- context [if status_eqb ?a ?b then _ else _] =>
              destruct (status_eqb a b) eqn:?
          | |- context [if ?a <? ?b then _ else _] =>
              destruct (a <? b) eqn:?
          | |- context [List.length (map ?f ?l)] =>
              rewrite (length_map f l)
          | |- context [match List.length ?l with _ => _ end] =>
              destruct l
          | |- context [match code ?err with _ => _ end] =>
              destruct (code err) eqn:?
          | |- context [if String.eqb ?a ?b then _ else _] =>
              destruct (String.eqb a b) eqn:?
          end);
  cbn -[Z.ltb Z.mul Z.add Z.sub String.eqb].

(** Under any fault schedule the call leaves either the rows it found or
    the rows of the completed booking: the pending insert and the slot
    update are never committed on their own. *)
Lemma createBooking_all_or_nothing (e : env) (db : database) (slotId : Z)
    (name email : string) (phone : option string) :
  let db' := snd (run (createBooking slotId name email phone) e db) in
  same_rows db' db
  \/ db' = created db slotId name email phone (CURRENT_TIMESTAMP e).
Proof.
  run_call. walk; auto.
Qed.

(** A call that fails at or before its [COMMIT] leaves the rows it found. *)
Lemma createBooking_rollback (e : env) (db : database) (slotId : Z)
    (name email : string) (phone : option string) (err : js_error) :
  fault e 6%nat = None ->
  fst (run (createBooking slotId name email phone) e db) = Throw err ->
  same_rows (snd (run (createBooking slotId name email phone) e db)) db.
Proof.
  intros Hread. run_call. walk; auto; try discriminate.
  all: rewrite Hread; cbn; discriminate.
Qed.

(** The rows of a completed booking, table by table. *)
Lemma created_slots (db : database) (slotId : Z) (name email : string)
    (phone : option string) (ts : Z) :
  appointment_slots (created db slotId name email phone ts)
  = map (fun s => if s_id s =? slotId then set_available false ts s else s)
        (appointment_slots db).
Proof. reflexivity. Qed.

Lemma created_bookings (db : database) (slotId : Z) (name email : string)
    (phone : option string) (ts : Z) :
  bookings (created db slotId name email phone ts)
  = map (fun b => if b_id b =? bookings_id_seq db + 1
                  then set_confirmed ts b else b) (bookings db)
    ++ [set_confirmed ts
          (Sql.new_booking (bookings_id_seq db + 1) slotId name email phone ts)].
Proof.
  unfold created, Sql.confirm_booking, Sql.update_slot, Sql.insert_booking.
  cbn. rewrite map_app. cbn. rewrite Z.eqb_refl. reflexivity.
Qed.

Lemma map_unchanged {A} (f : A -> A) (l : list A) :
  (forall x, In x l -> f x = x) -> map f l = l.
Proof.
  intros H. induction l as [|x l IH]; cbn; [reflexivity |].
  rewrite H by (left; reflexivity).
  rewrite IH; [reflexivity |]. intros y Hy. apply H. right. exact Hy.
Qed.

Lemma created_bookings_fresh (db : database) (slotId : Z) (name email : string)
    (phone : option string) (ts : Z) :
  ids_below_seq db ->
  bookings (created db slotId name email phone ts)
  = bookings db
    ++ [set_confirmed ts
          (Sql.new_booking (bookings_id_seq db + 1) slotId name email phone ts)].
Proof.
  intros Hseq. rewrite created_bookings. f_equal.
  apply map_unchanged. intros b Hb.
  destruct (b_id b =? bookings_id_seq db + 1) eqn:E; [| reflexivity].
  apply Z.eqb_eq in E. specialize (Hseq b Hb). lia.
Qed.



(** ** createBooking: failure and rollback *)

(** A call that returns has committed exactly the completed booking. *)
Lemma createBooking_returns (e : env) (db : database) (slotId : Z)
    (name email : string) (phone : option string)
    (r : option booking_details) :
  fst (run (createBooking slotId name email phone) e db) = Return r ->
  snd (run (createBooking slotId name email phone) e db)
  = created db slotId name email phone (CURRENT_TIMESTAMP e).
Proof.
  run_call. walk; try discriminate; reflexivity.
Qed.


(** C2, the input on which the call breaks the claim: slot 1 is free and
    ahead, the six queries of the transaction are served and committed, and
    the store fails the read of the booking that follows the [COMMIT].  That
    read sits inside the [try] block, so the call fails (the [ROLLBACK] of
    the handler finds no transaction to undo) although slot 1 is now
    unavailable and a CONFIRMED reservation has been added. *)
Theorem createBooking_fails_after_commit :
  let e := {| fault := Sample.fail_at 6 Sample.connection_lost;
              CURRENT_TIMESTAMP := 1000; Date_now := 2000; UTC := utc |} in
  let out := run (createBooking 1 "Alice" "alice@example.org" None)
                 e Sample.fresh in
  fst out = Throw Sample.connection_lost
  /\ map is_available (appointment_slots Sample.fresh) = [true]
  /\ map is_available (appointment_slots (snd out)) = [false]
  /\ bookings Sample.fresh = []
  /\ map b_status (bookings (snd out)) = [CONFIRMED]
  /\ ~ same_rows (snd out) Sample.fresh.
Proof.
  cbv zeta. repeat split; try (vm_compute; reflexivity).
  intros [_ [_ H]]. vm_compute in H. discriminate.
Qed.

(** ** Facts about the statements *)

Section Statements.

Variables (db : database) (ts : Z).

Lemma update_slot_bookings v slotId :
  bookings (Sql.update_slot v db slotId ts) = bookings db.
Proof. reflexivity. Qed.

Lemma update_slot_sets v slotId s :
  In s (appointment_slots (Sql.update_slot v db slotId ts)) ->
  s_id s = slotId -> is_available s = v.
Proof.
  cbn. intros Hs Hid. apply in_map_iff in Hs. destruct Hs as [s0 [Heq _]].
  destruct (s_id s0 =? slotId) eqn:E; subst s; [reflexivity |].
  apply Z.eqb_neq in E. contradiction.
Qed.

Lemma update_slot_hits v slotId s :
  In s (appointment_slots db) -> s_id s = slotId ->
  In (set_available v ts s) (appointment_slots (Sql.update_slot v db slotId ts)).
Proof.
  intros Hs Hid. cbn. apply in_map_iff. exists s.
  apply Z.eqb_eq in Hid. rewrite Hid. auto.
Qed.

Lemma update_slot_misses v slotId s :
  s_id s <> slotId ->
  In s (appointment_slots (Sql.update_slot v db slotId ts))
  <-> In s (appointment_slots db).
Proof.
  intros Hid. cbn. rewrite in_map_iff. split.
  - intros [s0 [Heq Hin]].
    destruct (s_id s0 =? slotId) eqn:E; subst s; [| exact Hin].
    apply Z.eqb_eq in E. cbn in Hid. contradiction.
  - intros Hin. exists s. apply Z.eqb_neq in Hid. rewrite Hid. auto.
Qed.

Lemma select_slot_update_slot v slotId :
  Sql.select_slot (Sql.update_slot v db slotId ts) slotId
  = map (set_available v ts) (Sql.select_slot db slotId).
Proof.
  unfold Sql.select_slot, Sql.update_slot. cbn.
  induction (appointment_slots db) as [|s l IH]; cbn; [reflexivity |].
  destruct (s_id s =? slotId) eqn:E; cbn; rewrite E, IH; reflexivity.
Qed.

Lemma select_slot_with_bookings slotId l :
  Sql.select_slot (with_bookings db l) slotId = Sql.select_slot db slotId.
Proof. reflexivity. Qed.

Lemma cancel_booking_slots bookingId :
  appointment_slots (Sql.cancel_booking db bookingId ts) = appointment_slots db.
Proof. reflexivity. Qed.

Lemma cancel_booking_sets bookingId b :
  In b (bookings (Sql.cancel_booking db bookingId ts)) ->
  b_id b = bookingId -> b_status b = CANCELLED.
Proof.
  cbn. intros Hb Hid. apply in_map_iff in Hb. destruct Hb as [b0 [Heq _]].
  destruct (b_id b0 =? bookingId) eqn:E; subst b; [reflexivity |].
  apply Z.eqb_neq in E. contradiction.
Qed.

Lemma cancel_booking_hits bookingId b :
  In b (bookings db) -> b_id b = bookingId ->
  In (set_cancelled ts b) (bookings (Sql.cancel_booking db bookingId ts)).
Proof.
  intros Hb Hid. cbn. apply in_map_iff. exists b.
  apply Z.eqb_eq in Hid. rewrite Hid. auto.
Qed.

Lemma cancel_booking_misses bookingId b :
  b_id b <> bookingId ->
  In b (bookings (Sql.cancel_booking db bookingId ts))
  <-> In b (bookings db).
Proof.
  intros Hid. cbn. rewrite in_map_iff. split.
  - intros [b0 [Heq Hin]].
    destruct (b_id b0 =? bookingId) eqn:E; subst b; [| exact Hin].
    apply Z.eqb_eq in E. cbn in Hid. contradiction.
  - intros Hin. exists b. apply Z.eqb_neq in Hid. rewrite Hid. auto.
Qed.

Lemma select_booking_In bookingId row rest :
  Sql.select_booking db bookingId = row :: rest ->
  In row (bookings db) /\ b_id row = bookingId.
Proof.
  intros Hsel.
  assert (Hin : In row (Sql.select_booking db bookingId))
    by (rewrite Hsel; left; reflexivity).
  apply filter_In in Hin. destruct Hin as [Hin Hid].
  apply Z.eqb_eq in Hid. auto.
Qed.

Lemma select_slot_In slotId slot rest :
  Sql.select_slot db slotId = slot :: rest ->
  In slot (appointment_slots db) /\ s_id slot = slotId.
Proof.
  intros Hsel.
  assert (Hin : In slot (Sql.select_slot db slotId))
    by (rewrite Hsel; left; reflexivity).
  apply filter_In in Hin. destruct Hin as [Hin Hid].
  apply Z.eqb_eq in Hid. auto.
Qed.

End Statements.

(** ** cancelBooking *)

(** [cancelBooking], [expirePendingBookings] and [getBookingById] do not
    read the time zone of the process. *)
Lemma cancelBooking_any_zone (zone : Z -> Z) (bookingId ts now : Z)
    (db : database) :
  run (cancelBooking bookingId) (calm_in zone ts now) db
  = run (cancelBooking bookingId) (calm ts now) db.
Proof. run_call. walk; reflexivity. Qed.

Lemma expirePendingBookings_any_zone (zone : Z -> Z) (timeoutMinutes ts now : Z)
    (db : database) :
  run (expirePendingBookings timeoutMinutes) (calm_in zone ts now) db
  = run (expirePendingBookings timeoutMinutes) (calm ts now) db.
Proof. run_call. walk; reflexivity. Qed.


Lemma cancelBooking_calm (db : database) (bookingId ts now : Z) :
  run (cancelBooking bookingId) (calm ts now) db =
  match Sql.select_booking db bookingId with
  | [] => (Throw (Error "Booking not found"), db)
  | row :: _ =>
      if status_eqb (b_status row) CANCELLED
      then (Throw (Error "Booking already cancelled"), db)
      else (Return cancelled_ok, cancelled db bookingId (slot_id row) ts)
  end.
Proof.
  run_call. walk; rewrite ?with_seq_same; reflexivity.
Qed.


Lemma cancelBooking_all_or_nothing (e : env) (db : database) (bookingId : Z) :
  let db' := snd (run (cancelBooking bookingId) e db) in
  same_rows db' db
  \/ exists row rest,
       Sql.select_booking db bookingId = row :: rest
       /\ db' = cancelled db bookingId (slot_id row) (CURRENT_TIMESTAMP e).
Proof.
  run_call. walk; auto. right. eauto.
Qed.

(** A failed [cancelBooking] leaves the rows it found: nothing follows its
    [COMMIT]. *)
Lemma cancelBooking_rollback (e : env) (db : database) (bookingId : Z)
    (err : js_error) :
  fst (run (cancelBooking bookingId) e db) = Throw err ->
  same_rows (snd (run (cancelBooking bookingId) e db)) db.
Proof.
  run_call. walk; auto; discriminate.
Qed.




(** C10: [cancelBooking] on a reservation whose status is FAILED succeeds:
    the reservation becomes CANCELLED and every row of the slot it refers
    to is set available, whatever its availability was and whatever other
    reservations refer to that slot; those are left as they are. *)
Theorem cancelBooking_of_failed (db : database) (bookingId ts now : Z)
    (row : booking_row) (rest : list booking_row) :
  Sql.select_booking db bookingId = row :: rest ->
  b_status row = FAILED ->
  let db' := cancelled db bookingId (slot_id row) ts in
  run (cancelBooking bookingId) (calm ts now) db = (Return cancelled_ok, db')
  /\ In (set_cancelled ts row) (bookings db')
  /\ (forall b, In b (bookings db') -> b_id b = bookingId ->
                b_status b = CANCELLED)
  /\ (forall s, In s (appointment_slots db) -> s_id s = slot_id row ->
                In (set_available true ts s) (appointment_slots db'))
  /\ (forall s, In s (appointment_slots db') -> s_id s = slot_id row ->
                is_available s = true)
  /\ (forall b, In b (bookings db) -> b_id b <> bookingId ->
                In b (bookings db')).
Proof.
  intros Hsel Hst db'.
  destruct (select_booking_In _ _ _ _ Hsel) as [Hin Hid].
  rewrite cancelBooking_calm, Hsel, Hst. cbn [status_eqb].
  split; [reflexivity |].
  split; [apply cancel_booking_hits; assumption |].
  split; [intros b Hb; apply (cancel_booking_sets db ts bookingId b Hb) |].
  split; [intros s Hs Hsid; apply update_slot_hits; assumption |].
  split; [intros s Hs; apply (update_slot_sets _ _ _ _ _ Hs) |].
  intros b Hb Hne. apply cancel_booking_misses; assumption.
Qed.

(** C10 on a slot claimed again in between: reservation 1 of slot 1 is
    expired by the sweep, Bob's reservation 2 takes slot 1 and is CONFIRMED,
    and cancelling reservation 1 sets slot 1 available while reservation 2
    stays CONFIRMED. *)
Lemma cancelBooking_of_failed_witness :
  let swept := snd (run (expirePendingBookings 2)
                        (calm (3 * Sample.minute) (3 * Sample.minute))
                        Sample.stale) in
  let rebooked := snd (run (createBooking 1 "Bob" "bob@example.org" None)
                           (calm (4 * Sample.minute) (4 * Sample.minute))
                           swept) in
  let out := run (cancelBooking 1)
                 (calm (5 * Sample.minute) (5 * Sample.minute)) rebooked in
  map b_status (bookings rebooked) = [FAILED; CONFIRMED]
  /\ map is_available (appointment_slots rebooked) = [false]
  /\ fst out = Return cancelled_ok
  /\ map b_status (bookings (snd out)) = [CANCELLED; CONFIRMED]
  /\ map slot_id (bookings (snd out)) = [1; 1]
  /\ map is_available (appointment_slots (snd out)) = [true].
Proof.
  intros swept rebooked out.
  destruct (cancelBooking_of_failed rebooked 1
              (5 * Sample.minute) (5 * Sample.minute)
              (set_failed (3 * Sample.minute) (Sql.timeout_reason 2)
                 (Sql.new_booking 1 1 "Alice" "alice@example.org" None 0))
              [])
    as [Hrun _];
    [vm_compute; reflexivity | reflexivity |].
  subst out. rewrite Hrun.
  repeat split; vm_compute; reflexivity.
Defined.

(** ** expirePendingBookings *)

Lemma expirePendingBookings_calm (db : database) (timeoutMinutes ts now : Z) :
  run (expirePendingBookings timeoutMinutes) (calm ts now) db
  = (Return (expiry_report
               (List.length (filter (Sql.is_expired timeoutMinutes ts)
                                    (bookings db)))),
     swept db timeoutMinutes ts).
Proof.
  run_call. unfold swept, Sql.expire_bookings. walk; reflexivity.
Qed.

Lemma expirePendingBookings_all_or_nothing (e : env) (db : database)
    (timeoutMinutes : Z) :
  let db' := snd (run (expirePendingBookings timeoutMinutes) e db) in
  same_rows db' db \/ db' = swept db timeoutMinutes (CURRENT_TIMESTAMP e).
Proof.
  run_call. unfold swept, Sql.expire_bookings. walk; auto.
Qed.

Lemma swept_bookings (db : database) (timeoutMinutes ts : Z) :
  bookings (swept db timeoutMinutes ts)
  = map (fun b => if Sql.is_expired timeoutMinutes ts b
                  then set_failed ts (Sql.timeout_reason timeoutMinutes) b
                  else b)
        (bookings db).
Proof.
  unfold swept, Sql.expire_bookings.
  destruct (0 <? _)%nat; reflexivity.
Qed.

Lemma swept_slots (db : database) (timeoutMinutes ts : Z) :
  appointment_slots (swept db timeoutMinutes ts)
  = map (fun s =>
           if existsb (Z.eqb (s_id s))
                (map slot_id (filter (Sql.is_expired timeoutMinutes ts)
                                     (bookings db)))
           then set_available true ts s else s)
        (appointment_slots db).
Proof.
  unfold swept, Sql.expire_bookings.
  destruct (filter (Sql.is_expired timeoutMinutes ts) (bookings db)) as [|b l];
    cbn; [| reflexivity].
  symmetry. apply map_unchanged. reflexivity.
Qed.

Lemma is_expired_spec (timeoutMinutes ts : Z) (b : booking_row) :
  Sql.is_expired timeoutMinutes ts b = true
  <-> b_status b = PENDING /\ booking_time b < ts - timeoutMinutes * 60000.
Proof.
  unfold Sql.is_expired. rewrite andb_true_iff, status_eqb_eq, Z.ltb_lt.
  reflexivity.
Qed.

Lemma expired_slot_listed (db : database) (timeoutMinutes ts : Z)
    (b : booking_row) (s : slot_row) :
  In b (bookings db) -> Sql.is_expired timeoutMinutes ts b = true ->
  s_id s = slot_id b ->
  existsb (Z.eqb (s_id s))
    (map slot_id (filter (Sql.is_expired timeoutMinutes ts) (bookings db)))
  = true.
Proof.
  intros Hb Hexp Hid. apply existsb_exists. exists (slot_id b). split.
  - apply in_map. apply filter_In. auto.
  - apply Z.eqb_eq. exact Hid.
Qed.

(** C5: one sweep, without faults.  Every reservation that is PENDING with
    a booking time older than [now - timeout] becomes FAILED, with the
    timeout text as failure reason and failed-at stamped, and every row of
    its slot is set available; every PENDING reservation that is not older
    stays as it is (the table is rewritten row by row, only the expired
    rows change); the count returned is the number of reservations expired;
    and the sweep is one transaction: under every fault schedule either all
    of this is committed or nothing is. *)
Theorem expirePendingBookings_reclaims (db : database)
    (timeoutMinutes ts now : Z) :
  let db' := swept db timeoutMinutes ts in
  let batch := filter (Sql.is_expired timeoutMinutes ts) (bookings db) in
  run (expirePendingBookings timeoutMinutes) (calm ts now) db
  = (Return (expiry_report (List.length batch)), db')
  /\ (forall b, In b (bookings db) ->
        b_status b = PENDING ->
        booking_time b < ts - timeoutMinutes * 60000 ->
        let b' := set_failed ts (Sql.timeout_reason timeoutMinutes) b in
        In b' (bookings db') /\ ~ In b (bookings db')
        /\ b_status b' = FAILED
        /\ failure_reason b' = Some (Sql.timeout_reason timeoutMinutes)
        /\ failed_at b' = Some ts
        /\ (forall s, In s (appointment_slots db) -> s_id s = slot_id b ->
                      In (set_available true ts s) (appointment_slots db'))
        /\ (forall s, In s (appointment_slots db') -> s_id s = slot_id b ->
                      is_available s = true))
  /\ (forall b, In b (bookings db) ->
        b_status b = PENDING ->
        ts - timeoutMinutes * 60000 <= booking_time b ->
        In b (bookings db'))
  /\ bookings db'
     = map (fun b => if Sql.is_expired timeoutMinutes ts b
                     then set_failed ts (Sql.timeout_reason timeoutMinutes) b
                     else b)
           (bookings db)
  /\ (forall e, CURRENT_TIMESTAMP e = ts ->
        same_rows (snd (run (expirePendingBookings timeoutMinutes) e db)) db
        \/ snd (run (expirePendingBookings timeoutMinutes) e db) = db').
Proof.
  intros db' batch.
  split; [apply expirePendingBookings_calm |].
  split; [| split; [| split; [apply swept_bookings |]]].
  - intros b Hb Hst Hold b'.
    assert (Hexp : Sql.is_expired timeoutMinutes ts b = true)
      by (apply is_expired_spec; auto).
    split; [| split; [| split; [reflexivity | split; [reflexivity |
                                 split; [reflexivity | split]]]]].
    + subst db'. rewrite swept_bookings. apply in_map_iff. exists b.
      rewrite Hexp. auto.
    + subst db'. rewrite swept_bookings. intros Hin.
      apply in_map_iff in Hin. destruct Hin as [b0 [Heq Hb0]].
      destruct (Sql.is_expired timeoutMinutes ts b0) eqn:E.
      * rewrite <- Heq in Hst. discriminate.
      * subst b0. congruence.
    + intros s Hs Hid. subst db'. rewrite swept_slots. apply in_map_iff.
      exists s. rewrite (expired_slot_listed db timeoutMinutes ts b s) by auto.
      auto.
    + intros s Hs Hid. subst db'. rewrite swept_slots in Hs.
      apply in_map_iff in Hs. destruct Hs as [s0 [Heq Hs0]].
      assert (Hid0 : s_id s0 = slot_id b).
      { destruct (existsb _ _) in Heq; subst s; exact Hid. }
      rewrite (expired_slot_listed db timeoutMinutes ts b s0) in Heq by auto.
      subst s. reflexivity.
  - intros b Hb Hst Hyoung. subst db'. rewrite swept_bookings.
    apply in_map_iff. exists b.
    assert (Hexp : Sql.is_expired timeoutMinutes ts b = false).
    { destruct (Sql.is_expired timeoutMinutes ts b) eqn:E; [| reflexivity].
      apply is_expired_spec in E. lia. }
    rewrite Hexp. auto.
  - intros e <-. apply expirePendingBookings_all_or_nothing.
Qed.

(** C5 on the scenario of the specification: a reservation inserted at
    instant 0 and left PENDING, swept with a timeout of 2 minutes at minute
    3, is FAILED and slot 1 is available; swept at minute 1 it is kept. *)
Lemma expirePendingBookings_reclaims_witness :
  let at3 := 3 * Sample.minute in
  let alice := Sql.new_booking 1 1 "Alice" "alice@example.org" None 0 in
  run (expirePendingBookings 2) (calm at3 at3) Sample.stale
  = (Return (expiry_report 1), swept Sample.stale 2 at3)
  /\ In (set_failed at3 (Sql.timeout_reason 2) alice)
        (bookings (swept Sample.stale 2 at3))
  /\ Sql.timeout_reason 2
     = "Booking timeout - not confirmed within 2 minutes"%string
  /\ map is_available (appointment_slots (swept Sample.stale 2 at3)) = [true]
  /\ In alice (bookings (swept Sample.stale 2 Sample.minute)).
Proof.
  intros at3 alice.
  destruct (expirePendingBookings_reclaims Sample.stale 2 at3 at3)
    as [Hrun [Hold _]].
  destruct (expirePendingBookings_reclaims Sample.stale 2
              Sample.minute Sample.minute)
    as [_ [_ [Hyoung _]]].
  split; [exact Hrun |].
  split.
  - refine (proj1 (Hold alice _ _ _));
      [left; reflexivity | reflexivity | vm_compute; reflexivity].
  - split; [vm_compute; reflexivity |].
    split; [vm_compute; reflexivity |].
    refine (Hyoung alice _ _ _);
      [left; reflexivity | reflexivity | vm_compute; discriminate].
Defined.

Lemma with_bookings_same (db : database) : with_bookings db (bookings db) = db.
Proof. destruct db; reflexivity. Qed.

(** A sweep that finds nothing to expire writes nothing. *)
Lemma swept_nothing (db : database) (timeoutMinutes ts : Z) :
  (forall b, In b (bookings db) -> Sql.is_expired timeoutMinutes ts b = false) ->
  filter (Sql.is_expired timeoutMinutes ts) (bookings db) = []
  /\ swept db timeoutMinutes ts = db.
Proof.
  intros Hnone.
  assert (Hfilter : filter (Sql.is_expired timeoutMinutes ts) (bookings db) = []).
  { induction (bookings db) as [|b l IH]; cbn; [reflexivity |].
    rewrite (Hnone b) by (left; reflexivity).
    apply IH. intros b' Hb'. apply Hnone. right. exact Hb'. }
  split; [exact Hfilter |].
  unfold swept, Sql.expire_bookings. rewrite Hfilter. cbn.
  rewrite map_unchanged; [apply with_bookings_same |].
  intros b Hb. rewrite (Hnone b Hb). reflexivity.
Qed.

(** After a sweep at [ts1], no reservation is expired at [ts2], as long as
    none has aged past the timeout in between. *)
Lemma nothing_expired_after_sweep (db : database) (timeoutMinutes ts1 ts2 : Z) :
  (forall b, In b (bookings db) -> b_status b = PENDING ->
             booking_time b < ts2 - timeoutMinutes * 60000 ->
             booking_time b < ts1 - timeoutMinutes * 60000) ->
  forall b, In b (bookings (swept db timeoutMinutes ts1)) ->
            Sql.is_expired timeoutMinutes ts2 b = false.
Proof.
  intros Hnew b Hb. rewrite swept_bookings in Hb.
  apply in_map_iff in Hb. destruct Hb as [b0 [Heq Hb0]].
  destruct (Sql.is_expired timeoutMinutes ts1 b0) eqn:E1.
  - subst b. reflexivity.
  - subst b0.
    destruct (Sql.is_expired timeoutMinutes ts2 b) eqn:E2; [| reflexivity].
    apply is_expired_spec in E2. destruct E2 as [Hst Hold].
    assert (E : Sql.is_expired timeoutMinutes ts1 b = true)
      by (apply is_expired_spec; auto).
    congruence.
Qed.

(** C9: the sweep is idempotent.  Run a sweep at [ts1] and another one, with
    the same timeout, at [ts2]; if no PENDING reservation that was young
    enough for the first run has become stale for the second, the second
    run leaves the database exactly as the first one left it and reports
    zero expired reservations. *)
Theorem expirePendingBookings_idempotent (db : database)
    (timeoutMinutes ts1 now1 ts2 now2 : Z) :
  (forall b, In b (bookings db) -> b_status b = PENDING ->
             booking_time b < ts2 - timeoutMinutes * 60000 ->
             booking_time b < ts1 - timeoutMinutes * 60000) ->
  let once := snd (run (expirePendingBookings timeoutMinutes)
                       (calm ts1 now1) db) in
  run (expirePendingBookings timeoutMinutes) (calm ts2 now2) once
  = (Return (expiry_report 0), once)
  /\ e_message (expiry_report 0) = "Expired 0 pending bookings"%string.
Proof.
  intros Hnew once.
  assert (Honce : once = swept db timeoutMinutes ts1)
    by (subst once; rewrite expirePendingBookings_calm; reflexivity).
  pose proof (nothing_expired_after_sweep db timeoutMinutes ts1 ts2 Hnew)
    as Hnone.
  rewrite <- Honce in Hnone.
  destruct (swept_nothing once timeoutMinutes ts2 Hnone) as [Hfilter Hsame].
  split; [| reflexivity].
  rewrite expirePendingBookings_calm, Hfilter, Hsame. reflexivity.
Qed.

(** C9 on the stale sample: swept at minute 3 and again at minute 4. *)
Lemma expirePendingBookings_idempotent_witness :
  let at3 := 3 * Sample.minute in
  let at4 := 4 * Sample.minute in
  let once := snd (run (expirePendingBookings 2) (calm at3 at3) Sample.stale) in
  fst (run (expirePendingBookings 2) (calm at3 at3) Sample.stale)
  = Return (expiry_report 1)
  /\ run (expirePendingBookings 2) (calm at4 at4) once
     = (Return (expiry_report 0), once).
Proof.
  intros at3 at4 once. split; [vm_compute; reflexivity |].
  apply (expirePendingBookings_idempotent Sample.stale 2 at3 at3 at4 at4).
  intros b [<- | []] _ _. vm_compute. reflexivity.
Defined.

(** Two sweeps at the same instant: the second changes nothing. *)
Corollary expirePendingBookings_twice (db : database)
    (timeoutMinutes ts now : Z) :
  let once := snd (run (expirePendingBookings timeoutMinutes)
                       (calm ts now) db) in
  run (expirePendingBookings timeoutMinutes) (calm ts now) once
  = (Return (expiry_report 0), once).
Proof.
  intros once. subst once. rewrite !expirePendingBookings_calm. cbn [snd].
  assert (Hnone : forall b, In b (bookings (swept db timeoutMinutes ts)) ->
                            Sql.is_expired timeoutMinutes ts b = false)
    by (apply nothing_expired_after_sweep; auto).
  destruct (swept_nothing _ timeoutMinutes ts Hnone) as [-> ->]. reflexivity.
Qed.

(** ** Sequences of calls *)

(** The sequence never goes back, whatever a call does. *)
Lemma perform_seq_monotone (op : operation) (e : env) (db : database) :
  bookings_id_seq db <= bookings_id_seq (perform op e db).
Proof.
  destruct op; unfold perform; run_call;
    unfold Sql.expire_bookings; walk; lia.
Qed.

(** What a call can have committed: nothing, or all of its writes. *)
Lemma perform_cases (op : operation) (e : env) (db : database) :
  same_rows (perform op e db) db
  \/ match op with
     | Create slotId name email phone =>
         exists slot rest,
           Sql.select_slot db slotId = slot :: rest
           /\ is_available slot = true
           /\ perform op e db
              = created db slotId name email phone (CURRENT_TIMESTAMP e)
     | Cancel bookingId =>
         exists row rest,
           Sql.select_booking db bookingId = row :: rest
           /\ b_status row <> CANCELLED
           /\ perform op e db
              = cancelled db bookingId (slot_id row) (CURRENT_TIMESTAMP e)
     | Sweep timeoutMinutes =>
         perform op e db = swept db timeoutMinutes (CURRENT_TIMESTAMP e)
     end.
Proof.
  destruct op; unfold perform.
  - run_call. walk; auto; right; do 2 eexists; auto.
  - run_call. walk; auto. right. do 2 eexists.
    split; [reflexivity |]. split; [| reflexivity].
    apply status_eqb_neq. assumption.
  - apply expirePendingBookings_all_or_nothing.
Qed.

Lemma ids_below_seq_perform (op : operation) (e : env) (db : database) :
  ids_below_seq db -> ids_below_seq (perform op e db).
Proof.
  intros Hseq.
  pose proof (perform_seq_monotone op e db) as Hmono.
  destruct (perform_cases op e db) as [[_ [_ Hsame]] | Hdone].
  - intros b Hb. rewrite Hsame in Hb. specialize (Hseq b Hb). lia.
  - destruct op.
    + destruct Hdone as [slot [rest [_ [_ Hdone]]]].
      rewrite Hdone. intros b Hb. rewrite created_bookings_fresh in Hb by assumption.
      apply in_app_or in Hb. destruct Hb as [Hb | [<- | []]].
      * specialize (Hseq b Hb). cbn. lia.
      * cbn. lia.
    + destruct Hdone as [row [rest [_ [_ ->]]]]. intros b Hb. cbn in Hb.
      apply in_map_iff in Hb. destruct Hb as [b0 [Heq Hb0]].
      specialize (Hseq b0 Hb0). cbn.
      destruct (b_id b0 =? bookingId); subst b; cbn; lia.
    + rewrite Hdone. intros b Hb. rewrite swept_bookings in Hb.
      apply in_map_iff in Hb. destruct Hb as [b0 [Heq Hb0]].
      specialize (Hseq b0 Hb0).
      replace (bookings_id_seq (swept db timeoutMinutes (CURRENT_TIMESTAMP e)))
        with (bookings_id_seq db)
        by (unfold swept, Sql.expire_bookings; destruct (0 <? _)%nat; reflexivity).
      destruct (Sql.is_expired _ _ b0); subst b; cbn; lia.
Qed.

Lemma ids_below_seq_perform_all (ops : list (operation * env)) (db : database) :
  ids_below_seq db -> ids_below_seq (perform_all ops db).
Proof.
  revert db. induction ops as [|[op e] ops IH]; intros db Hseq; cbn.
  - exact Hseq.
  - apply IH. apply ids_below_seq_perform. exact Hseq.
Qed.

(** ** The status transitions the calls perform *)

Lemma moves_refl (P : status -> status -> Prop) (l : list booking_row) :
  (forall a, P a a) -> moves P l l.
Proof.
  intros HP. exists (fun b => b), []. rewrite map_id, app_nil_r. auto.
Qed.

Lemma moves_trans (P : status -> status -> Prop) (l1 l2 l3 : list booking_row) :
  (forall a b c, P a b -> P b c -> P a c) ->
  moves P l1 l2 -> moves P l2 l3 -> moves P l1 l3.
Proof.
  intros HP [f [add1 [-> Hf]]] [g [add2 [-> Hg]]].
  exists (fun b => g (f b)), (map g add1 ++ add2).
  split; [rewrite map_app, map_map, app_assoc; reflexivity |].
  intros b Hb. destruct (Hf b Hb) as [Hid [Hslot Hst]].
  assert (Hin : In (f b) (map f l1 ++ add1))
    by (apply in_or_app; left; apply in_map; exact Hb).
  destruct (Hg (f b) Hin) as [Hid' [Hslot' Hst']].
  repeat split; [congruence | congruence | eauto].
Qed.

Lemma moves_weaken (P Q : status -> status -> Prop) (l l' : list booking_row) :
  (forall a b, P a b -> Q a b) -> moves P l l' -> moves Q l l'.
Proof.
  intros HPQ [f [added [-> Hf]]]. exists f, added. split; [reflexivity |].
  intros b Hb. destruct (Hf b Hb) as [? [? ?]]. auto.
Qed.

Lemma one_move_path (a b : status) : one_move a b -> path a b.
Proof. intros [-> | H]; [apply rt_refl | apply rt_step; exact H]. Qed.

(** Nothing leads back to PENDING. *)
Lemma path_into_PENDING (a b : status) : path a b -> b = PENDING -> a = PENDING.
Proof.
  intros H. induction H as [a b H | a | a b c _ IH1 _ IH2].
  - destruct a, b; cbn in H; congruence.
  - auto.
  - auto.
Qed.

(** One call moves every reservation by at most one edge. *)
Lemma perform_moves (op : operation) (e : env) (db : database) :
  ids_below_seq db ->
  moves one_move (bookings db) (bookings (perform op e db)).
Proof.
  intros Hseq.
  destruct (perform_cases op e db) as [[_ [_ Hsame]] | Hdone].
  - rewrite Hsame. apply moves_refl. left. reflexivity.
  - destruct op.
    + destruct Hdone as [slot [rest [_ [_ Hdone]]]].
      rewrite Hdone, created_bookings_fresh by assumption.
      eexists (fun b => b), _. rewrite map_id. split; [reflexivity |].
      intros b _. repeat split. left. reflexivity.
    + destruct Hdone as [row [rest [Hsel [Hst ->]]]].
      exists (fun b => if b_id b =? bookingId
                       then set_cancelled (CURRENT_TIMESTAMP e) b else b), [].
      rewrite app_nil_r. split; [reflexivity |].
      intros b Hb. destruct (b_id b =? bookingId) eqn:E.
      * repeat split. cbn [b_status set_cancelled].
        destruct (b_status b); [right | right | right | left]; reflexivity.
      * repeat split. left. reflexivity.
    + rewrite Hdone, swept_bookings. eexists _, [].
      rewrite app_nil_r. split; [reflexivity |].
      intros b Hb. cbn beta.
      destruct (Sql.is_expired timeoutMinutes (CURRENT_TIMESTAMP e) b) eqn:E.
      * apply is_expired_spec in E. destruct E as [-> _].
        repeat split. right. reflexivity.
      * repeat split. left. reflexivity.
Qed.

(** C8 (as amended): over every sequence of [createBooking],
    [cancelBooking] and [expirePendingBookings] calls, under every fault
    schedule, each reservation keeps its id and its slot and its status
    moves only along PENDING -> CONFIRMED, PENDING -> FAILED,
    CONFIRMED -> CANCELLED, PENDING -> CANCELLED and FAILED -> CANCELLED:
    each call moves it by at most one of these edges, a sequence of calls
    along a path of them, and no path leads back to PENDING. *)
Theorem status_moves_along_edges (ops : list (operation * env)) (db : database) :
  ids_below_seq db ->
  let db' := perform_all ops db in
  moves path (bookings db) (bookings db')
  /\ (forall op e,
        moves one_move (bookings db') (bookings (perform op e db')))
  /\ (forall a b, path a b -> b = PENDING -> a = PENDING)
  /\ (forall a b, one_move a b <->
                  a = b \/ listed_edge a b = true
                  \/ (a = FAILED /\ b = CANCELLED)).
Proof.
  intros Hseq db'.
  split; [| split; [| split]].
  - subst db'. revert db Hseq.
    induction ops as [|[op e] ops IH]; intros db Hseq; cbn.
    + apply moves_refl. intros a. apply rt_refl.
    + apply moves_trans with (l2 := bookings (perform op e db)).
      * intros a b c. apply rt_trans.
      * apply moves_weaken with (P := one_move); [apply one_move_path |].
        apply perform_moves. exact Hseq.
      * apply IH. apply ids_below_seq_perform. exact Hseq.
  - intros op e. apply perform_moves.
    apply ids_below_seq_perform_all. exact Hseq.
  - apply path_into_PENDING.
  - intros a b. unfold one_move, edge.
    destruct a, b; cbn; intuition congruence.
Qed.

(** C8 on the stale sample: the sweep fails reservation 1, a cancel then
    takes it to CANCELLED. *)
Lemma status_moves_along_edges_witness :
  let ops := [(Sweep 2, calm (3 * Sample.minute) (3 * Sample.minute));
              (Cancel 1, calm (4 * Sample.minute) (4 * Sample.minute))] in
  ids_below_seq Sample.stale
  /\ moves path (bookings Sample.stale)
           (bookings (perform_all ops Sample.stale)).
Proof.
  intros ops.
  assert (Hseq : ids_below_seq Sample.stale).
  { intros b [<- | []]. cbn. lia. }
  split; [exact Hseq |].
  exact (proj1 (status_moves_along_edges ops Sample.stale Hseq)).
Defined.

(** C8, where the claim as written fails: reservation 1 is FAILED after the
    sweep, and [cancelBooking] moves it to CANCELLED, which is none of the
    four listed edges. *)
Lemma cancel_moves_failed_to_cancelled :
  let after_sweep :=
    perform (Sweep 2) (calm (3 * Sample.minute) (3 * Sample.minute))
            Sample.stale in
  let after_cancel :=
    perform (Cancel 1) (calm (4 * Sample.minute) (4 * Sample.minute))
            after_sweep in
  map b_status (bookings Sample.stale) = [PENDING]
  /\ map b_status (bookings after_sweep) = [FAILED]
  /\ map b_status (bookings after_cancel) = [CANCELLED]
  /\ map b_id (bookings after_sweep) = [1]
  /\ map b_id (bookings after_cancel) = [1]
  /\ listed_edge FAILED CANCELLED = false.
Proof.
  cbv zeta. repeat split; vm_compute; reflexivity.
Qed.

(** ** Slots and the reservations that hold them *)

(** The invariant of slots depends on how the table started.  The stale
    sample holds a reservation left PENDING, which none of the three
    calls ever commits (the insert and the confirmation share one
    transaction); the invariant holds there.  From it, the sweep fails
    reservation 1 and frees slot 1; Bob books slot 1 (reservation 2,
    CONFIRMED); [cancelBooking 1] then cancels the FAILED reservation 1
    and sets slot 1 available although reservation 2 holds it, and
    Carol's [createBooking] on slot 1 succeeds. *)
Lemma cancel_of_failed_on_stale_row :
  let at_minute n := calm (n * Sample.minute) (n * Sample.minute) in
  let ops := [(Sweep 2, at_minute 3);
              (Create 1 "Bob" "bob@example.org" None, at_minute 4);
              (Cancel 1, at_minute 5)] in
  let broken := perform_all ops Sample.stale in
  let doubled :=
    perform (Create 1 "Carol" "carol@example.org" None) (at_minute 6) broken in
  (slot_invariant Sample.stale /\ no_double_booking Sample.stale)
  /\ map is_available (appointment_slots broken) = [true]
  /\ map b_status (bookings broken) = [CANCELLED; CONFIRMED]
  /\ map b_id (active_on broken 1) = [2]
  /\ ~ slot_invariant broken
  /\ map b_status (bookings doubled) = [CANCELLED; CONFIRMED; CONFIRMED]
  /\ map patient_name (active_on doubled 1) = ["Bob"; "Carol"]%string
  /\ ~ no_double_booking doubled.
Proof.
  intros at_minute ops broken doubled.
  assert (Hbroken : broken
                    = cancelled
                        (created (swept Sample.stale 2 (3 * Sample.minute)) 1
                           "Bob" "bob@example.org" None (4 * Sample.minute))
                        1 1 (5 * Sample.minute))
    by (vm_compute; reflexivity).
  split.
  - split.
    + intros s [<- | []]. vm_compute. split; reflexivity.
    + intros slotId. unfold active_on, Sample.stale.
      cbn [bookings filter].
      destruct (holds slotId _); cbn [List.length]; lia.
  - split; [vm_compute; reflexivity |].
    split; [vm_compute; reflexivity |].
    split; [vm_compute; reflexivity |].
    split.
    + intros Hinv.
      specialize (Hinv (set_available true (5 * Sample.minute) Sample.slot1)).
      assert (Hin : In (set_available true (5 * Sample.minute) Sample.slot1)
                       (appointment_slots broken))
        by (rewrite Hbroken; vm_compute; left; reflexivity).
      destruct (Hinv Hin) as [_ Hback].
      assert (Hone : List.length (active_on broken 1) = 1%nat)
        by (rewrite Hbroken; vm_compute; reflexivity).
      specialize (Hback Hone). discriminate.
    + split; [vm_compute; reflexivity |].
      split; [vm_compute; reflexivity |].
      intros Hnd. specialize (Hnd 1).
      assert (Htwo : List.length (active_on doubled 1) = 2%nat)
        by (vm_compute; reflexivity).
      rewrite Htwo in Hnd. lia.
Qed.

(** ** The invariant on databases without PENDING or FAILED reservations *)

Lemma consistent_slot_invariant (db : database) :
  consistent db -> slot_invariant db /\ no_double_booking db.
Proof.
  intros C. split.
  - intros s Hs. rewrite (c_count db C s Hs).
    destruct (is_available s); split; congruence.
  - intros slotId.
    destruct (active_on db slotId) as [|b l] eqn:E; [cbn; lia |].
    assert (Hb : In b (active_on db slotId)) by (rewrite E; left; reflexivity).
    apply filter_In in Hb. destruct Hb as [Hb Hholds].
    apply andb_true_iff in Hholds. destruct Hholds as [Hid _].
    apply Z.eqb_eq in Hid.
    destruct (c_slot db C b Hb) as [s [Hs Hsid]].
    rewrite <- E, <- Hid, <- Hsid, (c_count db C s Hs).
    destruct (is_available s); lia.
Qed.

(** Cancelling the one row with a given id removes it from the count of
    its slot when it was active, and changes no other count. *)
Lemma count_after_cancel (l : list booking_row) (row : booking_row)
    (slotId ts : Z) :
  NoDup (map b_id l) -> In row l ->
  (List.length
     (filter (holds slotId)
        (map (fun b => if (b_id b =? b_id row)%Z
                       then set_cancelled ts b else b) l))
   + (if holds slotId row then 1 else 0)
   = List.length (filter (holds slotId) l))%nat.
Proof.
  induction l as [|b l IH]; intros Hnd Hin; [destruct Hin |].
  cbn [map] in Hnd. apply NoDup_cons_iff in Hnd. destruct Hnd as [Hfresh Hnd].
  destruct Hin as [-> | Hin].
  - cbn [map filter]. rewrite Z.eqb_refl.
    replace (holds slotId (set_cancelled ts row)) with false
      by (unfold holds; cbn; rewrite andb_false_r; reflexivity).
    rewrite map_unchanged.
    + destruct (holds slotId row); cbn [List.length]; lia.
    + intros b Hb. destruct (b_id b =? b_id row) eqn:E; [| reflexivity].
      apply Z.eqb_eq in E. exfalso. apply Hfresh. rewrite <- E.
      apply in_map. exact Hb.
  - cbn [map filter].
    assert (Hne : (b_id b =? b_id row) = false).
    { apply Z.eqb_neq. intros E. apply Hfresh. rewrite E.
      apply in_map. exact Hin. }
    rewrite Hne. specialize (IH Hnd Hin).
    destruct (holds slotId b); cbn [List.length]; lia.
Qed.

Lemma consistent_same_rows (db db' : database) :
  consistent db -> same_rows db' db ->
  bookings_id_seq db <= bookings_id_seq db' ->
  consistent db'.
Proof.
  intros C [_ [Hslots Hbookings]] Hmono.
  constructor; unfold ids_below_seq, active_on; rewrite ?Hslots, ?Hbookings.
  - intros b Hb. pose proof (c_seq db C b Hb). lia.
  - apply (c_ids db C).
  - apply (c_settled db C).
  - apply (c_slot db C).
  - apply (c_count db C).
Qed.

Lemma NoDup_snoc {A} (l : list A) (x : A) :
  NoDup l -> ~ In x l -> NoDup (l ++ [x]).
Proof.
  induction l as [|a l IH]; intros Hnd Hx; cbn.
  - constructor; [intros [] | constructor].
  - apply NoDup_cons_iff in Hnd. destruct Hnd as [Ha Hnd].
    constructor.
    + intros Hin. apply in_app_or in Hin. destruct Hin as [Hin | [<- | []]].
      * contradiction.
      * apply Hx. left. reflexivity.
    + apply IH; [exact Hnd |]. intros Hin. apply Hx. right. exact Hin.
Qed.

Lemma consistent_created (db : database) (slotId : Z) (name email : string)
    (phone : option string) (ts : Z) (slot : slot_row) (rest : list slot_row) :
  consistent db ->
  Sql.select_slot db slotId = slot :: rest ->
  is_available slot = true ->
  consistent (created db slotId name email phone ts).
Proof.
  intros C Hsel Hav.
  destruct (select_slot_In _ _ _ _ Hsel) as [Hslot Hsid].
  pose proof (created_bookings_fresh db slotId name email phone ts (c_seq db C))
    as Hbookings.
  pose proof (c_count db C slot Hslot) as Hfree. rewrite Hav, Hsid in Hfree.
  constructor.
  - intros b Hb. rewrite Hbookings in Hb.
    apply in_app_or in Hb. destruct Hb as [Hb | [<- | []]].
    + pose proof (c_seq db C b Hb). cbn. lia.
    + cbn. lia.
  - rewrite Hbookings, map_app. cbn [map].
    apply NoDup_snoc; [apply (c_ids db C) |].
    intros Hin. apply in_map_iff in Hin. destruct Hin as [b [Hid Hb]].
    pose proof (c_seq db C b Hb). cbn in Hid. lia.
  - intros b Hb. rewrite Hbookings in Hb.
    apply in_app_or in Hb. destruct Hb as [Hb | [<- | []]].
    + apply (c_settled db C b Hb).
    + left. reflexivity.
  - intros b Hb. rewrite created_slots. rewrite Hbookings in Hb.
    assert (Hex : exists s, In s (appointment_slots db) /\ s_id s = slot_id b).
    { apply in_app_or in Hb. destruct Hb as [Hb | [<- | []]].
      - apply (c_slot db C b Hb).
      - exists slot. auto. }
    destruct Hex as [s [Hs Hid]].
    exists (if s_id s =? slotId then set_available false ts s else s).
    split; [apply in_map_iff; exists s; auto |].
    destruct (s_id s =? slotId); exact Hid.
  - intros s' Hs'. rewrite created_slots in Hs'.
    apply in_map_iff in Hs'. destruct Hs' as [s [Heq Hs]].
    unfold active_on. rewrite Hbookings, filter_app, length_app.
    cbn [filter]. unfold holds at 2. cbn [slot_id b_status set_confirmed
                                           Sql.new_booking active].
    rewrite andb_true_r.
    destruct (s_id s =? slotId) eqn:E; subst s'.
    + apply Z.eqb_eq in E. cbn [s_id set_available is_available].
      rewrite E, Z.eqb_refl. unfold active_on in Hfree. rewrite Hfree.
      reflexivity.
    + rewrite Z.eqb_sym, E. cbn [List.length]. rewrite Nat.add_0_r.
      apply (c_count db C s Hs).
Qed.

Lemma consistent_cancelled (db : database) (bookingId ts : Z)
    (row : booking_row) (rest : list booking_row) :
  consistent db ->
  Sql.select_booking db bookingId = row :: rest ->
  b_status row <> CANCELLED ->
  consistent (cancelled db bookingId (slot_id row) ts).
Proof.
  intros C Hsel Hst.
  destruct (select_booking_In _ _ _ _ Hsel) as [Hrow Hid]. subst bookingId.
  assert (Hactive : b_status row = CONFIRMED)
    by (destruct (c_settled db C row Hrow); congruence).
  assert (Hids : map b_id (bookings (cancelled db (b_id row) (slot_id row) ts))
                 = map b_id (bookings db)).
  { cbn. rewrite map_map. apply map_ext. intros b.
    destruct (b_id b =? b_id row); reflexivity. }
  constructor.
  - intros b Hb. cbn in Hb. apply in_map_iff in Hb.
    destruct Hb as [b0 [Heq Hb0]]. pose proof (c_seq db C b0 Hb0).
    cbn. destruct (b_id b0 =? b_id row); subst b; cbn; lia.
  - rewrite Hids. apply (c_ids db C).
  - intros b Hb. cbn in Hb. apply in_map_iff in Hb.
    destruct Hb as [b0 [Heq Hb0]].
    destruct (b_id b0 =? b_id row); subst b.
    + right. reflexivity.
    + apply (c_settled db C b0 Hb0).
  - intros b Hb. cbn in Hb. apply in_map_iff in Hb.
    destruct Hb as [b0 [Heq Hb0]].
    destruct (c_slot db C b0 Hb0) as [s [Hs Hsid]].
    exists (if s_id s =? slot_id row then set_available true ts s else s).
    split; [cbn; apply in_map_iff; exists s; auto |].
    destruct (s_id s =? slot_id row), (b_id b0 =? b_id row); subst b;
      exact Hsid.
  - intros s' Hs'. cbn in Hs'. apply in_map_iff in Hs'.
    destruct Hs' as [s [Heq Hs]].
    pose proof (count_after_cancel (bookings db) row (s_id s) ts
                  (c_ids db C) Hrow) as Hcount.
    pose proof (c_count db C s Hs) as Hbefore. unfold active_on in Hbefore.
    assert (Hsame : active_on (cancelled db (b_id row) (slot_id row) ts) (s_id s')
                    = filter (holds (s_id s))
                        (map (fun b => if b_id b =? b_id row
                                       then set_cancelled ts b else b)
                             (bookings db))).
    { destruct (s_id s =? slot_id row); subst s'; reflexivity. }
    rewrite Hsame. unfold holds at 2 in Hcount. rewrite Hactive in Hcount.
    cbn [active] in Hcount. rewrite andb_true_r, Z.eqb_sym in Hcount.
    destruct (s_id s =? slot_id row); subst s'.
    + cbn [is_available set_available].
      destruct (is_available s); lia.
    + lia.
Qed.

Lemma consistent_swept (db : database) (timeoutMinutes ts : Z) :
  consistent db -> swept db timeoutMinutes ts = db.
Proof.
  intros C. apply swept_nothing. intros b Hb.
  unfold Sql.is_expired.
  destruct (c_settled db C b Hb) as [-> | ->]; reflexivity.
Qed.

(** Every call keeps a consistent database consistent, under every fault
    schedule. *)
Lemma consistent_perform (op : operation) (e : env) (db : database) :
  consistent db -> consistent (perform op e db).
Proof.
  intros C.
  destruct (perform_cases op e db) as [Hsame | Hdone].
  - apply (consistent_same_rows db); [exact C | exact Hsame |].
    apply perform_seq_monotone.
  - destruct op.
    + destruct Hdone as [slot [rest [Hsel [Hav ->]]]].
      apply (consistent_created db _ _ _ _ _ slot rest); assumption.
    + destruct Hdone as [row [rest [Hsel [Hst ->]]]].
      apply (consistent_cancelled db _ _ row rest); assumption.
    + rewrite Hdone, consistent_swept; assumption.
Qed.

(** C7: in every state that a sequence of [createBooking], [cancelBooking]
    and [expirePendingBookings] calls reaches, under every fault schedule
    and in every time zone, from a database whose bookings table is empty
    and whose slots are all available, a slot is unavailable exactly when
    one reservation in PENDING or CONFIRMED refers to it, and no slot has
    more than one such reservation. *)
Theorem slot_invariant_without_stale_rows (ops : list (operation * env))
    (db : database) :
  bookings db = [] ->
  (forall s, In s (appointment_slots db) -> is_available s = true) ->
  slot_invariant (perform_all ops db) /\ no_double_booking (perform_all ops db).
Proof.
  intros Hempty Hfree.
  apply consistent_slot_invariant.
  assert (C : consistent db).
  { constructor; unfold ids_below_seq, active_on; rewrite ?Hempty; cbn.
    - intros b [].
    - constructor.
    - intros b [].
    - intros b [].
    - intros s Hs. rewrite (Hfree s Hs). reflexivity. }
  clear Hempty Hfree. revert db C.
  induction ops as [|[op e] ops IH]; intros db C; cbn.
  - exact C.
  - apply IH. apply consistent_perform. exact C.
Qed.

(** C7 on the sample database: Alice books slot 1, a sweep runs, Alice
    cancels, Bob books slot 1, and Carol is refused. *)
Lemma slot_invariant_without_stale_rows_witness :
  let at_minute n := calm (n * Sample.minute) (n * Sample.minute) in
  let ops := [(Create 1 "Alice" "alice@example.org" None, at_minute 1);
              (Sweep 2, at_minute 4);
              (Cancel 1, at_minute 5);
              (Create 1 "Bob" "bob@example.org" None, at_minute 6);
              (Create 1 "Carol" "carol@example.org" None, at_minute 7)] in
  slot_invariant (perform_all ops Sample.fresh)
  /\ no_double_booking (perform_all ops Sample.fresh)
  /\ map b_status (bookings (perform_all ops Sample.fresh))
     = [CANCELLED; CONFIRMED]
  /\ map is_available (appointment_slots (perform_all ops Sample.fresh))
     = [false].
Proof.
  intros at_minute ops.
  destruct (slot_invariant_without_stale_rows ops Sample.fresh)
    as [Hinv Hone].
  - reflexivity.
  - intros s [<- | []]. reflexivity.
  - split; [exact Hinv |]. split; [exact Hone |].
    split; vm_compute; reflexivity.
Defined.

(** ** Concurrent createBooking calls on one slot *)





Section Race.

Variables (db0 : database) (slotId : Z).
Variables (slot0 : slot_row) (rest0 : list slot_row).
Variable requests : list request.

(** Slot [slotId] exists and is available; the ids of [db0] are behind the
    sequence and the doctor of the slot exists, as the schema has it; every
    call is for this slot and none finds it past at line 36, in the time
    zone of the process that serves it. *)
Hypothesis slot_exists : Sql.select_slot db0 slotId = slot0 :: rest0.
Hypothesis slot_free : is_available slot0 = true.
Hypothesis ids_fresh : ids_below_seq db0.
Hypothesis doctor_exists :
  exists d, In d (doctors db0) /\ d_id d = doctor_id slot0.
Hypothesis same_slot_not_past :
  forall r, In r requests ->
            r_slotId r = slotId /\ r_now r <= slotDateTime (r_zone r) slot0.

Definition pending_of (r : request) : booking_row :=
  Sql.new_booking (bookings_id_seq db0 + 1) slotId (r_patientName r)
    (r_patientEmail r) (r_patientPhone r) (r_timestamp r).

Definition confirmed_of (r : request) : booking_row :=
  set_confirmed (r_timestamp r) (pending_of r).

(** The database once call [r] has won the slot: what [createBooking]
    alone would have left. *)
Definition won (r : request) : database :=
  created db0 slotId (r_patientName r) (r_patientEmail r) (r_patientPhone r)
    (r_timestamp r).












Lemma install_won (r : request) :
  install (with_seq db0 (bookings_id_seq db0 + 1)) (confirmed_of r) slotId
    (r_timestamp r)
  = won r.
Proof.
  unfold install, won, created, Sql.update_slot, Sql.confirm_booking,
    Sql.insert_booking, with_slots, with_bookings, with_seq.
  cbn [doctors appointment_slots bookings bookings_id_seq snd].
  f_equal. rewrite map_app. cbn [map Sql.new_booking b_id].
  rewrite Z.eqb_refl. f_equal.
  symmetry. apply map_unchanged. intros b Hb.
  destruct (b_id b =? bookings_id_seq db0 + 1) eqn:E; [| reflexivity].
  apply Z.eqb_eq in E. specialize (ids_fresh b Hb). lia.
Qed.



(** *** The three phases of a race *)
















(** *** The invariant of a race *)




(** What the winner reads back: its own reservation, CONFIRMED. *)
Lemma filter_none {A} (f : A -> bool) (l : list A) :
  (forall x, In x l -> f x = false) -> filter f l = [].
Proof.
  intros H. induction l as [|x l IH]; cbn; [reflexivity |].
  rewrite (H x) by (left; reflexivity).
  apply IH. intros y Hy. apply H. right. exact Hy.
Qed.


(** *** Progress *)


















End Race.



(** *** One call alone *)

Lemma run_step (w w' : world) (i : nat) (rest : list nat) :
  step w i = Some w' -> run_schedule (i :: rest) w = run_schedule rest w'.
Proof. intros H. cbn. rewrite H. reflexivity. Qed.

Lemma run_skip (w : world) (i : nat) (rest : list nat) :
  step w i = None -> run_schedule (i :: rest) w = run_schedule rest w.
Proof. intros H. cbn. rewrite H. reflexivity. Qed.

(** Symbolic execution of a schedule, one turn at a time. *)
Ltac simpl_step :=
  unfold step, set_call, set_lock;
  cbn [calls store row_lock row_version Nat.eqb nth_error
       option_map request_of stage_of slot_seen at_stage].

Ltac advance_by tac :=
  match goal with
  | |- context [run_schedule (?i :: ?rest) ?w] =>
      first
        [ let H := fresh "Hstep" in
          eassert (H : step w i = Some _) by (simpl_step; tac; reflexivity);
          rewrite (run_step _ _ _ _ H); clear H
        | let H := fresh "Hstep" in
          assert (H : step w i = None) by (simpl_step; tac; reflexivity);
          rewrite (run_skip _ _ _ H); clear H ]
  end.

Ltac advance := advance_by ltac:(rewrite ?Z.eqb_refl).

(** A call that races nobody does what [createBooking] does on its own:
    same completion, same database. *)
Lemma alone_agrees (db : database) (r : request) :
  ids_below_seq db ->
  let w := run_schedule (repeat 0%nat 8) (start db [r]) in
  let alone :=
    run (createBooking (r_slotId r) (r_patientName r) (r_patientEmail r)
                       (r_patientPhone r))
        (calm_in (r_zone r) (r_timestamp r) (r_now r)) db in
  Rush.outcome_of w 0 = Some (Settled (fst alone)) /\ store w = snd alone.
Proof.
  intros Hids. cbv zeta. rewrite createBooking_calm_in.
  unfold Rush.outcome_of, start. cbn [repeat].
  advance.
  destruct (Sql.select_slot db (r_slotId r)) as [|slot rest] eqn:Hsel.
  - advance_by ltac:(rewrite ?Hsel). unfold checked. do 6 advance.
    cbn [run_schedule calls set_call Nat.eqb option_map stage_of at_stage store].
    split; reflexivity.
  - advance_by ltac:(rewrite ?Hsel). unfold checked.
    cbn [request_of at_stage].
    destruct (is_available slot) eqn:Hav; cbn [negb].
    + destruct (slotDateTime (r_zone r) slot <? r_now r) eqn:Hpast.
      * do 6 advance.
        cbn [run_schedule calls Nat.eqb option_map stage_of at_stage store
             code Error].
        split; reflexivity.
      * do 6 advance.
        cbn [run_schedule calls Nat.eqb option_map stage_of at_stage store].
        pose proof (install_won db (r_slotId r) Hids r) as Hsame.
        unfold won, confirmed_of, pending_of in Hsame.
        rewrite Hsame. split; reflexivity.
    + do 6 advance.
      cbn [run_schedule calls Nat.eqb option_map stage_of at_stage store
           code Error].
      split; reflexivity.
Qed.

(** * Further properties of the service *)

(** ** Reading a booking back *)

Lemma getBookingById_calm (db : database) (bookingId ts now : Z) :
  run (getBookingById bookingId) (calm ts now) db
  = (Return (hd_error (booking_join db bookingId)), db).
Proof. reflexivity. Qed.




(** Every row of the join comes from a reservation with the id asked for,
    a slot it refers to and the doctor of that slot. *)
Lemma booking_join_In (db : database) (bookingId : Z) (d : booking_details) :
  In d (booking_join db bookingId) <->
  exists b s doc,
    In b (bookings db) /\ b_id b = bookingId
    /\ In s (appointment_slots db) /\ s_id s = slot_id b
    /\ In doc (doctors db) /\ d_id doc = doctor_id s
    /\ d = {| booking := b; j_slot_date := slot_date s;
              j_slot_time := slot_time s;
              j_duration_minutes := duration_minutes s;
              doctor_name := d_name doc;
              specialization := d_specialization doc |}.
Proof.
  unfold booking_join. rewrite in_flat_map. split.
  - intros [b [Hb Hd]]. apply filter_In in Hb. destruct Hb as [Hb Hid].
    apply in_flat_map in Hd. destruct Hd as [s [Hs Hd]].
    apply filter_In in Hs. destruct Hs as [Hs Hsid].
    apply in_map_iff in Hd. destruct Hd as [doc [Heq Hdoc]].
    apply filter_In in Hdoc. destruct Hdoc as [Hdoc Hdid].
    apply Z.eqb_eq in Hid, Hsid, Hdid.
    exists b, s, doc. repeat split; auto.
  - intros [b [s [doc [Hb [Hid [Hs [Hsid [Hdoc [Hdid ->]]]]]]]]].
    exists b. split; [apply filter_In; split; [exact Hb | apply Z.eqb_eq; exact Hid] |].
    apply in_flat_map. exists s.
    split; [apply filter_In; split; [exact Hs | apply Z.eqb_eq; auto] |].
    apply in_map_iff. exists doc. split; [reflexivity |].
    apply filter_In. split; [exact Hdoc | apply Z.eqb_eq; auto].
Qed.

(** X2: [getBookingById] answers without changing anything; it returns
    [undefined] when no reservation has the id, and, the foreign keys
    holding, the details of a reservation with that id when there is one.
    Whatever it returns is built from a reservation with the id asked for,
    its slot and the doctor of that slot. *)
Theorem getBookingById_lookup (db : database) (bookingId ts now : Z) :
  exists r,
    run (getBookingById bookingId) (calm ts now) db = (Return r, db)
    /\ ((forall b, In b (bookings db) -> b_id b <> bookingId) -> r = None)
    /\ (references_hold db ->
        (exists b, In b (bookings db) /\ b_id b = bookingId) ->
        exists details, r = Some details)
    /\ (forall details, r = Some details ->
          In (booking details) (bookings db)
          /\ b_id (booking details) = bookingId
          /\ exists s doc,
               In s (appointment_slots db)
               /\ s_id s = slot_id (booking details)
               /\ In doc (doctors db) /\ d_id doc = doctor_id s
               /\ j_slot_date details = slot_date s
               /\ j_slot_time details = slot_time s
               /\ j_duration_minutes details = duration_minutes s
               /\ doctor_name details = d_name doc
               /\ specialization details = d_specialization doc).
Proof.
  rewrite getBookingById_calm. eexists. split; [reflexivity |].
  split; [| split].
  - intros Hnone.
    destruct (booking_join db bookingId) as [|d l] eqn:Hjoin; [reflexivity |].
    assert (Hd : In d (booking_join db bookingId))
      by (rewrite Hjoin; left; reflexivity).
    apply booking_join_In in Hd.
    destruct Hd as [b [_ [_ [Hb [Hid _]]]]]. exfalso. apply (Hnone b Hb Hid).
  - intros [Hslots Hdoctors] [b [Hb Hid]].
    destruct (Hslots b Hb) as [s [Hs Hsid]].
    destruct (Hdoctors s Hs) as [doc [Hdoc Hdid]].
    destruct (booking_join db bookingId) as [|d l] eqn:Hjoin;
      [| eexists; reflexivity].
    exfalso.
    assert (Hin : In {| booking := b; j_slot_date := slot_date s;
                        j_slot_time := slot_time s;
                        j_duration_minutes := duration_minutes s;
                        doctor_name := d_name doc;
                        specialization := d_specialization doc |}
                     (booking_join db bookingId)).
    { apply booking_join_In. exists b, s, doc. repeat split; auto. }
    rewrite Hjoin in Hin. destruct Hin.
  - intros details Hr.
    assert (Hd : In details (booking_join db bookingId)).
    { destruct (booking_join db bookingId) as [|d l]; [discriminate |].
      injection Hr as <-. left. reflexivity. }
    apply booking_join_In in Hd.
    destruct Hd as [b [s [doc [Hb [Hid [Hs [Hsid [Hdoc [Hdid ->]]]]]]]]].
    cbn. split; [exact Hb |]. split; [exact Hid |].
    exists s, doc. repeat split; auto.
Qed.

(** ** Calls that come too late *)

Lemma select_slot_created (db : database) (slotId : Z) (name email : string)
    (phone : option string) (ts : Z) :
  Sql.select_slot (created db slotId name email phone ts) slotId
  = map (set_available false ts) (Sql.select_slot db slotId).
Proof.
  unfold created, Sql.confirm_booking.
  rewrite select_slot_with_bookings, select_slot_update_slot. reflexivity.
Qed.

Lemma select_booking_cancelled (db : database) (bookingId slotId ts : Z) :
  Sql.select_booking (cancelled db bookingId slotId ts) bookingId
  = map (set_cancelled ts) (Sql.select_booking db bookingId).
Proof.
  unfold cancelled, Sql.select_booking. cbn.
  induction (bookings db) as [|b l IH]; cbn; [reflexivity |].
  destruct (b_id b =? bookingId) eqn:E; cbn; rewrite E, IH; reflexivity.
Qed.

(** What a call that returned had found. *)
Lemma createBooking_returned (e : env) (db : database) (slotId : Z)
    (name email : string) (phone : option string)
    (r : option booking_details) :
  fst (run (createBooking slotId name email phone) e db) = Return r ->
  exists slot rest,
    Sql.select_slot db slotId = slot :: rest
    /\ is_available slot = true
    /\ snd (run (createBooking slotId name email phone) e db)
       = created db slotId name email phone (CURRENT_TIMESTAMP e).
Proof.
  run_call. walk; try discriminate; intros _; do 2 eexists; auto.
Qed.

Lemma cancelBooking_returned (e : env) (db : database) (bookingId : Z)
    (r : cancel_result) :
  fst (run (cancelBooking bookingId) e db) = Return r ->
  exists row rest,
    Sql.select_booking db bookingId = row :: rest
    /\ b_status row <> CANCELLED
    /\ r = cancelled_ok
    /\ snd (run (cancelBooking bookingId) e db)
       = cancelled db bookingId (slot_id row) (CURRENT_TIMESTAMP e).
Proof.
  run_call. walk; try discriminate; intros Hr; injection Hr as <-;
    do 2 eexists; (split; [reflexivity |]);
    (split; [apply status_eqb_neq; assumption |]); split; reflexivity.
Qed.

(** The rows of a slot after a booking of slot [s]: the [UPDATE] keeps
    every id and can only turn a row unavailable. *)
Lemma select_slot_created_other (db : database) (s slotId : Z)
    (name email : string) (phone : option string) (ts : Z) :
  Sql.select_slot (created db s name email phone ts) slotId
  = map (fun x => if s_id x =? s then set_available false ts x else x)
        (Sql.select_slot db slotId).
Proof.
  unfold Sql.select_slot. rewrite created_slots.
  induction (appointment_slots db) as [|x l IH]; [reflexivity |].
  cbn [map filter].
  replace (s_id (if s_id x =? s then set_available false ts x else x))
    with (s_id x) by (destruct (s_id x =? s); reflexivity).
  destruct (s_id x =? slotId); cbn [map]; rewrite IH; reflexivity.
Qed.

Lemma taken_after_creates (others : list (operation * env)) (db : database)
    (slotId : Z) :
  (forall op e, In (op, e) others ->
                exists s name email phone, op = Create s name email phone) ->
  taken db slotId -> taken (perform_all others db) slotId.
Proof.
  revert db. induction others as [|[op e] others IH]; intros db Hops Htaken;
    [exact Htaken |].
  cbn [perform_all]. apply IH; [intros op' e' H; apply (Hops op' e'); right;
                                exact H |].
  destruct (Hops op e (or_introl eq_refl)) as [s [name [email [phone ->]]]].
  destruct Htaken as [slot [rest [Hsel Hav]]].
  destruct (perform_cases (Create s name email phone) e db)
    as [[_ [Hslots _]] | [_ [_ [_ [_ ->]]]]].
  - exists slot, rest. unfold Sql.select_slot in *. rewrite Hslots. auto.
  - unfold taken. rewrite select_slot_created_other, Hsel. cbn [map].
    eexists. eexists. split; [reflexivity |].
    destruct (s_id slot =? s); [reflexivity | exact Hav].
Qed.

(** X3: once [createBooking] has returned for a slot, under whatever fault
    schedule, the slot stays taken for as long as only [createBooking]
    calls follow, on whatever slots, for whatever patients and under
    whatever fault schedules: after any number of them, a further
    [createBooking] on that slot, in a process of any time zone and served
    without error, fails with "Slot is no longer available" and leaves the
    database as it is.  (A [cancelBooking] or a sweep in between can free
    the slot.) *)
Theorem createBooking_again_is_refused (e : env) (db : database) (slotId : Z)
    (name email : string) (phone : option string)
    (r : option booking_details) (others : list (operation * env))
    (zone' : Z -> Z) (name' email' : string) (phone' : option string)
    (ts' now' : Z) :
  fst (run (createBooking slotId name email phone) e db) = Return r ->
  (forall op e0, In (op, e0) others ->
                 exists s n m p, op = Create s n m p) ->
  let booked :=
    perform_all others
      (snd (run (createBooking slotId name email phone) e db)) in
  run (createBooking slotId name' email' phone') (calm_in zone' ts' now') booked
  = (Throw (Error "Slot is no longer available"), booked).
Proof.
  intros Hret Hothers booked.
  destruct (createBooking_returned e db slotId name email phone r Hret)
    as [slot [rest [Hsel [_ Hbooked]]]].
  assert (Htaken : taken booked slotId).
  { subst booked. apply taken_after_creates; [exact Hothers |].
    rewrite Hbooked. exists (set_available false (CURRENT_TIMESTAMP e) slot).
    eexists. rewrite select_slot_created, Hsel. split; reflexivity. }
  destruct Htaken as [slot' [rest' [Hsel' Hav']]].
  rewrite createBooking_calm_in, Hsel', Hav'. reflexivity.
Qed.

(** X3 on the sample database: Alice books slot 1, Carol asks for a slot
    that does not exist, and Bob is refused slot 1. *)
Lemma createBooking_again_is_refused_witness :
  let booked :=
    perform_all [(Create 2 "Carol" "carol@example.org" None, calm 2500 2500)]
      (snd (run (createBooking 1 "Alice" "alice@example.org" None)
                (calm 1000 2000) Sample.fresh)) in
  run (createBooking 1 "Bob" "bob@example.org" None)
      (calm_in utc 3000 4000) booked
  = (Throw (Error "Slot is no longer available"), booked).
Proof.
  eapply (createBooking_again_is_refused (calm 1000 2000) Sample.fresh 1
            "Alice" "alice@example.org" None).
  - vm_compute. reflexivity.
  - intros op e0 [H | []]. injection H as <- _. do 4 eexists. reflexivity.
Defined.

(** X4: once [cancelBooking] has returned for a reservation, every further
    [cancelBooking] of it fails with "Booking already cancelled" and leaves
    the database as it is: the slot is not freed a second time. *)
Theorem cancelBooking_again_is_refused (e : env) (db : database)
    (bookingId : Z) (r : cancel_result) (ts' now' : Z) :
  fst (run (cancelBooking bookingId) e db) = Return r ->
  let freed := snd (run (cancelBooking bookingId) e db) in
  run (cancelBooking bookingId) (calm ts' now') freed
  = (Throw (Error "Booking already cancelled"), freed).
Proof.
  intros Hret freed.
  destruct (cancelBooking_returned e db bookingId r Hret)
    as [row [rest [Hsel [_ [_ Hfreed]]]]].
  subst freed.
  rewrite Hfreed, cancelBooking_calm, select_booking_cancelled, Hsel.
  reflexivity.
Qed.

Lemma cancelBooking_again_is_refused_witness :
  let freed := snd (run (cancelBooking 1) (calm 1000 1000) Sample.stale) in
  run (cancelBooking 1) (calm 2000 2000) freed
  = (Throw (Error "Booking already cancelled"), freed).
Proof.
  eapply (cancelBooking_again_is_refused (calm 1000 1000) Sample.stale 1).
  vm_compute. reflexivity.
Defined.

(** X2 on the stale sample: id 7 is unknown, id 1 is found. *)
Lemma getBookingById_lookup_witness :
  run (getBookingById 7) (calm 1000 1000) Sample.stale
  = (Return None, Sample.stale)
  /\ exists details,
       run (getBookingById 1) (calm 1000 1000) Sample.stale
       = (Return (Some details), Sample.stale).
Proof.
  split.
  - destruct (getBookingById_lookup Sample.stale 7 1000 1000)
      as [r [Hrun [Hnone _]]].
    rewrite Hrun, Hnone; [reflexivity |].
    intros b [<- | []]. discriminate.
  - destruct (getBookingById_lookup Sample.stale 1 1000 1000)
      as [r [Hrun [_ [Hsome _]]]].
    destruct Hsome as [details ->].
    + split.
      * intros b [<- | []]. eexists. split; [left; reflexivity | reflexivity].
      * intros s [<- | []]. eexists. split; [left; reflexivity | reflexivity].
    + eexists. split; [left; reflexivity | reflexivity].
    + exists details. exact Hrun.
Defined.

(** ** What the calls leave alone *)

Lemma perform_ids (op : operation) (e : env) (db : database) :
  ids_below_seq db ->
  exists added,
    map b_id (bookings (perform op e db)) = map b_id (bookings db) ++ added
    /\ (added = [] \/ added = [bookings_id_seq db + 1]).
Proof.
  intros Hseq.
  destruct (perform_cases op e db) as [[_ [_ Hsame]] | Hdone].
  - exists []. rewrite Hsame, app_nil_r. auto.
  - destruct op.
    + destruct Hdone as [slot [rest [_ [_ ->]]]].
      rewrite created_bookings_fresh by exact Hseq.
      eexists. rewrite map_app. split; [reflexivity |]. right. reflexivity.
    + destruct Hdone as [row [rest [_ [_ ->]]]].
      exists []. rewrite app_nil_r. split; [| auto].
      cbn. rewrite map_map. apply map_ext. intros b.
      destruct (b_id b =? bookingId); reflexivity.
    + rewrite Hdone, swept_bookings.
      exists []. rewrite app_nil_r. split; [| auto].
      rewrite map_map. apply map_ext. intros b.
      destruct (Sql.is_expired _ _ b); reflexivity.
Qed.

(** X5: under every sequence of [createBooking], [cancelBooking] and
    [expirePendingBookings] calls and every fault schedule, the ids of the
    reservations stay pairwise distinct and behind the sequence, no
    reservation is ever removed, and the reservations that were there keep
    their position. *)
Theorem booking_ids_stay_unique (ops : list (operation * env)) (db : database) :
  ids_below_seq db ->
  NoDup (map b_id (bookings db)) ->
  let db' := perform_all ops db in
  ids_below_seq db'
  /\ NoDup (map b_id (bookings db'))
  /\ exists added, map b_id (bookings db') = map b_id (bookings db) ++ added.
Proof.
  revert db. induction ops as [|[op e] ops IH]; intros db Hseq Hnd; cbn.
  - repeat split; auto. exists []. rewrite app_nil_r. reflexivity.
  - pose proof (ids_below_seq_perform op e db Hseq) as Hseq1.
    destruct (perform_ids op e db Hseq) as [added [Hids Hadded]].
    assert (Hnd1 : NoDup (map b_id (bookings (perform op e db)))).
    { rewrite Hids. destruct Hadded as [-> | ->].
      - rewrite app_nil_r. exact Hnd.
      - apply NoDup_snoc; [exact Hnd |].
        intros Hin. apply in_map_iff in Hin. destruct Hin as [b [Hid Hb]].
        specialize (Hseq b Hb). lia. }
    destruct (IH (perform op e db) Hseq1 Hnd1) as [H1 [H2 [more H3]]].
    split; [exact H1 |]. split; [exact H2 |].
    exists (added ++ more). rewrite H3, Hids, app_assoc. reflexivity.
Qed.

Lemma booking_ids_stay_unique_witness :
  let at_minute n := calm (n * Sample.minute) (n * Sample.minute) in
  let ops := [(Sweep 2, at_minute 3);
              (Create 1 "Bob" "bob@example.org" None, at_minute 4);
              (Cancel 1, at_minute 5);
              (Create 1 "Carol" "carol@example.org" None, at_minute 6)] in
  NoDup (map b_id (bookings (perform_all ops Sample.stale)))
  /\ map b_id (bookings (perform_all ops Sample.stale)) = [1; 2; 3].
Proof.
  intros at_minute ops.
  destruct (booking_ids_stay_unique ops Sample.stale) as [_ [Hnd _]].
  - intros b [<- | []]. cbn. lia.
  - cbn. constructor; [intros [] | constructor].
  - split; [exact Hnd | vm_compute; reflexivity].
Defined.

(** X6: [createBooking], whatever it returns or throws, changes no
    reservation that is already there, no slot with another id and no
    doctor; and it never turns a slot available. *)
Theorem createBooking_frame (e : env) (db : database) (slotId : Z)
    (name email : string) (phone : option string) :
  ids_below_seq db ->
  let db' := snd (run (createBooking slotId name email phone) e db) in
  (exists added, bookings db' = bookings db ++ added)
  /\ (forall s, s_id s <> slotId ->
                (In s (appointment_slots db') <-> In s (appointment_slots db)))
  /\ doctors db' = doctors db
  /\ (forall s, In s (appointment_slots db') -> is_available s = true ->
                In s (appointment_slots db)).
Proof.
  intros Hseq db'. subst db'.
  destruct (createBooking_all_or_nothing e db slotId name email phone)
    as [[Hdoc [Hslots Hbook]] | Hdone].
  - rewrite Hdoc, Hslots, Hbook. repeat split; auto.
    exists []. rewrite app_nil_r. reflexivity.
  - rewrite Hdone. split; [| split; [| split]].
    + rewrite created_bookings_fresh by exact Hseq. eauto.
    + intros s Hne. rewrite created_slots, in_map_iff. split.
      * intros [s0 [Heq Hs0]].
        destruct (s_id s0 =? slotId) eqn:E; subst s; [| exact Hs0].
        apply Z.eqb_eq in E. cbn in Hne. contradiction.
      * intros Hs. exists s. apply Z.eqb_neq in Hne. rewrite Hne. auto.
    + reflexivity.
    + intros s Hs Hav. rewrite created_slots in Hs.
      apply in_map_iff in Hs. destruct Hs as [s0 [Heq Hs0]].
      destruct (s_id s0 =? slotId); subst s; [discriminate | exact Hs0].
Qed.

Lemma createBooking_frame_witness :
  exists added,
    bookings (snd (run (createBooking 1 "Bob" "bob@example.org" None)
                       (calm 1000 2000) Sample.stale))
    = bookings Sample.stale ++ added.
Proof.
  destruct (createBooking_frame (calm 1000 2000) Sample.stale 1
              "Bob" "bob@example.org" None)
    as [Hadded _].
  - intros b [<- | []]. cbn. lia.
  - exact Hadded.
Defined.

(** X7: [cancelBooking], whatever it returns or throws and whatever ids
    the table holds, adds and removes no reservation, changes no
    reservation with another id, changes no reservation in anything but
    status and update stamp, and never turns a slot unavailable. *)
Theorem cancelBooking_frame (e : env) (db : database) (bookingId : Z) :
  let db' := snd (run (cancelBooking bookingId) e db) in
  (exists f,
      bookings db' = map f (bookings db)
      /\ forall b,
           (b_id b <> bookingId -> f b = b)
           /\ (f b = b \/ f b = set_cancelled (CURRENT_TIMESTAMP e) b))
  /\ doctors db' = doctors db
  /\ map s_id (appointment_slots db') = map s_id (appointment_slots db)
  /\ (forall s, In s (appointment_slots db') -> is_available s = false ->
                In s (appointment_slots db)).
Proof.
  intros db'. subst db'.
  destruct (cancelBooking_all_or_nothing e db bookingId)
    as [[Hdoc [Hslots Hbook]] | [row [rest [_ Hdone]]]].
  - rewrite Hdoc, Hslots, Hbook. repeat split; auto.
    exists (fun b => b). rewrite map_id. auto.
  - rewrite Hdone. split; [| split; [| split]].
    + eexists. split; [reflexivity |]. intros b. cbn beta.
      destruct (b_id b =? bookingId) eqn:E.
      * split; [| auto]. apply Z.eqb_eq in E. intros Hne. contradiction.
      * auto.
    + reflexivity.
    + cbn. rewrite map_map. apply map_ext. intros s.
      destruct (s_id s =? slot_id row); reflexivity.
    + intros s Hs Hav. cbn in Hs.
      apply in_map_iff in Hs. destruct Hs as [s0 [Heq Hs0]].
      destruct (s_id s0 =? slot_id row); subst s; [discriminate | exact Hs0].
Qed.

(** X8: [expirePendingBookings], whatever it returns or throws, adds and
    removes no reservation, changes no reservation that is not PENDING,
    changes no slot unless an expired reservation refers to it, and never
    turns a slot unavailable. *)
Theorem expirePendingBookings_frame (e : env) (db : database)
    (timeoutMinutes : Z) :
  let db' := snd (run (expirePendingBookings timeoutMinutes) e db) in
  (exists f,
      bookings db' = map f (bookings db)
      /\ forall b, b_id (f b) = b_id b /\ slot_id (f b) = slot_id b
                   /\ (b_status b <> PENDING -> f b = b))
  /\ doctors db' = doctors db
  /\ (forall s, In s (appointment_slots db) ->
                (forall b, In b (bookings db) ->
                           Sql.is_expired timeoutMinutes (CURRENT_TIMESTAMP e) b
                           = true ->
                           slot_id b <> s_id s) ->
                In s (appointment_slots db'))
  /\ (forall s, In s (appointment_slots db') -> is_available s = false ->
                In s (appointment_slots db)).
Proof.
  intros db'. subst db'.
  destruct (expirePendingBookings_all_or_nothing e db timeoutMinutes)
    as [[Hdoc [Hslots Hbook]] | Hdone].
  - rewrite Hdoc, Hslots, Hbook. repeat split; auto.
    exists (fun b => b). rewrite map_id. auto.
  - rewrite Hdone. split; [| split; [| split]].
    + rewrite swept_bookings. eexists. split; [reflexivity |].
      intros b. cbn beta.
      destruct (Sql.is_expired timeoutMinutes (CURRENT_TIMESTAMP e) b) eqn:E.
      * apply is_expired_spec in E. destruct E as [Hst _].
        repeat split. intros Hne. contradiction.
      * auto.
    + unfold swept, Sql.expire_bookings.
      destruct (0 <? _)%nat; reflexivity.
    + intros s Hs Hfree. rewrite swept_slots. apply in_map_iff. exists s.
      split; [| exact Hs].
      destruct (existsb _ _) eqn:E; [| reflexivity].
      apply existsb_exists in E. destruct E as [sid [Hsid Heq]].
      apply in_map_iff in Hsid. destruct Hsid as [b [Hb Hin]].
      apply filter_In in Hin. destruct Hin as [Hin Hexp].
      apply Z.eqb_eq in Heq. exfalso. apply (Hfree b Hin Hexp). congruence.
    + intros s Hs Hav. rewrite swept_slots in Hs.
      apply in_map_iff in Hs. destruct Hs as [s0 [Heq Hs0]].
      destruct (existsb _ _); subst s; [discriminate | exact Hs0].
Qed.

(** ** The statistics of the booking table *)

Lemma count_status_total (db : database) :
  (count_status CONFIRMED db + count_status PENDING db
   + count_status FAILED db + count_status CANCELLED db
   = List.length (bookings db))%nat.
Proof.
  unfold count_status. induction (bookings db) as [|b l IH]; [reflexivity |].
  cbn [filter]. destruct (b_status b); cbn; lia.
Qed.

(** [getBookingStats] never throws and never writes.  When the store
    serves its query it answers 200 with the five counts, of which the four
    per status add up to the total; when the store fails it hands that
    error to [next]. *)
Theorem getBookingStats_counts (e : env) (db : database) :
  exists h,
    run BookingController.getBookingStats e db = (Return h, db)
    /\ match h with
       | Responded r =>
           fault e 0%nat = None
           /\ r = accepted 200 (Some (select_stats db)) None None
           /\ (n_confirmed (select_stats db) + n_pending (select_stats db)
               + n_failed (select_stats db) + n_cancelled (select_stats db)
               = n_total (select_stats db))%nat
       | Next error => fault e 0%nat = Some error
       end.
Proof.
  unfold BookingController.getBookingStats. run_call.
  destruct (fault e 0%nat) as [err|] eqn:E; cbn.
  - eexists. split; reflexivity.
  - eexists. split; [reflexivity |].
    split; [reflexivity |]. split; [reflexivity |].
    apply count_status_total.
Qed.

Lemma expirePendingBookings_returned (e : env) (db : database)
    (timeoutMinutes : Z) (result : expiry_result) :
  fst (run (expirePendingBookings timeoutMinutes) e db) = Return result ->
  result = expiry_report
             (List.length
                (filter (Sql.is_expired timeoutMinutes (CURRENT_TIMESTAMP e))
                        (bookings db)))
  /\ snd (run (expirePendingBookings timeoutMinutes) e db)
     = swept db timeoutMinutes (CURRENT_TIMESTAMP e).
Proof.
  run_call. unfold swept, Sql.expire_bookings, expiry_report.
  walk; try discriminate; intros Hr; injection Hr as <-;
    rewrite ?length_map; split; reflexivity.
Qed.

Lemma count_after_sweep (timeoutMinutes ts : Z) (reason : string)
    (l : list booking_row) (st : status) :
  let l' := map (fun b => if Sql.is_expired timeoutMinutes ts b
                          then set_failed ts reason b else b) l in
  let n := List.length (filter (Sql.is_expired timeoutMinutes ts) l) in
  let count st l :=
    List.length (filter (fun b => status_eqb (b_status b) st) l) in
  (count st l' + (if status_eqb st PENDING then n else 0)
   = count st l + (if status_eqb st FAILED then n else 0))%nat.
Proof.
  cbv zeta. induction l as [|b l IH]; [destruct st; reflexivity |].
  cbn [map filter].
  destruct (Sql.is_expired timeoutMinutes ts b) eqn:E.
  - apply is_expired_spec in E. destruct E as [Hst _].
    cbn [b_status set_failed]. rewrite Hst.
    destruct st; cbn in *; lia.
  - destruct (status_eqb (b_status b) st); cbn [List.length]; lia.
Qed.

(** X10: when [expirePendingBookings] returns, the statistics move by the
    number it reports as [expired]: that many reservations leave PENDING
    and enter FAILED, and the other counts and the total stay. *)
Theorem stats_after_expirePendingBookings (e : env) (db : database)
    (timeoutMinutes : Z) (result : expiry_result) :
  fst (run (expirePendingBookings timeoutMinutes) e db) = Return result ->
  let before := select_stats db in
  let after :=
    select_stats (snd (run (expirePendingBookings timeoutMinutes) e db)) in
  (n_pending after + expired result = n_pending before
   /\ n_failed after = n_failed before + expired result
   /\ n_confirmed after = n_confirmed before
   /\ n_cancelled after = n_cancelled before
   /\ n_total after = n_total before)%nat.
Proof.
  intros Hr. destruct (expirePendingBookings_returned _ _ _ _ Hr) as [-> ->].
  cbv zeta. unfold select_stats, count_status.
  cbn [n_pending n_failed n_confirmed n_cancelled n_total expired expiry_report].
  rewrite swept_bookings.
  pose proof (count_after_sweep timeoutMinutes (CURRENT_TIMESTAMP e)
                (Sql.timeout_reason timeoutMinutes) (bookings db)) as H.
  cbv zeta in H.
  pose proof (H PENDING) as Hp. pose proof (H FAILED) as Hf.
  pose proof (H CONFIRMED) as Hc. pose proof (H CANCELLED) as Hx.
  cbn [status_eqb] in Hp, Hf, Hc, Hx.
  rewrite length_map. lia.
Qed.

Lemma stats_after_expirePendingBookings_witness :
  let after :=
    select_stats
      (snd (run (expirePendingBookings 2)
                (calm (3 * Sample.minute) (3 * Sample.minute)) Sample.stale)) in
  n_pending (select_stats Sample.stale) = 1%nat
  /\ n_pending after = 0%nat /\ n_failed after = 1%nat.
Proof.
  intros after.
  destruct (stats_after_expirePendingBookings
              (calm (3 * Sample.minute) (3 * Sample.minute)) Sample.stale 2
              (expiry_report 1))
    as [Hp [Hf _]]; [reflexivity |].
  fold after in Hp, Hf. cbn [expired expiry_report] in Hp, Hf.
  assert (Hb : n_pending (select_stats Sample.stale) = 1%nat) by reflexivity.
  assert (Hb' : n_failed (select_stats Sample.stale) = 0%nat) by reflexivity.
  rewrite Hb in Hp. rewrite Hb' in Hf.
  split; [reflexivity |]. split; [lia | exact Hf].
Defined.

(** X11: when [createBooking] returns, the statistics count one more
    CONFIRMED reservation and one more in total, and nothing else moves. *)
Theorem stats_after_createBooking (e : env) (db : database) (slotId : Z)
    (name email : string) (phone : option string)
    (r : option booking_details) :
  ids_below_seq db ->
  fst (run (createBooking slotId name email phone) e db) = Return r ->
  let before := select_stats db in
  let after :=
    select_stats (snd (run (createBooking slotId name email phone) e db)) in
  n_confirmed after = S (n_confirmed before)
  /\ n_total after = S (n_total before)
  /\ n_pending after = n_pending before
  /\ n_failed after = n_failed before
  /\ n_cancelled after = n_cancelled before.
Proof.
  intros Hseq Hr. rewrite (createBooking_returns _ _ _ _ _ _ _ Hr).
  cbv zeta. unfold select_stats, count_status.
  cbn [n_pending n_failed n_confirmed n_cancelled n_total].
  rewrite created_bookings_fresh by exact Hseq.
  rewrite !filter_app, !length_app. cbn. repeat split; lia.
Qed.

Lemma stats_after_createBooking_witness :
  n_confirmed
    (select_stats
       (snd (run (createBooking 1 "Alice" "alice@example.org" None)
                 (calm 1000 1000) Sample.fresh)))
  = 1%nat.
Proof.
  edestruct (stats_after_createBooking (calm 1000 1000) Sample.fresh 1
               "Alice" "alice@example.org" None)
    as [Hc _].
  - intros b [].
  - vm_compute. reflexivity.
  - exact Hc.
Defined.

Lemma count_status_after_cancel (l : list booking_row) (row : booking_row)
    (ts : Z) (st : status) :
  NoDup (map b_id l) -> In row l -> b_status row <> CANCELLED ->
  let count l :=
    List.length (filter (fun b => status_eqb (b_status b) st) l) in
  (count (map (fun b => if (b_id b =? b_id row)%Z
                        then set_cancelled ts b else b) l)
   + (if status_eqb (b_status row) st then 1 else 0)
   = count l + (if status_eqb CANCELLED st then 1 else 0))%nat.
Proof.
  cbv zeta.
  induction l as [|b l IH]; intros Hnd Hin Hst; [destruct Hin |].
  cbn [map] in Hnd. apply NoDup_cons_iff in Hnd. destruct Hnd as [Hfresh Hnd].
  destruct Hin as [-> | Hin].
  - cbn [map filter]. rewrite Z.eqb_refl.
    rewrite map_unchanged.
    + cbn [b_status set_cancelled].
      destruct (b_status row), st; cbn; try lia; congruence.
    + intros b Hb. destruct (b_id b =? b_id row) eqn:E; [| reflexivity].
      apply Z.eqb_eq in E. exfalso. apply Hfresh. rewrite <- E.
      apply in_map. exact Hb.
  - cbn [map filter].
    assert (Hne : (b_id b =? b_id row) = false).
    { apply Z.eqb_neq. intros E. apply Hfresh. rewrite E.
      apply in_map. exact Hin. }
    rewrite Hne. specialize (IH Hnd Hin Hst).
    destruct (status_eqb (b_status b) st); cbn [List.length]; lia.
Qed.

(** X12: when [cancelBooking] returns and the ids of the table are
    distinct, exactly one reservation changed status: the statistics count
    one more CANCELLED, one less in the status the reservation had, the
    same in every other status and the same total. *)
Theorem stats_after_cancelBooking (e : env) (db : database) (bookingId : Z)
    (r : cancel_result) :
  NoDup (map b_id (bookings db)) ->
  fst (run (cancelBooking bookingId) e db) = Return r ->
  let after := snd (run (cancelBooking bookingId) e db) in
  exists row,
    In row (bookings db) /\ b_id row = bookingId
    /\ b_status row <> CANCELLED
    /\ count_status CANCELLED after = S (count_status CANCELLED db)
    /\ S (count_status (b_status row) after) = count_status (b_status row) db
    /\ (forall st, st <> CANCELLED -> st <> b_status row ->
                   count_status st after = count_status st db)
    /\ n_total (select_stats after) = n_total (select_stats db).
Proof.
  intros Hnd Hr.
  destruct (cancelBooking_returned _ _ _ _ Hr)
    as [row [rest [Hsel [Hst [_ ->]]]]].
  destruct (select_booking_In _ _ _ _ Hsel) as [Hin Hid].
  cbv zeta. exists row.
  split; [exact Hin |]. split; [exact Hid |]. split; [exact Hst |].
  assert (Hcount : forall st,
    (count_status st (cancelled db bookingId (slot_id row) (CURRENT_TIMESTAMP e))
     + (if status_eqb (b_status row) st then 1 else 0)
     = count_status st db + (if status_eqb CANCELLED st then 1 else 0))%nat).
  { intros st. unfold count_status. cbn [cancelled bookings Sql.update_slot
      Sql.cancel_booking with_slots with_bookings]. subst bookingId.
    apply (count_status_after_cancel _ _ _ _ Hnd Hin Hst). }
  split; [| split; [| split]].
  - specialize (Hcount CANCELLED). cbn [status_eqb] in Hcount.
    apply status_eqb_neq in Hst. rewrite Hst in Hcount. lia.
  - specialize (Hcount (b_status row)).
    replace (status_eqb (b_status row) (b_status row)) with true in Hcount
      by (symmetry; apply status_eqb_eq; reflexivity).
    replace (status_eqb CANCELLED (b_status row)) with false in Hcount
      by (symmetry; apply status_eqb_neq; congruence).
    lia.
  - intros st H1 H2. specialize (Hcount st).
    replace (status_eqb (b_status row) st) with false in Hcount
      by (symmetry; apply status_eqb_neq; congruence).
    replace (status_eqb CANCELLED st) with false in Hcount
      by (symmetry; apply status_eqb_neq; congruence).
    lia.
  - unfold select_stats. cbn [n_total cancelled bookings Sql.update_slot
      Sql.cancel_booking with_slots with_bookings].
    apply length_map.
Qed.

Lemma stats_after_cancelBooking_witness :
  count_status CANCELLED
    (snd (run (cancelBooking 1) (calm 1000 1000) Sample.stale))
  = 1%nat.
Proof.
  edestruct (stats_after_cancelBooking (calm 1000 1000) Sample.stale 1)
    as [row [_ [_ [_ [Hc _]]]]].
  - cbn. constructor; [intros [] | constructor].
  - vm_compute. reflexivity.
  - exact Hc.
Defined.

(** ** The expiry job *)

Lemma expirePendingBookings_throws_unchanged (e : env) (db : database)
    (timeoutMinutes : Z) (err : js_error) :
  fst (run (expirePendingBookings timeoutMinutes) e db) = Throw err ->
  snd (run (expirePendingBookings timeoutMinutes) e db) = db.
Proof.
  run_call. unfold Sql.expire_bookings.
  walk; try discriminate; intros _;
    cbn [bookings_id_seq with_bookings with_slots Sql.release_slots];
    first [reflexivity | apply with_seq_same].
Qed.

Lemma tick_run (e : env) (db : database) (timeoutMinutes : Z) :
  run (BookingExpiry.tick timeoutMinutes) e db
  = match run (expirePendingBookings timeoutMinutes) e db with
    | (Return result, db') =>
        (Return (if (0 <? expired result)%nat
                 then [BookingExpiry.console_log (Date_now e) (e_message result)]
                 else []), db')
    | (Throw error, db') =>
        (Return [BookingExpiry.console_error "Error in booking expiry job:"
                   error], db')
    end.
Proof.
  unfold BookingExpiry.tick, run, try_catch, bind, ret, new_Date.
  destruct (expirePendingBookings timeoutMinutes e _) as [[result | error] s].
  - destruct (0 <? expired result)%nat; reflexivity.
  - reflexivity.
Qed.

(** X13: a tick of the expiry job never throws.  Either the store failed:
    the tick writes the error to the console and leaves the database as it
    was; or it did the sweep: the committed database is the swept one, and
    the tick logs the message of the sweep exactly when at least one
    reservation expired. *)
Theorem tick_logs_and_goes_on (e : env) (db : database) (timeoutMinutes : Z) :
  let n := List.length
             (filter (Sql.is_expired timeoutMinutes (CURRENT_TIMESTAMP e))
                     (bookings db)) in
  let out := run (BookingExpiry.tick timeoutMinutes) e db in
  (exists error,
      fst out = Return [BookingExpiry.console_error
                          "Error in booking expiry job:" error]
      /\ snd out = db)
  \/ (fst out = Return (if (0 <? n)%nat
                        then [BookingExpiry.console_log (Date_now e)
                                (expired_message n)]
                        else [])
      /\ snd out = swept db timeoutMinutes (CURRENT_TIMESTAMP e)).
Proof.
  cbv zeta. rewrite tick_run.
  destruct (run (expirePendingBookings timeoutMinutes) e db)
    as [[result | error] db'] eqn:Hrun.
  - right.
    destruct (expirePendingBookings_returned e db timeoutMinutes result)
      as [-> Hdb]; [rewrite Hrun; reflexivity |].
    rewrite Hrun in Hdb. cbn [snd] in Hdb. subst db'.
    cbn [fst snd expired e_message expiry_report]. split; reflexivity.
  - left. exists error. cbn [fst snd]. split; [reflexivity |].
    pose proof (expirePendingBookings_throws_unchanged e db timeoutMinutes error)
      as H.
    rewrite Hrun in H. apply H. reflexivity.
Qed.

(** X14: with [BOOKING_TIMEOUT_MINUTES] unset, unparsable or 0 the job
    sweeps with a timeout of two minutes: a tick the store serves fails
    every PENDING reservation made more than 120000 ms before the
    timestamp of the sweep, with the two-minute reason, and logs the
    sweep. *)
Theorem job_default_timeout (parsed : option Z) (db : database) (ts now : Z)
    (b : booking_row) :
  parsed = None \/ parsed = Some 0 ->
  In b (bookings db) -> b_status b = PENDING ->
  booking_time b < ts - 120000 ->
  let out := run (BookingExpiry.tick (BookingExpiry.timeoutMinutes parsed))
                 (calm ts now) db in
  In (set_failed ts "Booking timeout - not confirmed within 2 minutes" b)
     (bookings (snd out))
  /\ exists n, (0 < n)%nat
               /\ fst out = Return [BookingExpiry.console_log now
                                      (expired_message n)].
Proof.
  intros Hparsed Hin Hst Hold.
  assert (Ht : BookingExpiry.timeoutMinutes parsed = 2)
    by (destruct Hparsed as [-> | ->]; reflexivity).
  assert (Hexp : Sql.is_expired 2 ts b = true)
    by (apply is_expired_spec; split; [exact Hst | lia]).
  cbv zeta. rewrite Ht, tick_run, expirePendingBookings_calm.
  cbn [fst snd expired e_message expiry_report Date_now calm].
  split.
  - rewrite swept_bookings. apply in_map_iff. exists b.
    rewrite Hexp. split; [| exact Hin]. f_equal.
  - assert (Hn : (0 < List.length (filter (Sql.is_expired 2 ts) (bookings db)))%nat).
    { assert (Hf : In b (filter (Sql.is_expired 2 ts) (bookings db)))
        by (apply filter_In; auto).
      destruct (filter (Sql.is_expired 2 ts) (bookings db));
        [destruct Hf | cbn; lia]. }
    eexists. split; [exact Hn |].
    apply Nat.ltb_lt in Hn. rewrite Hn. reflexivity.
Qed.

Lemma job_default_timeout_witness :
  In (set_failed 180000 "Booking timeout - not confirmed within 2 minutes"
        (Sql.new_booking 1 1 "Alice" "alice@example.org" None 0))
     (bookings
        (snd (run (BookingExpiry.tick (BookingExpiry.timeoutMinutes None))
                  (calm 180000 180001) Sample.stale))).
Proof.
  destruct (job_default_timeout None Sample.stale 180000 180001
              (Sql.new_booking 1 1 "Alice" "alice@example.org" None 0))
    as [Hin _].
  - left. reflexivity.
  - left. reflexivity.
  - reflexivity.
  - reflexivity.
  - exact Hin.
Defined.

(** ** The booking requests *)

Lemma createBooking_request_run (e : env) (db : database) (slotId : Z)
    (name email : string) (phone : option string) :
  run (BookingController.createBooking slotId name email phone) e db
  = match run (createBooking slotId name email phone) e db with
    | (Return booking, db') =>
        (Return (Responded (accepted 201 booking None
                              (Some "Booking created successfully"%string))),
         db')
    | (Throw error, db') =>
        (Return (if includes (message error) "not found"
                    || includes (message error) "no longer available"
                    || includes (message error) "past appointments"
                 then Responded (refused 400 (message error))
                 else Next error),
         db')
    end.
Proof.
  unfold BookingController.createBooking, run, try_catch, bind, ret.
  destruct (createBooking slotId name email phone e _) as [[b | err] s].
  - reflexivity.
  - destruct (_ || _); reflexivity.
Qed.


Lemma errorHandler_plain {A} (NODE_ENV : option string)
    (describe : js_error -> thrown) (error : js_error) :
  plain_error describe ->
  let r : response A := errorHandler NODE_ENV (describe error) in
  res_success r = false
  /\ ((code error = Some "23505"%string /\ res_status r = 409)
      \/ (code error <> Some "23505"%string
          /\ code error = Some "23503"%string /\ res_status r = 400)
      \/ (code error <> Some "23505"%string
          /\ code error <> Some "23503"%string
          /\ res_status r = 500
          /\ res_error r = Some (or_else (Some (message error))
                                         "Internal Server Error"))).
Proof.
  intros Hplain. destruct (Hplain error) as [Herr [Hname Hcode]].
  cbv zeta. unfold errorHandler, has_code.
  apply String.eqb_neq in Hname. rewrite Hname, Herr, Hcode.
  destruct (code error) as [c|] eqn:Ec.
  - destruct (String.eqb c "23505") eqn:E1.
    + apply String.eqb_eq in E1. subst c. split; [reflexivity |].
      left. split; reflexivity.
    + apply String.eqb_neq in E1.
      destruct (String.eqb c "23503") eqn:E2.
      * apply String.eqb_eq in E2. subst c. split; [reflexivity |].
        right. left. repeat split. congruence.
      * apply String.eqb_neq in E2. split; [reflexivity |].
        right. right. repeat split; congruence.
  - split; [reflexivity |]. right. right. repeat split; discriminate.
Qed.



(** X17: whatever the store does, a booking request gets exactly one
    answer, with status 201, 400, 409 or 500; the answer reports success
    exactly when its status is 201; and a 201 is only ever sent after the
    booking was committed on a slot that was available. *)
Theorem createBooking_request_answer (e : env) (db : database) (slotId : Z)
    (name email : string) (phone : option string)
    (NODE_ENV : option string) (describe : js_error -> thrown) :
  plain_error describe ->
  let out := run (BookingController.createBooking slotId name email phone)
                 e db in
  exists h,
    fst out = Return h
    /\ let r := answer NODE_ENV describe h in
       (res_status r = 201 \/ res_status r = 400
        \/ res_status r = 409 \/ res_status r = 500)
       /\ (res_status r = 201 <-> res_success r = true)
       /\ (res_status r = 201 ->
           exists slot rest,
             Sql.select_slot db slotId = slot :: rest
             /\ is_available slot = true
             /\ snd out = created db slotId name email phone
                                  (CURRENT_TIMESTAMP e)).
Proof.
  intros Hplain. cbv zeta. rewrite createBooking_request_run.
  pose proof (createBooking_returned e db slotId name email phone) as Hret.
  destruct (run (createBooking slotId name email phone) e db)
    as [[booking | error] db'].
  - eexists. split; [reflexivity |]. cbn [fst snd answer accepted res_status
      res_success] in *.
    split; [auto |]. split; [split; reflexivity |].
    intros _. apply (Hret booking). reflexivity.
  - eexists. split; [reflexivity |]. cbn [fst snd].
    destruct (_ || _).
    + cbn [answer refused res_status res_success].
      split; [auto |]. split; [split; discriminate | discriminate].
    + cbn [answer].
      destruct (errorHandler_plain (A := booking_details) NODE_ENV describe
                  error Hplain)
        as [Hs [[_ Hst] | [[_ [_ Hst]] | [_ [_ [Hst _]]]]]];
        cbv zeta in Hs, Hst; rewrite Hs, Hst;
        (split; [auto |]); (split; [split; discriminate | discriminate]).
Qed.

Lemma createBooking_request_answer_witness :
  exists h,
    fst (run (BookingController.createBooking 1 "Alice" "alice@example.org" None)
             (calm 1000 2000) Sample.fresh) = Return h
    /\ res_status (answer None bare_Error h) = 201.
Proof.
  destruct (createBooking_request_answer (calm 1000 2000) Sample.fresh 1
              "Alice" "alice@example.org" None None bare_Error)
    as [h [Hh _]].
  - intros error. split; [reflexivity |]. split; [discriminate | reflexivity].
  - exists h. split; [exact Hh |].
    assert (E : fst (run (BookingController.createBooking 1 "Alice"
                            "alice@example.org" None)
                         (calm 1000 2000) Sample.fresh)
                = Return (Responded
                            (accepted 201
                               (hd_error (booking_join
                                  (created Sample.fresh 1 "Alice"
                                     "alice@example.org" None 1000) 1))
                               None
                               (Some "Booking created successfully"%string))))
      by (vm_compute; reflexivity).
    rewrite E in Hh. injection Hh as <-. reflexivity.
Defined.

Lemma cancelBooking_request_run (e : env) (db : database) (id : Z) :
  run (BookingController.cancelBooking id) e db
  = match run (cancelBooking id) e db with
    | (Return result, db') =>
        (Return (Responded (accepted 200 None None (Some (c_message result)))),
         db')
    | (Throw error, db') =>
        (Return (if includes (message error) "not found"
                    || includes (message error) "already cancelled"
                 then Responded (refused 400 (message error))
                 else Next error),
         db')
    end.
Proof.
  unfold BookingController.cancelBooking, run, try_catch, bind, ret.
  destruct (cancelBooking id e _) as [[r | err] s].
  - reflexivity.
  - destruct (_ || _); reflexivity.
Qed.

(** X18: whatever the store does, a cancel request gets exactly one answer,
    with status 200, 400, 409 or 500.  A 200 is only ever sent, with the
    message "Booking cancelled successfully", after the reservation, which
    was not CANCELLED, has been cancelled and its slot released; served
    without a fault, the request is answered 400 with the service's message
    when the reservation is missing or already cancelled. *)
Theorem cancelBooking_request_answer (e : env) (db : database) (id : Z)
    (NODE_ENV : option string) (describe : js_error -> thrown) :
  plain_error describe ->
  let out := run (BookingController.cancelBooking id) e db in
  exists h,
    fst out = Return h
    /\ let r := answer NODE_ENV describe h in
       (res_status r = 200 \/ res_status r = 400
        \/ res_status r = 409 \/ res_status r = 500)
       /\ (res_status r = 200 ->
           res_message r = Some "Booking cancelled successfully"%string
           /\ exists row rest,
                Sql.select_booking db id = row :: rest
                /\ b_status row <> CANCELLED
                /\ snd out = cancelled db id (slot_id row)
                                       (CURRENT_TIMESTAMP e))
       /\ (fault e = no_fault ->
           match Sql.select_booking db id with
           | [] => h = Responded (refused 400 "Booking not found")
                   /\ snd out = db
           | row :: _ =>
               b_status row = CANCELLED ->
               h = Responded (refused 400 "Booking already cancelled")
               /\ snd out = db
           end).
Proof.
  intros Hplain. cbv zeta.
  assert (Hcalm : fault e = no_fault ->
                  run (cancelBooking id) e db
                  = run (cancelBooking id)
                        (calm (CURRENT_TIMESTAMP e) (Date_now e)) db).
  { intros Hf. destruct e as [f ts now zone]. cbn in Hf. subst f.
    exact (cancelBooking_any_zone zone id ts now db). }
  rewrite cancelBooking_request_run.
  pose proof (cancelBooking_returned e db id) as Hret.
  destruct (run (cancelBooking id) e db) as [[result | error] db'] eqn:Hrun.
  - eexists. split; [reflexivity |].
    destruct (Hret result eq_refl) as [row [rest [Hsel [Hst [-> Hdb]]]]].
    cbn [fst snd answer accepted res_status res_message c_message
         cancelled_ok] in *.
    split; [auto |]. split.
    + intros _. split; [reflexivity |]. eauto.
    + intros Hf. specialize (Hcalm Hf). rewrite cancelBooking_calm, Hsel in Hcalm.
      apply status_eqb_neq in Hst. rewrite Hst in Hcalm.
      rewrite Hsel. intros Hc. apply status_eqb_neq in Hst. contradiction.
  - eexists. split; [reflexivity |]. cbn [fst snd]. split; [| split].
    + destruct (_ || _).
      * cbn. auto.
      * cbn [answer].
        destruct (errorHandler_plain (A := unit) NODE_ENV describe error Hplain)
          as [_ [[_ Hst] | [[_ [_ Hst]] | [_ [_ [Hst _]]]]]];
          cbv zeta in Hst; rewrite Hst; auto.
    + destruct (_ || _).
      * cbn. discriminate.
      * cbn [answer].
        destruct (errorHandler_plain (A := unit) NODE_ENV describe error Hplain)
          as [_ [[_ Hst] | [[_ [_ Hst]] | [_ [_ [Hst _]]]]]];
          cbv zeta in Hst; rewrite Hst; discriminate.
    + intros Hf. specialize (Hcalm Hf). rewrite cancelBooking_calm in Hcalm.
      destruct (Sql.select_booking db id) as [|row rest].
      * injection Hcalm as -> ->. split; reflexivity.
      * intros Hc. apply status_eqb_eq in Hc. rewrite Hc in Hcalm.
        injection Hcalm as -> ->. split; reflexivity.
Qed.

Lemma cancelBooking_request_answer_witness :
  exists h,
    fst (run (BookingController.cancelBooking 7) (calm 1000 1000) Sample.stale)
    = Return h
    /\ h = Responded (refused 400 "Booking not found").
Proof.
  destruct (cancelBooking_request_answer (calm 1000 1000) Sample.stale 7
              None bare_Error)
    as [h [Hh [_ [_ Hcalm]]]].
  - intros error. split; [reflexivity |]. split; [discriminate | reflexivity].
  - exists h. split; [exact Hh |]. apply (Hcalm eq_refl).
Defined.

(** X19: a request for one booking never writes.  When the store fails the
    error goes to [next]; otherwise, on a database whose references hold,
    the answer is 404 "Booking not found" exactly when no reservation has
    the id, and else 200 with the details of a stored reservation with
    that id. *)
Theorem getBookingById_request (e : env) (db : database) (id : Z) :
  references_hold db ->
  exists h,
    run (BookingController.getBookingById id) e db = (Return h, db)
    /\ match h with
       | Next error => fault e 0%nat = Some error
       | Responded r =>
           fault e 0%nat = None
           /\ ((r = refused 404 "Booking not found"
                /\ forall b, In b (bookings db) -> b_id b <> id)
               \/ exists details,
                    r = accepted 200 (Some details) None None
                    /\ In (booking details) (bookings db)
                    /\ b_id (booking details) = id)
       end.
Proof.
  intros [Hslot Hdoc].
  unfold BookingController.getBookingById. run_call.
  destruct (fault e 0%nat) as [err|] eqn:E; cbn.
  - eexists. split; reflexivity.
  - destruct (booking_join db id) as [|d l] eqn:Hjoin; cbn.
    + eexists. split; [reflexivity |]. split; [reflexivity |]. left.
      split; [reflexivity |]. intros b Hb Hid.
      destruct (Hslot b Hb) as [s [Hs Hsid]].
      destruct (Hdoc s Hs) as [doc [Hd Hdid]].
      assert (Hin : In {| booking := b; j_slot_date := slot_date s;
                          j_slot_time := slot_time s;
                          j_duration_minutes := duration_minutes s;
                          doctor_name := d_name doc;
                          specialization := d_specialization doc |}
                       (booking_join db id)).
      { apply booking_join_In. exists b, s, doc. repeat split; auto. }
      rewrite Hjoin in Hin. destruct Hin.
    + eexists. split; [reflexivity |]. split; [reflexivity |]. right.
      exists d. split; [reflexivity |].
      assert (Hin : In d (booking_join db id)) by (rewrite Hjoin; left; reflexivity).
      apply booking_join_In in Hin.
      destruct Hin as [b [s [doc [Hb [Hid [_ [_ [_ [_ ->]]]]]]]]].
      cbn. auto.
Qed.

Lemma getBookingById_request_witness :
  exists h,
    run (BookingController.getBookingById 7) (calm 1000 1000) Sample.stale
    = (Return h, Sample.stale).
Proof.
  destruct (getBookingById_request (calm 1000 1000) Sample.stale 7)
    as [h [Hh _]].
  - split.
    + intros b [<- | []]. eexists. split; [left; reflexivity | reflexivity].
    + intros s [<- | []]. eexists. split; [left; reflexivity | reflexivity].
  - exists h. exact Hh.
Defined.

(** ** Deleting slots and doctors *)

Lemma deleteSlot_run (e : env) (db : database) (id : Z) :
  run (SlotController.deleteSlot id) e db
  = match fault e 0%nat with
    | Some err => (Return (Next err), db)
    | None =>
        if (0 <? count_active db id)%nat
        then (Return (Responded
                        (refused 400 "Cannot delete slot with active bookings")),
              db)
        else
          match fault e 1%nat with
          | Some err => (Return (Next err), db)
          | None =>
              (Return (match fst (delete_slot id db) with
                       | [] => Responded (refused 404 "Slot not found")
                       | _ :: _ =>
                           Responded
                             (accepted 200 None None
                                (Some "Slot deleted successfully"%string))
                       end),
               snd (delete_slot id db))
          end
    end.
Proof.
  unfold SlotController.deleteSlot, run, try_catch, bind, ret, pool_query,
    pool_execute.
  cbn [sent committed txn]. destruct (fault e 0%nat); [reflexivity |].
  unfold sending. cbn [sent committed txn].
  destruct (0 <? count_active db id)%nat; [reflexivity |].
  cbn [sent committed txn].
  destruct (fault e 1%nat); [reflexivity |].
  unfold delete_slot. cbn [fst snd].
  destruct (filter (fun s => s_id s =? id) (appointment_slots db)); reflexivity.
Qed.

Lemma count_active_none (db : database) (id : Z) (b : booking_row) :
  (0 <? count_active db id)%nat = false ->
  In b (bookings db) -> slot_id b = id -> active (b_status b) = false.
Proof.
  unfold count_active. intros Hcount Hin Hid.
  destruct (active (b_status b)) eqn:Hact; [| reflexivity].
  assert (Hf : In b (filter (fun b => (slot_id b =? id)
                                      && (status_eqb (b_status b) PENDING
                                          || status_eqb (b_status b) CONFIRMED))
                            (bookings db))).
  { apply filter_In. split; [exact Hin |].
    rewrite Hid, Z.eqb_refl. destruct (b_status b); cbn in *; congruence. }
  destruct (filter _ (bookings db)); [destruct Hf | discriminate Hcount].
Qed.

Lemma delete_slot_bookings (db : database) (id : Z) (b : booking_row) :
  In b (bookings (snd (delete_slot id db)))
  <-> In b (bookings db)
      /\ (slot_id b = id ->
          forall s, In s (appointment_slots db) -> s_id s <> id).
Proof.
  unfold delete_slot. cbn [snd bookings]. rewrite filter_In.
  split; intros [Hin H]; (split; [exact Hin |]).
  - intros Hid s Hs Hsid.
    apply negb_true_iff in H.
    assert (Hex : existsb (fun s => slot_id b =? s_id s)
                    (filter (fun s => s_id s =? id) (appointment_slots db))
                  = true).
    { apply existsb_exists. exists s. split.
      - apply filter_In. split; [exact Hs |]. apply Z.eqb_eq. exact Hsid.
      - apply Z.eqb_eq. congruence. }
    congruence.
  - apply negb_true_iff. destruct (existsb _ _) eqn:Hex; [| reflexivity].
    apply existsb_exists in Hex. destruct Hex as [s [Hs Heq]].
    apply filter_In in Hs. destruct Hs as [Hs Hsid].
    apply Z.eqb_eq in Heq, Hsid. exfalso.
    apply (H (eq_trans Heq Hsid) s Hs Hsid).
Qed.

(** X20: a [deleteSlot] request that runs alone, no other transaction
    committing between its check and its [DELETE] (the two are separate
    statements, each committed on its own), never deletes a PENDING or
    CONFIRMED reservation, whatever errors the store raises: every such
    reservation is still there after the request.  It adds nothing,
    changes no row it keeps, touches no slot with another id and no
    doctor; and every reservation it keeps still refers to a slot if it
    did before. *)
Theorem deleteSlot_spares_active_bookings (e : env) (db : database) (id : Z) :
  let db' := snd (run (SlotController.deleteSlot id) e db) in
  (forall b, In b (bookings db) -> active (b_status b) = true ->
             In b (bookings db'))
  /\ (forall b, In b (bookings db') -> In b (bookings db))
  /\ (forall s, In s (appointment_slots db') -> In s (appointment_slots db))
  /\ (forall s, In s (appointment_slots db) -> s_id s <> id ->
                In s (appointment_slots db'))
  /\ doctors db' = doctors db
  /\ (forall b, In b (bookings db') ->
                (exists s, In s (appointment_slots db) /\ s_id s = slot_id b) ->
                exists s, In s (appointment_slots db') /\ s_id s = slot_id b).
Proof.
  cbv zeta. rewrite deleteSlot_run.
  destruct (fault e 0%nat); [cbn [snd]; repeat split; auto |].
  destruct (0 <? count_active db id)%nat eqn:Hcount;
    [cbn [snd]; repeat split; auto |].
  destruct (fault e 1%nat); [cbn [snd]; repeat split; auto |].
  cbn [snd]. split; [| split; [| split; [| split; [| split]]]].
  - intros b Hin Hact. apply delete_slot_bookings. split; [exact Hin |].
    intros Hid. rewrite (count_active_none db id b Hcount Hin Hid) in Hact.
    discriminate.
  - intros b Hb. apply delete_slot_bookings in Hb. tauto.
  - intros s Hs. cbn in Hs. apply filter_In in Hs. tauto.
  - intros s Hs Hne. cbn. apply filter_In. split; [exact Hs |].
    apply negb_true_iff, Z.eqb_neq. exact Hne.
  - reflexivity.
  - intros b Hb [s [Hs Hsid]]. apply delete_slot_bookings in Hb.
    destruct Hb as [_ Hb]. exists s. split; [| exact Hsid].
    cbn. apply filter_In. split; [exact Hs |].
    apply negb_true_iff, Z.eqb_neq. intros Hid.
    apply (Hb (eq_trans (eq_sym Hsid) Hid) s Hs Hid).
Qed.

Lemma filter_filter_implied {A} (f g : A -> bool) (l : list A) :
  (forall x, In x l -> f x = true -> g x = true) ->
  filter f (filter g l) = filter f l.
Proof.
  induction l as [|x l IH]; intros H; [reflexivity |].
  cbn [filter]. destruct (g x) eqn:Eg.
  - cbn [filter]. rewrite IH by (intros y Hy; apply H; right; exact Hy).
    reflexivity.
  - destruct (f x) eqn:Ef.
    + rewrite H in Eg; [discriminate | left; reflexivity | exact Ef].
    + apply IH. intros y Hy. apply H. right. exact Hy.
Qed.

Lemma filter_all {A} (f : A -> bool) (l : list A) :
  (forall x, In x l -> f x = true) -> filter f l = l.
Proof.
  intros H. induction l as [|x l IH]; cbn; [reflexivity |].
  rewrite (H x) by (left; reflexivity).
  rewrite IH; [reflexivity |]. intros y Hy. apply H. right. exact Hy.
Qed.

Lemma delete_slot_active_on (db : database) (id sid : Z) :
  sid <> id ->
  active_on (snd (delete_slot id db)) sid = active_on db sid.
Proof.
  intros Hne. unfold active_on, delete_slot. cbn [snd bookings].
  apply filter_filter_implied. intros b _ Hholds.
  unfold holds in Hholds. apply andb_prop in Hholds.
  destruct Hholds as [Hsid _]. apply Z.eqb_eq in Hsid.
  apply negb_true_iff. destruct (existsb _ _) eqn:Hex; [| reflexivity].
  apply existsb_exists in Hex. destruct Hex as [s [Hs Heq]].
  apply filter_In in Hs. destruct Hs as [_ Hs].
  apply Z.eqb_eq in Heq, Hs. congruence.
Qed.

(** X21: [deleteSlot] keeps the slot invariant: if before the request
    every slot is unavailable exactly when one active reservation refers
    to it, the same holds after it, whatever the store does. *)
Theorem deleteSlot_keeps_slot_invariant (e : env) (db : database) (id : Z) :
  slot_invariant db ->
  slot_invariant (snd (run (SlotController.deleteSlot id) e db)).
Proof.
  intros Hinv. rewrite deleteSlot_run.
  destruct (fault e 0%nat); [exact Hinv |].
  destruct (0 <? count_active db id)%nat; [exact Hinv |].
  destruct (fault e 1%nat); [exact Hinv |].
  cbn [snd]. intros s Hs.
  assert (Hin : In s (appointment_slots db) /\ s_id s <> id).
  { cbn in Hs. apply filter_In in Hs. destruct Hs as [Hs Hne].
    apply negb_true_iff, Z.eqb_neq in Hne. auto. }
  destruct Hin as [Hin Hne].
  rewrite (delete_slot_active_on db id (s_id s) Hne). apply Hinv. exact Hin.
Qed.

Lemma deleteSlot_keeps_slot_invariant_witness :
  slot_invariant
    (snd (run (SlotController.deleteSlot 1) (calm 1000 1000) Sample.stale)).
Proof.
  apply deleteSlot_keeps_slot_invariant.
  intros s [<- | []]. cbn. split; reflexivity.
Defined.

(** X22: served by the store without a fault, [deleteSlot] answers 400
    and deletes nothing when a PENDING or CONFIRMED reservation refers to
    the slot; otherwise 404, the rows unchanged, when no slot has the id;
    otherwise 200, and then no slot has the id any more and the FAILED and
    CANCELLED reservations that referred to it are deleted with it: no
    reservation refers to the id. *)
Theorem deleteSlot_answers (db : database) (id ts now : Z) :
  let out := run (SlotController.deleteSlot id) (calm ts now) db in
  ((exists b, In b (bookings db) /\ slot_id b = id
              /\ active (b_status b) = true) ->
   out = (Return (Responded
                    (refused 400 "Cannot delete slot with active bookings")),
          db))
  /\ ((forall b, In b (bookings db) -> slot_id b = id ->
                 active (b_status b) = false) ->
      (forall s, In s (appointment_slots db) -> s_id s <> id) ->
      fst out = Return (Responded (refused 404 "Slot not found"))
      /\ same_rows (snd out) db)
  /\ ((forall b, In b (bookings db) -> slot_id b = id ->
                 active (b_status b) = false) ->
      (exists s, In s (appointment_slots db) /\ s_id s = id) ->
      fst out = Return (Responded
                          (accepted 200 None None
                             (Some "Slot deleted successfully"%string)))
      /\ (forall s, In s (appointment_slots (snd out)) -> s_id s <> id)
      /\ (forall b, In b (bookings (snd out)) -> slot_id b <> id)).
Proof.
  cbv zeta. rewrite deleteSlot_run. cbn [fault calm no_fault].
  assert (Hzero : (forall b, In b (bookings db) -> slot_id b = id ->
                             active (b_status b) = false) ->
                  (0 <? count_active db id)%nat = false).
  { intros Hnone. unfold count_active.
    rewrite filter_none; [reflexivity |].
    intros b Hb. destruct (slot_id b =? id) eqn:E; [| reflexivity].
    apply Z.eqb_eq in E. specialize (Hnone b Hb E).
    destruct (b_status b); cbn in *; congruence. }
  split; [| split].
  - intros [b [Hb [Hid Hact]]].
    destruct (0 <? count_active db id)%nat eqn:Hcount; [reflexivity |].
    rewrite (count_active_none db id b Hcount Hb Hid) in Hact. discriminate.
  - intros Hnone Hslot. rewrite (Hzero Hnone). unfold delete_slot.
    cbn [fst snd].
    assert (Hdel : filter (fun s => s_id s =? id) (appointment_slots db) = []).
    { apply filter_none. intros s Hs. apply Z.eqb_neq. apply Hslot. exact Hs. }
    rewrite Hdel. split; [reflexivity |].
    split; [reflexivity |]. split; cbn.
    + apply filter_all. intros s Hs. apply negb_true_iff, Z.eqb_neq.
      apply Hslot. exact Hs.
    + apply filter_all. intros; reflexivity.
  - intros Hnone [s [Hs Hsid]]. rewrite (Hzero Hnone).
    cbn [fst snd]. split; [| split].
    + unfold delete_slot. cbn [fst].
      assert (Hin : In s (filter (fun s => s_id s =? id) (appointment_slots db)))
        by (apply filter_In; split; [exact Hs | apply Z.eqb_eq; exact Hsid]).
      destruct (filter (fun s => s_id s =? id) (appointment_slots db));
        [destruct Hin | reflexivity].
    + intros s' Hs'. cbn in Hs'. apply filter_In in Hs'.
      destruct Hs' as [_ Hne]. apply negb_true_iff, Z.eqb_neq in Hne. exact Hne.
    + intros b Hb Hid. apply delete_slot_bookings in Hb.
      destruct Hb as [_ Hb]. apply (Hb Hid s Hs Hsid).
Qed.

Lemma deleteDoctor_run (db : database) (id ts now : Z) :
  run (DoctorController.deleteDoctor id) (calm ts now) db
  = (Return (match fst (delete_doctor id db) with
             | [] => Responded (refused 404 "Doctor not found")
             | _ :: _ =>
                 Responded (accepted 200 None None
                              (Some "Doctor deleted successfully"%string))
             end),
     snd (delete_doctor id db)).
Proof.
  unfold DoctorController.deleteDoctor, run, try_catch, bind, ret, pool_execute.
  cbn [fault calm no_fault sent committed txn].
  unfold delete_doctor. cbn [fst snd].
  destruct (filter (fun d => d_id d =? id) (doctors db)); reflexivity.
Qed.

Lemma orphaned_iff (db : database) (id : Z) (s : slot_row) :
  (exists d, In d (doctors db) /\ d_id d = id) ->
  existsb (fun d => doctor_id s =? d_id d)
          (filter (fun d => d_id d =? id) (doctors db)) = true
  <-> doctor_id s = id.
Proof.
  intros [d [Hd Hid]]. rewrite existsb_exists. split.
  - intros [d' [Hd' Heq]]. apply filter_In in Hd'. destruct Hd' as [_ Hd'].
    apply Z.eqb_eq in Heq, Hd'. congruence.
  - intros Hs. exists d. split.
    + apply filter_In. split; [exact Hd | apply Z.eqb_eq; exact Hid].
    + apply Z.eqb_eq. congruence.
Qed.

(** X23: [deleteDoctor] checks nothing before it deletes.  Served without
    a fault for a doctor that exists, it answers 200 and the cascade
    removes the doctor, every slot of the doctor and every reservation on
    such a slot, whatever its status, CONFIRMED and PENDING included; the
    other doctors, slots and reservations stay. *)
Theorem deleteDoctor_deletes_reservations (db : database) (id ts now : Z) :
  (exists d, In d (doctors db) /\ d_id d = id) ->
  let out := run (DoctorController.deleteDoctor id) (calm ts now) db in
  fst out = Return (Responded
                      (accepted 200 None None
                         (Some "Doctor deleted successfully"%string)))
  /\ (forall d, In d (doctors (snd out))
                <-> In d (doctors db) /\ d_id d <> id)
  /\ (forall s, In s (appointment_slots (snd out))
                <-> In s (appointment_slots db) /\ doctor_id s <> id)
  /\ (forall b, In b (bookings (snd out))
                <-> In b (bookings db)
                    /\ forall s, In s (appointment_slots db) ->
                                 s_id s = slot_id b -> doctor_id s <> id).
Proof.
  intros Hdoc. cbv zeta. rewrite deleteDoctor_run. cbn [fst snd].
  split; [| split; [| split]].
  - destruct Hdoc as [d [Hd Hid]]. unfold delete_doctor. cbn [fst].
    assert (Hin : In d (filter (fun d => d_id d =? id) (doctors db)))
      by (apply filter_In; split; [exact Hd | apply Z.eqb_eq; exact Hid]).
    destruct (filter (fun d => d_id d =? id) (doctors db));
      [destruct Hin | reflexivity].
  - intros d. cbn. rewrite filter_In, negb_true_iff, Z.eqb_neq. reflexivity.
  - intros s. cbn. rewrite filter_In, negb_true_iff.
    rewrite <- (orphaned_iff db id s Hdoc), not_true_iff_false. reflexivity.
  - intros b. cbn. rewrite filter_In, negb_true_iff.
    split; intros [Hb H]; (split; [exact Hb |]).
    + intros s Hs Hsid Hd.
      assert (Hex : existsb (fun s => slot_id b =? s_id s)
                      (filter
                         (fun s => existsb (fun d => doctor_id s =? d_id d)
                                     (filter (fun d => d_id d =? id)
                                             (doctors db)))
                         (appointment_slots db)) = true).
      { apply existsb_exists. exists s. split.
        - apply filter_In. split; [exact Hs |].
          apply (orphaned_iff db id s Hdoc). exact Hd.
        - apply Z.eqb_eq. congruence. }
      congruence.
    + destruct (existsb _ _) eqn:Hex; [| reflexivity].
      apply existsb_exists in Hex. destruct Hex as [s [Hs Heq]].
      apply filter_In in Hs. destruct Hs as [Hs Horph].
      apply (orphaned_iff db id s Hdoc) in Horph. apply Z.eqb_eq in Heq.
      exfalso. apply (H s Hs (eq_sym Heq) Horph).
Qed.

Lemma deleteDoctor_deletes_reservations_witness :
  let booked :=
    created Sample.fresh 1 "Alice" "alice@example.org" None 1000 in
  let confirmed :=
    set_confirmed 1000
      (Sql.new_booking 1 1 "Alice" "alice@example.org" None 1000) in
  In confirmed (bookings booked)
  /\ ~ In confirmed
        (bookings (snd (run (DoctorController.deleteDoctor 1)
                            (calm 2000 2000) booked))).
Proof.
  intros booked confirmed.
  destruct (deleteDoctor_deletes_reservations booked 1 2000 2000)
    as [_ [_ [_ Hbook]]].
  - exists Sample.dr_johnson. split; [left; reflexivity | reflexivity].
  - split; [left; reflexivity |].
    intros Hin. apply Hbook in Hin. destruct Hin as [_ Hin].
    apply (Hin (set_available false 1000 Sample.slot1));
      [left; reflexivity | reflexivity | reflexivity].
Defined.

(** ** The listings *)

Lemma insert_ordered_In {A} (le : A -> A -> bool) (x y : A) (l : list A) :
  In y (insert_ordered le x l) <-> y = x \/ In y l.
Proof.
  induction l as [|z l IH]; cbn.
  - intuition congruence.
  - destruct (le x z); cbn; rewrite ?IH; intuition congruence.
Qed.

Lemma order_by_In {A} (le : A -> A -> bool) (y : A) (l : list A) :
  In y (order_by le l) <-> In y l.
Proof.
  induction l as [|x l IH]; [reflexivity |].
  change (order_by le (x :: l)) with (insert_ordered le x (order_by le l)).
  rewrite insert_ordered_In, IH. cbn. intuition congruence.
Qed.

Lemma insert_ordered_length {A} (le : A -> A -> bool) (x : A) (l : list A) :
  List.length (insert_ordered le x l) = S (List.length l).
Proof.
  induction l as [|z l IH]; cbn; [reflexivity |].
  destruct (le x z); cbn; [reflexivity | rewrite IH; reflexivity].
Qed.

Lemma order_by_length {A} (le : A -> A -> bool) (l : list A) :
  List.length (order_by le l) = List.length l.
Proof.
  induction l as [|x l IH]; [reflexivity |].
  change (order_by le (x :: l)) with (insert_ordered le x (order_by le l)).
  rewrite insert_ordered_length, IH. reflexivity.
Qed.

Lemma insert_ordered_in_order {A} (le : A -> A -> bool) (x : A) (l : list A) :
  (forall a b, le a b = false -> le b a = true) ->
  in_order le l -> in_order le (insert_ordered le x l).
Proof.
  intros Htotal. induction l as [|y l IH]; intros Hl; [cbn; auto |].
  cbn [insert_ordered]. destruct (le x y) eqn:E.
  - split; [exact E | exact Hl].
  - destruct Hl as [Hy Hl]. specialize (IH Hl).
    destruct l as [|z l]; cbn [insert_ordered] in *.
    + split; [apply Htotal; exact E | exact IH].
    + destruct (le x z).
      * split; [apply Htotal; exact E | exact IH].
      * split; [exact Hy | exact IH].
Qed.

Lemma order_by_in_order {A} (le : A -> A -> bool) (l : list A) :
  (forall a b, le a b = false -> le b a = true) ->
  in_order le (order_by le l).
Proof.
  intros Htotal. induction l as [|x l IH]; [exact I |].
  change (order_by le (x :: l)) with (insert_ordered le x (order_by le l)).
  apply insert_ordered_in_order; assumption.
Qed.

Lemma join_bookings_In (keep : booking_row -> bool) (db : database)
    (d : booking_details) :
  In d (join_bookings keep db) <->
  exists b s doc,
    In b (bookings db) /\ keep b = true
    /\ In s (appointment_slots db) /\ s_id s = slot_id b
    /\ In doc (doctors db) /\ d_id doc = doctor_id s
    /\ d = {| booking := b; j_slot_date := slot_date s;
              j_slot_time := slot_time s;
              j_duration_minutes := duration_minutes s;
              doctor_name := d_name doc;
              specialization := d_specialization doc |}.
Proof.
  unfold join_bookings. rewrite in_flat_map. split.
  - intros [b [Hb Hd]]. apply filter_In in Hb. destruct Hb as [Hb Hkeep].
    apply in_flat_map in Hd. destruct Hd as [s [Hs Hd]].
    apply filter_In in Hs. destruct Hs as [Hs Hsid].
    apply in_map_iff in Hd. destruct Hd as [doc [Heq Hdoc]].
    apply filter_In in Hdoc. destruct Hdoc as [Hdoc Hdid].
    apply Z.eqb_eq in Hsid, Hdid.
    exists b, s, doc. repeat split; auto.
  - intros [b [s [doc [Hb [Hkeep [Hs [Hsid [Hdoc [Hdid ->]]]]]]]]].
    exists b. split; [apply filter_In; auto |].
    apply in_flat_map. exists s.
    split; [apply filter_In; split; [exact Hs | apply Z.eqb_eq; auto] |].
    apply in_map_iff. exists doc. split; [reflexivity |].
    apply filter_In. split; [exact Hdoc | apply Z.eqb_eq; auto].
Qed.

Lemma available_slots_In (LOWER : string -> string) (doctor date : option Z)
    (sp : option string) (today : Z) (db : database) (x : slot_details) :
  In x (select_available_slots LOWER doctor date sp today db) <->
  exists d,
    In (slot x) (appointment_slots db)
    /\ wanted_slot doctor date today (slot x) = true
    /\ In d (doctors db)
    /\ wanted_doctor LOWER sp (slot x) d = true
    /\ sd_doctor_name x = d_name d
    /\ sd_specialization x = d_specialization d.
Proof.
  unfold select_available_slots. rewrite order_by_In, in_flat_map. split.
  - intros [s [Hs Hx]]. apply filter_In in Hs. destruct Hs as [Hs Hw].
    apply in_map_iff in Hx. destruct Hx as [d [<- Hd]].
    apply filter_In in Hd. destruct Hd as [Hd Hwd].
    exists d. cbn. auto 7.
  - intros [d [Hs [Hw [Hd [Hwd [Hn Hsp]]]]]].
    exists (slot x). split; [apply filter_In; auto |].
    apply in_map_iff. exists d.
    split; [destruct x; cbn in *; congruence | apply filter_In; auto].
Qed.

Lemma getAvailableSlots_run (LOWER : string -> string) (doctor date : option Z)
    (sp : option string) (e : env) (db : database) :
  run (SlotController.getAvailableSlots LOWER doctor date sp) e db
  = match fault e 0%nat with
    | Some err => (Return (Next err), db)
    | None =>
        let rows := select_available_slots LOWER doctor date sp
                      (CURRENT_DATE (CURRENT_TIMESTAMP e)) db in
        (Return (Responded (accepted 200 (Some rows)
                              (Some (List.length rows)) None)), db)
    end.
Proof.
  unfold SlotController.getAvailableSlots, run, try_catch, bind, ret,
    pool_query.
  cbn [sent committed]. destruct (fault e 0%nat); reflexivity.
Qed.

(** X24: served without a fault, [getAvailableSlots] writes nothing and
    answers 200 with the rows of its query and their number.  Every row is
    a stored slot that is available and dated today or later, of the
    requested doctor and date when these are given, joined with its
    doctor, whose specialization matches the requested one (compared
    under [LOWER]) when one is given; without parameters every such slot
    with a doctor is listed; and the rows are ordered by date, then time. *)
Theorem getAvailableSlots_lists (LOWER : string -> string)
    (doctor date : option Z) (sp : option string) (db : database)
    (ts now : Z) :
  let today := CURRENT_DATE ts in
  let rows := select_available_slots LOWER doctor date sp today db in
  run (SlotController.getAvailableSlots LOWER doctor date sp) (calm ts now) db
  = (Return (Responded (accepted 200 (Some rows) (Some (List.length rows))
                          None)), db)
  /\ (forall x, In x rows ->
        In (slot x) (appointment_slots db)
        /\ is_available (slot x) = true
        /\ today <= slot_date (slot x)
        /\ (forall i, doctor = Some i -> doctor_id (slot x) = i)
        /\ (forall day, date = Some day -> slot_date (slot x) = day)
        /\ exists d,
             In d (doctors db) /\ d_id d = doctor_id (slot x)
             /\ sd_doctor_name x = d_name d
             /\ sd_specialization x = d_specialization d
             /\ (forall s, given sp = Some s ->
                           LOWER (d_specialization d) = LOWER s))
  /\ (doctor = None -> date = None -> given sp = None ->
      forall s d,
        In s (appointment_slots db) -> In d (doctors db) ->
        d_id d = doctor_id s -> is_available s = true ->
        today <= slot_date s ->
        In {| slot := s; sd_doctor_name := d_name d;
              sd_specialization := d_specialization d |} rows)
  /\ in_order
       (fun x y =>
          (slot_date (slot x) <? slot_date (slot y))
          || ((slot_date (slot x) =? slot_date (slot y))
              && (slot_time (slot x) <=? slot_time (slot y))))
       rows.
Proof.
  cbv zeta. split; [| split; [| split]].
  - rewrite getAvailableSlots_run. reflexivity.
  - intros x Hx. apply available_slots_In in Hx.
    destruct Hx as [d [Hs [Hw [Hd [Hwd [Hn Hsp]]]]]].
    unfold wanted_slot in Hw. unfold wanted_doctor in Hwd.
    apply andb_prop in Hw. destruct Hw as [Hw Hdate].
    apply andb_prop in Hw. destruct Hw as [Hw Hdoc].
    apply andb_prop in Hw. destruct Hw as [Hav Htoday].
    apply andb_prop in Hwd. destruct Hwd as [Hid Hspec].
    apply Z.leb_le in Htoday. apply Z.eqb_eq in Hid.
    split; [exact Hs |]. split; [exact Hav |]. split; [exact Htoday |].
    split; [intros i ->; apply Z.eqb_eq; exact Hdoc |].
    split; [intros day ->; apply Z.eqb_eq; exact Hdate |].
    exists d. split; [exact Hd |]. split; [congruence |].
    split; [exact Hn |]. split; [exact Hsp |].
    intros s Hgiven. rewrite Hgiven in Hspec. apply String.eqb_eq. exact Hspec.
  - intros -> -> Hnone s d Hs Hd Hid Hav Htoday.
    apply available_slots_In. exists d. cbn [slot sd_doctor_name
      sd_specialization]. unfold wanted_slot, wanted_doctor.
    rewrite Hnone, Hav, <- Hid, Z.eqb_refl.
    apply Z.leb_le in Htoday. rewrite Htoday. repeat split; auto.
  - apply order_by_in_order. intros a b H.
    apply orb_false_iff in H. destruct H as [H1 H2].
    apply Z.ltb_ge in H1. apply orb_true_iff.
    destruct (Z.eq_dec (slot_date (slot a)) (slot_date (slot b))) as [E | E].
    + right. rewrite E in H2 |- *. rewrite Z.eqb_refl in H2 |- *.
      cbn in H2 |- *. apply Z.leb_gt in H2. apply Z.leb_le. lia.
    + left. apply Z.ltb_lt. lia.
Qed.

(** X25: once [createBooking] has returned for a slot, no listing of
    available slots, whatever its parameters and its date, shows a slot
    with that id. *)
Theorem booked_slot_is_not_offered (e : env) (db : database) (slotId : Z)
    (name email : string) (phone : option string)
    (r : option booking_details) :
  fst (run (createBooking slotId name email phone) e db) = Return r ->
  forall (LOWER : string -> string) (doctor date : option Z)
         (sp : option string) (today : Z) (x : slot_details),
    In x (select_available_slots LOWER doctor date sp today
            (snd (run (createBooking slotId name email phone) e db))) ->
    s_id (slot x) <> slotId.
Proof.
  intros Hr LOWER doctor date sp today x Hx.
  rewrite (createBooking_returns _ _ _ _ _ _ _ Hr) in Hx.
  apply available_slots_In in Hx. destruct Hx as [_ [Hs [Hw _]]].
  rewrite created_slots in Hs. apply in_map_iff in Hs.
  destruct Hs as [s [Heq Hs]]. unfold wanted_slot in Hw.
  destruct (s_id s =? slotId) eqn:E.
  - rewrite <- Heq in Hw. cbn in Hw. discriminate.
  - apply Z.eqb_neq in E. congruence.
Qed.

Lemma booked_slot_is_not_offered_witness :
  select_available_slots (fun s => s) None None None 0
    (snd (run (createBooking 1 "Alice" "alice@example.org" None)
              (calm 1000 1000) Sample.fresh))
  = [].
Proof.
  destruct (select_available_slots (fun s => s) None None None 0
              (snd (run (createBooking 1 "Alice" "alice@example.org" None)
                        (calm 1000 1000) Sample.fresh)))
    as [|x rows] eqn:Hrows; [reflexivity |].
  exfalso.
  assert (Hx : In x (select_available_slots (fun s => s) None None None 0
                (snd (run (createBooking 1 "Alice" "alice@example.org" None)
                          (calm 1000 1000) Sample.fresh))))
    by (rewrite Hrows; left; reflexivity).
  pose proof Hx as Hin. apply available_slots_In in Hin.
  destruct Hin as [_ [[Hs | []] _]].
  eapply (booked_slot_is_not_offered (calm 1000 1000) Sample.fresh 1
            "Alice" "alice@example.org" None);
    [vm_compute; reflexivity | exact Hx |].
  rewrite <- Hs. reflexivity.
Defined.




(** X27: once [cancelBooking] has returned, the slot of the cancelled
    reservation is offered again: every slot with that id whose doctor
    exists and whose date is today or later appears, as available, in the
    listing without parameters. *)
Theorem cancelled_slot_is_offered_again (e : env) (db : database)
    (bookingId : Z) (r : cancel_result) :
  fst (run (cancelBooking bookingId) e db) = Return r ->
  exists row,
    In row (bookings db) /\ b_id row = bookingId
    /\ forall (LOWER : string -> string) (today : Z) (s : slot_row)
              (d : doctor_row),
         In s (appointment_slots db) -> s_id s = slot_id row ->
         In d (doctors db) -> d_id d = doctor_id s ->
         today <= slot_date s ->
         In {| slot := set_available true (CURRENT_TIMESTAMP e) s;
               sd_doctor_name := d_name d;
               sd_specialization := d_specialization d |}
            (select_available_slots LOWER None None None today
               (snd (run (cancelBooking bookingId) e db))).
Proof.
  intros Hr.
  destruct (cancelBooking_returned _ _ _ _ Hr)
    as [row [rest [Hsel [_ [_ ->]]]]].
  destruct (select_booking_In _ _ _ _ Hsel) as [Hin Hid].
  exists row. split; [exact Hin |]. split; [exact Hid |].
  intros LOWER today s d Hs Hsid Hd Hdid Htoday.
  apply available_slots_In. exists d.
  cbn [slot sd_doctor_name sd_specialization].
  split; [| split; [| split; [exact Hd | split; [| split; reflexivity]]]].
  - cbn. apply in_map_iff. exists s. split; [| exact Hs].
    rewrite Hsid, Z.eqb_refl. reflexivity.
  - unfold wanted_slot. cbn. apply Z.leb_le in Htoday. rewrite Htoday.
    reflexivity.
  - unfold wanted_doctor. cbn. rewrite <- Hdid, Z.eqb_refl. reflexivity.
Qed.

Lemma cancelled_slot_is_offered_again_witness :
  exists x,
    In x (select_available_slots (fun s => s) None None None 0
            (snd (run (cancelBooking 1) (calm 1000 1000) Sample.stale)))
    /\ s_id (slot x) = 1.
Proof.
  destruct (cancelled_slot_is_offered_again (calm 1000 1000) Sample.stale 1
              cancelled_ok)
    as [row [Hrow [_ Hlisted]]]; [vm_compute; reflexivity |].
  destruct Hrow as [<- | []].
  eexists. split.
  - apply (Hlisted (fun s => s) 0 (set_available false 0 Sample.slot1)
             Sample.dr_johnson);
      [left; reflexivity | reflexivity | left; reflexivity | reflexivity |].
    cbn. lia.
  - reflexivity.
Defined.

Lemma filter_key_unique {A} (key : A -> Z) (l : list A) (x : A) :
  NoDup (map key l) -> In x l ->
  filter (fun y => key x =? key y) l = [x].
Proof.
  induction l as [|y l IH]; intros Hnd Hin; [destruct Hin |].
  cbn [map] in Hnd. apply NoDup_cons_iff in Hnd. destruct Hnd as [Hfresh Hnd].
  cbn [filter]. destruct Hin as [-> | Hin].
  - rewrite Z.eqb_refl. f_equal. apply filter_none. intros z Hz.
    apply Z.eqb_neq. intros E. apply Hfresh. rewrite E.
    apply in_map. exact Hz.
  - assert (Hne : (key x =? key y) = false).
    { apply Z.eqb_neq. intros E. apply Hfresh. rewrite <- E.
      apply in_map. exact Hin. }
    rewrite Hne. apply IH; assumption.
Qed.

Lemma join_bookings_length (keep : booking_row -> bool) (db : database) :
  references_hold db ->
  NoDup (map s_id (appointment_slots db)) ->
  NoDup (map d_id (doctors db)) ->
  List.length (join_bookings keep db)
  = List.length (filter keep (bookings db)).
Proof.
  intros [Hslot Hdoc] Hs Hd. unfold join_bookings.
  assert (Hall : forall b, In b (filter keep (bookings db)) ->
                           In b (bookings db))
    by (intros b Hb; apply filter_In in Hb; tauto).
  induction (filter keep (bookings db)) as [|b l IH]; [reflexivity |].
  cbn [flat_map]. rewrite length_app, IH
    by (intros y Hy; apply Hall; right; exact Hy).
  destruct (Hslot b (Hall b (or_introl eq_refl))) as [s [Hin Hsid]].
  destruct (Hdoc s Hin) as [doc [Hdin Hdid]].
  rewrite (filter_ext _ (fun s' => s_id s =? s_id s'))
    by (intros s'; rewrite Hsid; reflexivity).
  rewrite (filter_key_unique s_id _ s Hs Hin). cbn [flat_map].
  rewrite (filter_ext _ (fun d => d_id doc =? d_id d))
    by (intros d; rewrite Hdid; reflexivity).
  rewrite (filter_key_unique d_id _ doc Hd Hdin). reflexivity.
Qed.

Lemma status_name_eqb (a b : status) :
  String.eqb (status_name a) (status_name b) = status_eqb a b.
Proof. destruct a, b; reflexivity. Qed.

Lemma getAllBookings_run (toUpperCase : string -> string)
    (q_status q_patient_email : option string) (e : env) (db : database) :
  run (BookingController.getAllBookings toUpperCase q_status q_patient_email)
      e db
  = match fault e 0%nat with
    | Some err => (Return (Next err), db)
    | None =>
        let rows := select_bookings toUpperCase q_status q_patient_email db in
        (Return (Responded (accepted 200 (Some rows)
                              (Some (List.length rows)) None)), db)
    end.
Proof.
  unfold BookingController.getAllBookings, run, try_catch, bind, ret,
    pool_query.
  cbn [sent committed]. destruct (fault e 0%nat); reflexivity.
Qed.

(** X28: the list of bookings agrees with the statistics.  On a database
    whose references hold and whose slot ids and doctor ids are distinct,
    [getAllBookings] served without a fault answers 200 with, as [count],
    the total of the statistics when no parameter is given, and the
    statistics' count for a status when [status] is a text that
    [toUpperCase] turns into the name of that status; the rows come
    newest first. *)
Theorem getAllBookings_agrees_with_stats (toUpperCase : string -> string)
    (db : database) (ts now : Z) :
  references_hold db ->
  NoDup (map s_id (appointment_slots db)) ->
  NoDup (map d_id (doctors db)) ->
  let newest_first x y :=
    b_created_at (booking y) <=? b_created_at (booking x) in
  (exists rows,
      run (BookingController.getAllBookings toUpperCase None None)
          (calm ts now) db
      = (Return (Responded (accepted 200 (Some rows)
                              (Some (n_total (select_stats db))) None)), db)
      /\ in_order newest_first rows)
  /\ forall st q,
       q <> ""%string -> toUpperCase q = status_name st ->
       exists rows,
         run (BookingController.getAllBookings toUpperCase (Some q) None)
             (calm ts now) db
         = (Return (Responded (accepted 200 (Some rows)
                                 (Some (count_status st db)) None)), db)
         /\ in_order newest_first rows
         /\ forall x, In x rows -> b_status (booking x) = st.
Proof.
  intros Href Hs Hd newest_first.
  assert (Htotal : forall a b, newest_first a b = false ->
                               newest_first b a = true).
  { intros a b H. unfold newest_first in *. apply Z.leb_gt in H.
    apply Z.leb_le. lia. }
  split.
  - eexists. rewrite getAllBookings_run. cbn [fault calm no_fault].
    split; [| apply order_by_in_order; exact Htotal].
    cbv zeta. unfold select_bookings.
    rewrite order_by_length, join_bookings_length by assumption.
    rewrite filter_all by reflexivity. reflexivity.
  - intros st q Hq Hup. eexists. rewrite getAllBookings_run.
    cbn [fault calm no_fault].
    assert (Hwanted : forall b,
              wanted_booking toUpperCase (Some q) None b
              = status_eqb (b_status b) st).
    { intros b. unfold wanted_booking, given.
      apply String.eqb_neq in Hq. rewrite Hq, Hup, status_name_eqb.
      apply andb_true_r. }
    split; [| split].
    + cbv zeta. unfold select_bookings, count_status.
      rewrite order_by_length, join_bookings_length by assumption.
      rewrite (filter_ext _ _ Hwanted). reflexivity.
    + apply order_by_in_order. exact Htotal.
    + intros x Hx. unfold select_bookings in Hx.
      apply order_by_In, join_bookings_In in Hx.
      destruct Hx as [b [s [doc [_ [Hkeep [_ [_ [_ [_ ->]]]]]]]]].
      rewrite Hwanted in Hkeep. apply status_eqb_eq. exact Hkeep.
Qed.

Lemma getAllBookings_agrees_with_stats_witness :
  exists rows,
    run (BookingController.getAllBookings (fun s => s)
           (Some "PENDING"%string) None)
        (calm 1000 1000) Sample.stale
    = (Return (Responded (accepted 200 (Some rows) (Some 1%nat) None)),
       Sample.stale).
Proof.
  destruct (getAllBookings_agrees_with_stats (fun s => s) Sample.stale
              1000 1000)
    as [_ Hstatus].
  - split.
    + intros b [<- | []]. eexists. split; [left; reflexivity | reflexivity].
    + intros s [<- | []]. eexists. split; [left; reflexivity | reflexivity].
  - cbn. constructor; [intros [] | constructor].
  - cbn. constructor; [intros [] | constructor].
  - destruct (Hstatus PENDING "PENDING"%string) as [rows [Hrun _]];
      [discriminate | reflexivity |].
    exists rows. exact Hrun.
Defined.

(** X29: whatever [getBookingById] returns is a row of the list: it is in
    the result of [getAllBookings] without parameters, and in the result
    for its own status and patient email. *)
Theorem getBookingById_is_listed (toUpperCase : string -> string) (e : env)
    (db : database) (id : Z) (d : booking_details) :
  fst (run (getBookingById id) e db) = Return (Some d) ->
  b_id (booking d) = id
  /\ In d (select_bookings toUpperCase None None db)
  /\ forall q,
       toUpperCase q = status_name (b_status (booking d)) ->
       In d (select_bookings toUpperCase (Some q)
               (Some (patient_email (booking d))) db).
Proof.
  run_call. destruct (fault e 0%nat); [discriminate |].
  cbn [fst]. intros Hr. injection Hr as Hr.
  assert (Hin : In d (booking_join db id)).
  { destruct (booking_join db id); [discriminate |].
    injection Hr as <-. left. reflexivity. }
  apply booking_join_In in Hin.
  destruct Hin as [b [s [doc [Hb [Hid [Hs [Hsid [Hd [Hdid ->]]]]]]]]].
  cbn [booking]. split; [exact Hid |].
  split.
  - apply order_by_In, join_bookings_In.
    exists b, s, doc. repeat split; auto.
  - intros q Hq. apply order_by_In, join_bookings_In.
    exists b, s, doc. repeat split; auto.
    unfold wanted_booking, given. rewrite <- Hq.
    destruct (String.eqb q ""); destruct (String.eqb (patient_email b) "");
      rewrite ?String.eqb_refl; reflexivity.
Qed.

Lemma getBookingById_is_listed_witness :
  exists d,
    fst (run (getBookingById 1) (calm 1000 1000) Sample.stale)
    = Return (Some d)
    /\ In d (select_bookings (fun s => s) None None Sample.stale).
Proof.
  eexists. split; [vm_compute; reflexivity |].
  eapply (getBookingById_is_listed (fun s => s) (calm 1000 1000)
            Sample.stale 1).
  vm_compute. reflexivity.
Defined.

(** ** The times of createBulkSlots *)


Lemma digit_char (c : ascii) (o r : option Decimal.uint) :
  uint_of_char c o = r -> r <> None ->
  (c ?= "9")%char <> Gt /\ (c ?= ":")%char = Lt /\ Ascii.eqb c ":" = false.
Proof.
  intros <- Hr. destruct o as [d|]; [| contradiction].
  destruct c as [[|] [|] [|] [|] [|] [|] [|] [|]];
    try (exfalso; apply Hr; reflexivity);
    (split; [discriminate | split; reflexivity]).
Qed.

Lemma split_colon_digits_only (m : string) (d : Decimal.uint) :
  NilEmpty.uint_of_string m = Some d -> split_colon m = [m].
Proof.
  revert d. induction m as [|c m IH]; intros d Hd; [reflexivity |].
  cbn in Hd |- *.
  destruct (NilEmpty.uint_of_string m) as [d'|] eqn:E;
    [| destruct c as [[|] [|] [|] [|] [|] [|] [|] [|]]; discriminate].
  destruct (digit_char c (Some d') (Some d) Hd) as [_ [_ Hc]]; [discriminate |].
  rewrite Hc, (IH d' eq_refl). reflexivity.
Qed.

Lemma split_colon_digits (h rest : string) (d : Decimal.uint) :
  NilEmpty.uint_of_string h = Some d ->
  split_colon (h ++ ":" ++ rest) = h :: split_colon rest.
Proof.
  revert d. induction h as [|c h IH]; intros d Hd; [reflexivity |].
  cbn in Hd. cbn [append split_colon].
  destruct (NilEmpty.uint_of_string h) as [d'|] eqn:E;
    [| destruct c as [[|] [|] [|] [|] [|] [|] [|] [|]]; discriminate].
  destruct (digit_char c (Some d') (Some d) Hd) as [_ [_ Hc]]; [discriminate |].
  rewrite Hc. change (h ++ String ":" rest)%string with (h ++ ":" ++ rest)%string.
  rewrite (IH d' eq_refl). reflexivity.
Qed.

Lemma Number_of_digits (s : string) (n : Z) :
  Number_of s = Some n -> exists d, NilEmpty.uint_of_string s = Some d.
Proof.
  unfold Number_of. destruct (NilEmpty.uint_of_string s) as [d|]; [eauto | discriminate].
Qed.

(** The next time is the clock reading [duration_minutes] later. *)
Lemma next_time_digits (h m : string) (hours minutes duration_minutes : Z) :
  Number_of h = Some hours -> Number_of m = Some minutes ->
  next_time (h ++ ":" ++ m) duration_minutes
  = Some (clock (hours * 60 + minutes + duration_minutes)).
Proof.
  intros Hh Hm. unfold next_time.
  destruct (Number_of_digits h hours Hh) as [dh Hdh].
  destruct (Number_of_digits m minutes Hm) as [dm Hdm].
  rewrite (split_colon_digits h m dh Hdh), (split_colon_digits_only m dm Hdm).
  rewrite Hh, Hm. reflexivity.
Qed.

Lemma padStart2_digits (n : Z) :
  0 <= n ->
  exists c1 c2 rest,
    padStart2 (String_of n) = String c1 (String c2 rest)
    /\ Number_of (padStart2 (String_of n)) = Some n.
Proof.
  intros Hn.
  assert (H : exists d, d <> Decimal.Nil
                        /\ String_of n = NilEmpty.string_of_uint d
                        /\ Z.of_N (N.of_uint d) = n).
  { unfold String_of. destruct n as [|p|p]; [| | lia].
    - exists (Decimal.D0 Decimal.Nil). repeat split. discriminate.
    - exists (Pos.to_uint p). split; [apply DecimalPos.Unsigned.to_uint_nonnil |].
      split.
      + cbn. pose proof (DecimalPos.Unsigned.to_uint_nonnil p) as Hp.
        destruct (Pos.to_uint p); [contradiction | reflexivity ..].
      + unfold N.of_uint. rewrite DecimalPos.Unsigned.of_to. reflexivity. }
  destruct H as [d [Hd [-> Hval]]].
  pose proof (NilEmpty.usu d) as Hparse.
  destruct (NilEmpty.string_of_uint d) as [|c1 [|c2 rest]] eqn:Es.
  - destruct d; cbn in Es; try discriminate. contradiction.
  - exists "0"%char, c1, EmptyString. split; [reflexivity |].
    unfold padStart2, Number_of. cbn [String.length].
    cbn [NilEmpty.uint_of_string] in Hparse |- *.
    rewrite Hparse. cbn. f_equal. exact Hval.
  - exists c1, c2, rest. split; [reflexivity |].
    unfold padStart2, Number_of. cbn [String.length].
    rewrite Hparse. cbn. f_equal. exact Hval.
Qed.

Lemma clock_parts (t : Z) :
  0 <= t ->
  exists h m c1 c2 rest,
    clock t = (h ++ ":" ++ m)%string
    /\ h = String c1 (String c2 rest)
    /\ Number_of h = Some (t / 60)
    /\ Number_of m = Some (Z.rem t 60).
Proof.
  intros Ht.
  destruct (padStart2_digits (t / 60)) as [c1 [c2 [rest [Hh Hnh]]]];
    [apply Z.div_pos; lia |].
  destruct (padStart2_digits (Z.rem t 60)) as [_ [_ [_ [_ Hnm]]]];
    [apply Z.rem_nonneg; lia |].
  exists (padStart2 (String_of (t / 60))), (padStart2 (String_of (Z.rem t 60))),
    c1, c2, rest.
  repeat split; assumption.
Qed.

Lemma next_time_clock (t duration_minutes : Z) :
  0 <= t ->
  next_time (clock t) duration_minutes = Some (clock (t + duration_minutes)).
Proof.
  intros Ht. destruct (clock_parts t Ht) as [h [m [_ [_ [_ [-> [_ [Hh Hm]]]]]]]].
  rewrite (next_time_digits h m _ _ _ Hh Hm). do 2 f_equal.
  rewrite Z.rem_mod_nonneg by lia.
  pose proof (Z.div_mod t 60). lia.
Qed.

Lemma clock_before_nine (t : Z) (mm : string) :
  0 <= t -> String.ltb (clock t) (String "9" (String ":" mm)) = true.
Proof.
  intros Ht.
  destruct (clock_parts t Ht) as [h [m [c1 [c2 [rest [-> [-> [Hh _]]]]]]]].
  destruct (Number_of_digits _ _ Hh) as [d Hd]. cbn in Hd.
  destruct (uint_of_char c2 (NilEmpty.uint_of_string rest)) as [d2|] eqn:E2;
    [| destruct c1 as [[|] [|] [|] [|] [|] [|] [|] [|]]; discriminate].
  destruct (digit_char c1 (Some d2) (Some d) Hd) as [H1 _]; [discriminate |].
  destruct (digit_char c2 _ (Some d2) E2) as [_ [H2 _]]; [discriminate |].
  unfold String.ltb. cbn [append String.compare].
  destruct (c1 ?= "9")%char; [rewrite H2; reflexivity | reflexivity |
                              contradiction].
Qed.

Lemma slot_times_clock_before_nine (fuel : nat) (t duration_minutes : Z)
    (mm : string) :
  0 <= t -> 0 <= duration_minutes ->
  slot_times fuel (clock t) (String "9" (String ":" mm)) duration_minutes
  = StillRunning.
Proof.
  revert t. induction fuel as [|fuel IH]; intros t Ht Hd; cbn [slot_times];
    rewrite (clock_before_nine t mm Ht); [reflexivity |].
  rewrite (next_time_clock t duration_minutes Ht), IH by lia. reflexivity.
Qed.

(** X30: the loop of [createBulkSlots] does not end when [end_time] is
    written with the one-digit hour 9 ("9:00", "9:30", ...).  From a start
    time [h:m] of decimal digits that is below [end_time] as a string,
    with a duration that is not negative, the loop is still running after
    any number of iterations in which the minutes stay below 2^53: every
    time it writes has two digits or more before the colon, and so
    compares below "9:". *)
Theorem slot_times_never_end (fuel : nat) (h m mm : string)
    (hours minutes duration_minutes : Z) :
  Number_of h = Some hours -> Number_of m = Some minutes ->
  0 <= duration_minutes ->
  String.ltb (h ++ ":" ++ m) ("9:" ++ mm) = true ->
  hours * 60 + minutes + Z.of_nat fuel * duration_minutes < 2 ^ 53 ->
  slot_times fuel (h ++ ":" ++ m) ("9:" ++ mm) duration_minutes = StillRunning.
Proof.
  intros Hh Hm Hd Hlt _.
  change ("9:" ++ mm)%string with (String "9" (String ":" mm)) in *.
  destruct fuel as [|fuel]; cbn [slot_times]; rewrite Hlt; [reflexivity |].
  rewrite (next_time_digits h m _ _ _ Hh Hm).
  rewrite slot_times_clock_before_nine; [reflexivity | | exact Hd].
  unfold Number_of in Hh, Hm.
  destruct (NilEmpty.uint_of_string h); [| discriminate].
  destruct (NilEmpty.uint_of_string m); [| discriminate].
  injection Hh as <-. injection Hm as <-. lia.
Qed.

Lemma slot_times_never_end_witness :
  slot_times 1000 "08:00" "9:00" 30 = StillRunning.
Proof.
  apply (slot_times_never_end 1000 "08" "00" "00" 8 0 30);
    [reflexivity | reflexivity | lia | reflexivity | vm_compute; reflexivity].
Defined.

Lemma ascii_compare_lt_trans (a b c : ascii) :
  (a ?= b)%char = Lt -> (b ?= c)%char = Lt -> (a ?= c)%char = Lt.
Proof.
  unfold Ascii.compare. rewrite !N.compare_lt_iff. lia.
Qed.

Lemma string_compare_lt_trans (a b c : string) :
  String.compare a b = Lt -> String.compare b c = Lt -> String.compare a c = Lt.
Proof.
  revert b c. induction a as [|x a IH]; intros [|y b] [|z c]; cbn;
    try discriminate; try reflexivity.
  destruct (x ?= y)%char eqn:Exy; try discriminate;
    destruct (y ?= z)%char eqn:Eyz; try discriminate; intros H1 H2.
  - apply Ascii.compare_eq_iff in Exy, Eyz. subst.
    assert (E : (z ?= z)%char = Eq)
      by (unfold Ascii.compare; apply N.compare_refl).
    rewrite E. eapply IH; eassumption.
  - apply Ascii.compare_eq_iff in Exy. subst. rewrite Eyz. reflexivity.
  - apply Ascii.compare_eq_iff in Eyz. subst. rewrite Exy. reflexivity.
  - rewrite (ascii_compare_lt_trans x y z Exy Eyz). reflexivity.
Qed.

Lemma string_compare_refl (s : string) : String.compare s s = Eq.
Proof.
  induction s as [|c s IH]; [reflexivity |]. cbn.
  unfold Ascii.compare. rewrite N.compare_refl. exact IH.
Qed.

Lemma string_compare_app (a b x y : string) :
  String.length a = String.length b ->
  String.compare (a ++ x) (b ++ y)
  = match String.compare a b with
    | Eq => String.compare x y
    | other => other
    end.
Proof.
  revert b. induction a as [|c a IH]; intros [|c' b] Hlen;
    try discriminate Hlen; [reflexivity |].
  cbn. destruct (c ?= c')%char; try reflexivity.
  apply IH. cbn in Hlen. congruence.
Qed.

(** Two digits: an hour below 100 or a minute. *)
Lemma two_digits_step (n : Z) :
  0 <= n < 100 ->
  String.length (padStart2 (String_of n)) = 2%nat
  /\ (n < 99 -> String.compare (padStart2 (String_of n))
                               (padStart2 (String_of (n + 1))) = Lt).
Proof.
  intros Hn.
  assert (H : forallb
                (fun k =>
                   Nat.eqb (String.length (padStart2 (String_of (Z.of_nat k)))) 2
                   && (Nat.eqb k 99
                       || String.ltb (padStart2 (String_of (Z.of_nat k)))
                                     (padStart2 (String_of (Z.of_nat k + 1)))))
                (seq 0 100) = true) by (vm_compute; reflexivity).
  rewrite forallb_forall in H.
  assert (Hin : In (Z.to_nat n) (seq 0 100)) by (apply in_seq; lia).
  specialize (H _ Hin). rewrite Z2Nat.id in H by lia.
  apply andb_prop in H. destruct H as [Hlen Hlt].
  split; [apply Nat.eqb_eq; exact Hlen |].
  intros Hn'. apply orb_prop in Hlt. destruct Hlt as [E | Hlt].
  - apply Nat.eqb_eq in E. lia.
  - unfold String.ltb in Hlt.
    destruct (String.compare _ _); [discriminate | reflexivity | discriminate].
Qed.

Lemma two_digits_lt (n m : Z) :
  0 <= n -> n < m -> m < 100 ->
  String.compare (padStart2 (String_of n)) (padStart2 (String_of m)) = Lt.
Proof.
  intros Hn Hnm Hm.
  replace m with (n + 1 + Z.of_nat (Z.to_nat (m - n - 1))) in * by lia.
  induction (Z.to_nat (m - n - 1)) as [|k IH].
  - rewrite Z.add_0_r. apply two_digits_step; lia.
  - eapply string_compare_lt_trans; [apply IH; lia |].
    replace (n + 1 + Z.of_nat (S k)) with (n + 1 + Z.of_nat k + 1) by lia.
    apply two_digits_step; lia.
Qed.

Lemma clock_lt (t u : Z) :
  0 <= t -> t < u -> u < 6000 -> String.compare (clock t) (clock u) = Lt.
Proof.
  intros Ht Htu Hu. unfold clock.
  assert (Hq : 0 <= t / 60 <= u / 60 /\ u / 60 < 100).
  { split; [split; [apply Z.div_pos; lia | apply Z.div_le_mono; lia] |].
    apply Z.div_lt_upper_bound; lia. }
  rewrite string_compare_app
    by (rewrite (proj1 (two_digits_step (t / 60) ltac:(lia))),
                (proj1 (two_digits_step (u / 60) ltac:(lia))); reflexivity).
  destruct (Z.eq_dec (t / 60) (u / 60)) as [E | E].
  - rewrite E, string_compare_refl. cbn [append String.compare].
    change (":" ?= ":")%char with Eq. cbv iota.
    rewrite !Z.rem_mod_nonneg by lia.
    pose proof (Z.div_mod t 60). pose proof (Z.div_mod u 60).
    pose proof (Z.mod_pos_bound t 60). pose proof (Z.mod_pos_bound u 60).
    apply two_digits_lt; lia.
  - rewrite two_digits_lt by lia. reflexivity.
Qed.

Lemma clock_ltb (t u : Z) :
  0 <= t < 6000 -> 0 <= u < 6000 ->
  String.ltb (clock t) (clock u) = (t <? u).
Proof.
  intros Ht Hu. unfold String.ltb.
  destruct (Z.ltb_spec t u) as [H | H].
  - rewrite clock_lt by lia. reflexivity.
  - destruct (Z.eq_dec t u) as [-> | Hne].
    + destruct (String.compare (clock u) (clock u)) eqn:E; try reflexivity.
      pose proof (String.compare_antisym (clock u) (clock u)) as Ha.
      rewrite E in Ha. discriminate.
    + rewrite String.compare_antisym, clock_lt by lia. reflexivity.
Qed.

(** X9: for a start and an end written [HH:MM] with two digits each
    (times of day below 100 hours), a positive duration and an end that is
    at least the duration before 100 hours, the loop of [createBulkSlots]
    ends, within as many iterations as there are times, with the times
    start, start + duration, start + 2 duration, ... that are before the
    end, each written [HH:MM]. *)
Theorem slot_times_progression (fuel : nat) (t0 tE d : Z) :
  0 <= t0 < 6000 -> 0 <= tE -> 0 < d -> tE + d <= 6000 ->
  (slot_count t0 tE d <= fuel)%nat ->
  slot_times fuel (clock t0) (clock tE) d
  = Finished (map (fun k => clock (t0 + Z.of_nat k * d))
                  (seq 0 (slot_count t0 tE d))).
Proof.
  revert t0. induction fuel as [|fuel IH]; intros t0 Ht0 HtE Hd Hend Hfuel;
    cbn [slot_times]; rewrite clock_ltb by lia;
    destruct (Z.ltb_spec t0 tE) as [Hlt | Hge].
  - exfalso. unfold slot_count in Hfuel.
    assert (1 <= (tE - t0 + d - 1) / d) by (apply Z.div_le_lower_bound; lia).
    lia.
  - replace (slot_count t0 tE d) with 0%nat; [reflexivity |].
    unfold slot_count.
    assert ((tE - t0 + d - 1) / d <= 0).
    { apply Z.lt_succ_r. apply Z.div_lt_upper_bound; lia. }
    lia.
  - rewrite next_time_clock by lia.
    assert (Hn : slot_count t0 tE d = S (slot_count (t0 + d) tE d)).
    { unfold slot_count.
      replace (tE - t0 + d - 1) with ((tE - (t0 + d) + d - 1) + 1 * d) by lia.
      rewrite Z.div_add by lia.
      assert (0 <= (tE - (t0 + d) + d - 1) / d) by (apply Z.div_pos; lia).
      lia. }
    rewrite IH by lia. rewrite Hn. cbn [seq map]. f_equal. f_equal.
    + f_equal. lia.
    + rewrite <- seq_shift, map_map. apply map_ext. intros k.
      f_equal. lia.
  - replace (slot_count t0 tE d) with 0%nat; [reflexivity |].
    unfold slot_count.
    assert ((tE - t0 + d - 1) / d <= 0).
    { apply Z.lt_succ_r. apply Z.div_lt_upper_bound; lia. }
    lia.
Qed.

Lemma slot_times_progression_witness :
  clock 540 = "09:00"%string /\ clock 1020 = "17:00"%string
  /\ slot_times 16 (clock 540) (clock 1020) 30
     = Finished (map (fun k => clock (540 + Z.of_nat k * 30)) (seq 0 16)).
Proof.
  split; [reflexivity |]. split; [reflexivity |].
  pose proof (slot_times_progression 16 540 1020 30) as H.
  apply H; try lia. vm_compute. apply le_n.
Defined.
